(** * High-Scale Energy Ingestion Engine: a shallow embedding

    The development follows the JavaScript services and the SQL schema of the
    repository:

    - [src/config/database.js]            the pool, [query] and [transaction];
    - [src/services/meterService.js]      [MeterService];
    - [src/services/vehicleService.js]    [VehicleService];
    - [src/services/analyticsService.js]  [AnalyticsService];
    - [src/controllers/*.js]              the two controllers;
    - [database/schema.sql]               the tables, the materialized view
                                          [vehicle_24h_performance].

    Conventions of the model.

    - JavaScript numbers and SQL [numeric] values are exact rationals ([Q]);
      [NaN] and the infinities are kept as separate constructors of
      [number].  The rounding of binary floating point is left out, except
      where a result shows it: the percentage that the on-demand
      computation prints with two decimals is a parameter of that
      computation, with exact arithmetic and IEEE 754 binary64 as two
      instances.  The runtime's [parseFloat] of a query parameter is a
      parameter of the analytics controller.
    - Instants ([TIMESTAMPTZ], [Date]) are integers, milliseconds since the
      epoch.
    - The PostgreSQL server is a record of tables.  A [DECIMAL(p,s)] column
      rounds what is written into it to [s] fractional digits and rejects
      what does not fit, as the server does; it holds rationals, not the
      [numeric] NaN.  A [VARCHAR(n)] column measures text in bytes, which
      is what the server does on ASCII text without NUL that does not end
      in a space.  One statement carries at most 65535 parameters.
    - What the [pg] driver and the server make of a parameter whose
      JavaScript type does not match its column (a string bound to a
      [DECIMAL], a number bound to a [VARCHAR], any text bound to a
      [TIMESTAMPTZ]) is not fixed by the repository: it is a parameter of
      the development, the record [driver]. *)

From Stdlib Require Import QArith Qround Qabs ZArith Lia Lqa Ascii String.
From Stdlib Require PrimFloat FloatOps SpecFloat Uint63.
From stdpp Require Import gmap strings list fin_maps sorting.

#[local] Set Warnings "-register-all".
#[local] Open Scope Z_scope.

(** ** Numbers *)

(** A JavaScript number. *)
Inductive number :=
| NaN
| Fin (q : Q)
| Inf (negative : bool).

Definition Qlt_bool (x y : Q) : bool := negb (Qle_bool y x).

(** [ToBoolean] on a number: [0] and [NaN] are falsy. *)
Definition number_truthy (n : number) : bool :=
  match n with
  | NaN => false
  | Fin q => negb (Qeq_bool q 0)
  | Inf _ => true
  end.

(** [a || b] on numbers. *)
Definition js_or (a b : number) : number :=
  if number_truthy a then a else b.

(** [a < b], [a > b], [a >= b]: every comparison with [NaN] is false. *)
Definition js_lt (a b : number) : bool :=
  match a, b with
  | NaN, _ | _, NaN => false
  | Fin x, Fin y => Qlt_bool x y
  | Fin _, Inf neg => negb neg
  | Inf neg, Fin _ => neg
  | Inf n1, Inf n2 => n1 && negb n2
  end.

Definition js_gt (a b : number) : bool := js_lt b a.

Definition js_ge (a b : number) : bool :=
  match a, b with
  | NaN, _ | _, NaN => false
  | _, _ => negb (js_lt a b)
  end.

(** [a * b] and [a / b]; the sign of a zero is not tracked.  Numbers are
    exact rationals: the rounding of binary floating point is left out.
    Where it shows in a result, in the percentage that the on-demand
    computation prints with two decimals, what the runtime computes is a
    parameter of the computation. *)
Definition js_mul (a b : number) : number :=
  match a, b with
  | NaN, _ | _, NaN => NaN
  | Fin x, Fin y => Fin (x * y)
  | Fin x, Inf neg | Inf neg, Fin x =>
      if Qeq_bool x 0 then NaN else Inf (xorb neg (Qlt_bool x 0))
  | Inf n1, Inf n2 => Inf (xorb n1 n2)
  end.

Definition js_div (a b : number) : number :=
  match a, b with
  | NaN, _ | _, NaN => NaN
  | Fin x, Fin y =>
      if Qeq_bool y 0
      then (if Qeq_bool x 0 then NaN else Inf (Qlt_bool x 0))
      else Fin (x / y)
  | Fin _, Inf _ => Fin 0
  | Inf neg, Fin y => Inf (xorb neg (Qlt_bool y 0))
  | Inf _, Inf _ => NaN
  end.

(** ** Rounding to a number of fractional digits *)

Definition pow10 (digits : nat) : Q := inject_Z (10 ^ Z.of_nat digits).

(** [Number.prototype.toFixed]: "let n be an integer for which
    n / 10^f - x is as close to zero as possible; if there are two such n,
    pick the larger n", on the absolute value, the sign put back in front.
    The result is the integer [n], in units of [10^-f]. *)
Definition toFixed_units (digits : nat) (x : Q) : Z :=
  let n := Qfloor (Qabs x * pow10 digits + (1 # 2)) in
  if Qlt_bool x 0 then - n else n.

(** PostgreSQL's [round(numeric, s)], also applied when a value is stored
    in a [DECIMAL(p,s)] column: the digits after position [s] are cut and
    the magnitude goes up by one unit when the first cut digit is 5 or
    more. *)
Definition ROUND_units (s : nat) (x : Q) : Z :=
  let m := Qfloor (Qabs x * pow10 (S s)) in
  let n := m / 10 + (if 5 <=? m mod 10 then 1 else 0) in
  if Qlt_bool x 0 then - n else n.

Definition of_units (digits : nat) (n : Z) : Q :=
  Qmake n (Z.to_pos (10 ^ Z.of_nat digits)).

Definition ROUND (x : Q) (s : nat) : Q := of_units s (ROUND_units s x).

(** ** JavaScript values *)

(** A value as [express.json()] hands it to a controller, or as one
    function of the services passes it to another. *)
Inductive jsval :=
| JUndefined
| JNull
| JBool (b : bool)
| JNum (n : number)
| JStr (s : string)
| JArr (items : list jsval)
| JObj (fields : gmap string jsval).

Inductive js_type :=
| t_undefined | t_object | t_boolean | t_number | t_string.

Definition typeof (v : jsval) : js_type :=
  match v with
  | JUndefined => t_undefined
  | JNull | JArr _ | JObj _ => t_object
  | JBool _ => t_boolean
  | JNum _ => t_number
  | JStr _ => t_string
  end.

Definition js_type_eqb (a b : js_type) : bool :=
  match a, b with
  | t_undefined, t_undefined | t_object, t_object | t_boolean, t_boolean
  | t_number, t_number | t_string, t_string => true
  | _, _ => false
  end.

(** [ToBoolean]. *)
Definition truthy (v : jsval) : bool :=
  match v with
  | JUndefined | JNull => false
  | JBool b => b
  | JNum n => number_truthy n
  | JStr s => negb (String.eqb s "")
  | JArr _ | JObj _ => true
  end.

Definition is_undefined (v : jsval) : bool :=
  match v with JUndefined => true | _ => false end.

Definition nat_number (n : nat) : number := Fin (inject_Z (Z.of_nat n)).

(** What can be thrown.  [ValidationError] is the [Error] the validators
    of the services throw, [TypeError] is the runtime's, [StoreError] is
    whatever the [pg] client rejects a call with. *)
Inductive error :=
| ValidationError (message : string)
| TypeError (message : string)
| StoreError (message : string).

Definition error_message (e : error) : string :=
  match e with
  | ValidationError m | TypeError m | StoreError m => m
  end.

(** [v.k]: reading a property of [undefined] or [null] throws; a property
    that is not there reads as [undefined]; arrays and strings have a
    [length]. *)
Definition prop (v : jsval) (k : string) : error + jsval :=
  match v with
  | JUndefined | JNull =>
      inl (TypeError ("Cannot read properties of undefined or null: " +:+ k))
  | JObj o => inr (default JUndefined (o !! k))
  | JArr l =>
      inr (if String.eqb k "length" then JNum (nat_number (length l))
           else JUndefined)
  | JStr s =>
      inr (if String.eqb k "length" then JNum (nat_number (String.length s))
           else JUndefined)
  | JBool _ | JNum _ => inr JUndefined
  end.

(** [v === 0]. *)
Definition strict_eq_zero (v : jsval) : bool :=
  match v with
  | JNum (Fin q) => Qeq_bool q 0
  | _ => false
  end.

(** [Array.isArray]. *)
Definition isArray (v : jsval) : bool :=
  match v with JArr _ => true | _ => false end.

(** ** The state and error monad of the asynchronous code

    An [async] function either returns or rejects, and on the way changes
    the state of what it talks to. *)
Definition M (S A : Type) : Type := S -> (error + A) * S.

Definition ret {S A} (a : A) : M S A := fun s => (inr a, s).

Definition throw {S A} (e : error) : M S A := fun s => (inl e, s).

Definition bind {S A B} (m : M S A) (k : A -> M S B) : M S B :=
  fun s =>
    match m s with
    | (inl e, s') => (inl e, s')
    | (inr a, s') => k a s'
    end.

Definition lift {S A} (r : error + A) : M S A := fun s => (r, s).

Notation "'let!' x ':=' m 'in' k" := (bind m (fun x => k))
  (at level 10, x name, m at level 100, k at level 200).

(** [for (const x of l) { await body(x) }] *)
Fixpoint for_of {S A} (l : list A) (body : A -> M S unit) : M S unit :=
  match l with
  | [] => ret tt
  | x :: rest => let! _ := body x in for_of rest body
  end.

Fixpoint traverse {A B} (f : A -> error + B) (l : list A) : error + list B :=
  match l with
  | [] => inr []
  | x :: rest =>
      match f x with
      | inl e => inl e
      | inr y =>
          match traverse f rest with
          | inl e => inl e
          | inr ys => inr (y :: ys)
          end
      end
  end.

(** ** The schema ([database/schema.sql]) *)

(** What is outside the repository: how the [pg] driver prints a parameter
    that is not of the JavaScript type its column suggests, how the server
    reads that text, and how the JavaScript runtime reads an instant. *)
Record driver := {
  (** the text the server receives for a value that is not a string *)
  text_of : jsval -> string;
  (** the [numeric] the server reads from a value that is not a finite
      number; [None] when it rejects the text *)
  numeric_of : jsval -> option Q;
  (** the instant the server reads from a parameter of a [TIMESTAMPTZ]
      column; [None] when it rejects the text *)
  timestamptz_of : jsval -> option Z;
  (** [new Date(v).getTime()]; [None] stands for [NaN] *)
  Date_getTime : jsval -> option Z
}.

(** [meter_telemetry_history] *)
Record meter_history_row := {
  mh_meter_id : string;
  mh_kwh_consumed_ac : Q;
  mh_voltage : Q;
  mh_recorded_at : Z;
  mh_ingested_at : Z
}.

(** [vehicle_telemetry_history] *)
Record vehicle_history_row := {
  vh_vehicle_id : string;
  vh_soc : Q;
  vh_kwh_delivered_dc : Q;
  vh_battery_temp : Q;
  vh_recorded_at : Z;
  vh_ingested_at : Z
}.

(** [meter_current_status]; the primary key [meter_id] is the key of the
    map that holds the rows. *)
Record meter_status_row := {
  ms_kwh_consumed_ac : Q;
  ms_voltage : Q;
  ms_last_updated : Z;
  ms_ingested_at : Z
}.

(** [vehicle_current_status], keyed by [vehicle_id]. *)
Record vehicle_status_row := {
  vs_soc : Q;
  vs_kwh_delivered_dc : Q;
  vs_battery_temp : Q;
  vs_last_updated : Z;
  vs_ingested_at : Z;
  vs_is_charging : bool
}.

(** A row of the materialized view [vehicle_24h_performance].  A column
    that can be [NULL] is an [option]. *)
Record performance_row := {
  perf_vehicle_id : string;
  perf_total_dc_delivered : option Q;
  perf_total_ac_consumed : option Q;
  perf_efficiency_ratio : option Q;
  perf_avg_battery_temp : option Q;
  perf_vehicle_readings : Z;
  perf_meter_readings : Z;
  perf_first_reading : option Z;
  perf_last_reading : option Z;
  perf_computed_at : Z
}.

(** The database: the history tables append at the end (the order of the
    [BIGSERIAL] keys), the status tables are maps from the primary key. *)
Record db := {
  meter_telemetry_history : list meter_history_row;
  vehicle_telemetry_history : list vehicle_history_row;
  meter_current_status : gmap string meter_status_row;
  vehicle_current_status : gmap string vehicle_status_row;
  vehicle_24h_performance : list performance_row
}.

Definition empty_db : db := {|
  meter_telemetry_history := [];
  vehicle_telemetry_history := [];
  meter_current_status := ∅;
  vehicle_current_status := ∅;
  vehicle_24h_performance := []
|}.

(** The parameters bound to one tuple of placeholders. *)
Record meter_params := {
  p_meterId : jsval;
  p_kwhConsumedAc : jsval;
  p_voltage : jsval;
  p_meter_timestamp : jsval
}.

Record vehicle_params := {
  p_vehicleId : jsval;
  p_soc : jsval;
  p_kwhDeliveredDc : jsval;
  p_batteryTemp : jsval;
  p_vehicle_timestamp : jsval
}.

(** The statements the services send.  The two history inserts take one
    tuple per [VALUES] group; a single ingest sends one group. *)
Inductive stmt :=
| BEGIN
| COMMIT
| ROLLBACK
| InsertMeterHistory (values : list meter_params)
| UpsertMeterStatus (p : meter_params)
| InsertVehicleHistory (values : list vehicle_params)
| SelectVehicleSoc (vehicle_id : jsval)
| UpsertVehicleStatus (p : vehicle_params) (is_charging : bool).

(** What a statement answers: nothing the caller reads, or the [soc]
    column of the rows found. *)
Inductive result :=
| Done
| SocRows (rows : list Q).

(** The most parameters one statement can bind: the protocol counts them
    in 16 bits. *)
Definition max_parameters : Z := 65535.

Section Store.

Variable E : driver.

Definition is_null (v : jsval) : bool :=
  match v with JUndefined | JNull => true | _ => false end.

Definition not_null_violation (column : string) : error :=
  StoreError ("null value in column " +:+ column
              +:+ " violates not-null constraint").

(** The text a parameter is sent as. *)
Definition param_text (v : jsval) : string :=
  match v with JStr s => s | _ => text_of E v end.

(** A parameter stored in a [VARCHAR(n) NOT NULL] column.  The length is
    counted in bytes, and a value that is too long is rejected: on text
    of ASCII characters, none of them NUL, that does not end in a space,
    this is what the store does (it counts characters, rejects NUL, and
    cuts the spaces at the end of a value that is too long). *)
Definition varchar_in (n : nat) (column : string) (v : jsval)
  : error + string :=
  if is_null v then inl (not_null_violation column)
  else
    let s := param_text v in
    if (String.length s <=? n)%nat then inr s
    else inl (StoreError "value too long for type character varying").

(** A parameter stored in a [DECIMAL(p,s) NOT NULL] column: rounded to
    [s] fractional digits, rejected when more than [p] digits remain.
    The column holds rationals: the special value NaN, which the store
    also reads from text and keeps in such a column, is left out. *)
Definition decimal_in (p s : nat) (column : string) (v : jsval)
  : error + Q :=
  if is_null v then inl (not_null_violation column)
  else
    match (match v with JNum (Fin q) => Some q | _ => numeric_of E v end) with
    | None => inl (StoreError "invalid input syntax for type numeric")
    | Some q =>
        let n := ROUND_units s q in
        if Z.abs n <? 10 ^ Z.of_nat p then inr (of_units s n)
        else inl (StoreError "numeric field overflow")
    end.

(** A parameter stored in a [TIMESTAMPTZ NOT NULL] column. *)
Definition timestamptz_in (column : string) (v : jsval) : error + Z :=
  if is_null v then inl (not_null_violation column)
  else
    match timestamptz_of E v with
    | None =>
        inl (StoreError
               "invalid input syntax for type timestamp with time zone")
    | Some t => inr t
    end.

(** [CHECK (soc >= 0 AND soc <= 100)] *)
Definition soc_check (soc : Q) : error + Q :=
  if Qle_bool 0 soc && Qle_bool soc 100 then inr soc
  else inl (StoreError "violates check constraint on soc").

Definition meter_history_in (now : Z) (p : meter_params)
  : error + meter_history_row :=
  match varchar_in 100 "meter_id" (p_meterId p) with
  | inl e => inl e
  | inr id =>
  match decimal_in 10 4 "kwh_consumed_ac" (p_kwhConsumedAc p) with
  | inl e => inl e
  | inr kwh =>
  match decimal_in 8 2 "voltage" (p_voltage p) with
  | inl e => inl e
  | inr volt =>
  match timestamptz_in "recorded_at" (p_meter_timestamp p) with
  | inl e => inl e
  | inr t =>
      inr {| mh_meter_id := id; mh_kwh_consumed_ac := kwh;
             mh_voltage := volt; mh_recorded_at := t;
             mh_ingested_at := now |}
  end end end end.

Definition meter_status_in (now : Z) (p : meter_params)
  : error + (string * meter_status_row) :=
  match meter_history_in now p with
  | inl e => inl e
  | inr r =>
      inr (mh_meter_id r,
           {| ms_kwh_consumed_ac := mh_kwh_consumed_ac r;
              ms_voltage := mh_voltage r;
              ms_last_updated := mh_recorded_at r;
              ms_ingested_at := now |})
  end.

Definition vehicle_history_in (now : Z) (p : vehicle_params)
  : error + vehicle_history_row :=
  match varchar_in 100 "vehicle_id" (p_vehicleId p) with
  | inl e => inl e
  | inr id =>
  match decimal_in 5 2 "soc" (p_soc p) with
  | inl e => inl e
  | inr soc0 =>
  match soc_check soc0 with
  | inl e => inl e
  | inr soc =>
  match decimal_in 10 4 "kwh_delivered_dc" (p_kwhDeliveredDc p) with
  | inl e => inl e
  | inr kwh =>
  match decimal_in 5 2 "battery_temp" (p_batteryTemp p) with
  | inl e => inl e
  | inr temp =>
  match timestamptz_in "recorded_at" (p_vehicle_timestamp p) with
  | inl e => inl e
  | inr t =>
      inr {| vh_vehicle_id := id; vh_soc := soc;
             vh_kwh_delivered_dc := kwh; vh_battery_temp := temp;
             vh_recorded_at := t; vh_ingested_at := now |}
  end end end end end end.

Definition vehicle_status_in (now : Z) (p : vehicle_params)
    (is_charging : bool) : error + (string * vehicle_status_row) :=
  match vehicle_history_in now p with
  | inl e => inl e
  | inr r =>
      inr (vh_vehicle_id r,
           {| vs_soc := vh_soc r;
              vs_kwh_delivered_dc := vh_kwh_delivered_dc r;
              vs_battery_temp := vh_battery_temp r;
              vs_last_updated := vh_recorded_at r;
              vs_ingested_at := now;
              vs_is_charging := is_charging |})
  end.

(** The tuples of one history insert, each of [per] parameters: the
    statement fails when they bind more parameters than one statement can
    carry (the text of that error is not the server's). *)
Definition bound_tuples {P A} (per : Z) (tuple_in : P -> error + A)
    (values : list P) : error + list A :=
  if per * Z.of_nat (length values) <=? max_parameters
  then traverse tuple_in values
  else inl (StoreError "too many parameters in one statement").

(** One data statement against a database, at server time [now]. *)
Definition exec (now : Z) (q : stmt) (d : db) : error + (db * result) :=
  match q with
  | BEGIN | COMMIT | ROLLBACK => inr (d, Done)
  | InsertMeterHistory values =>
      match bound_tuples 4 (meter_history_in now) values with
      | inl e => inl e
      | inr rows =>
          inr ({| meter_telemetry_history :=
                    meter_telemetry_history d ++ rows;
                  vehicle_telemetry_history := vehicle_telemetry_history d;
                  meter_current_status := meter_current_status d;
                  vehicle_current_status := vehicle_current_status d;
                  vehicle_24h_performance := vehicle_24h_performance d |},
               Done)
      end
  | UpsertMeterStatus p =>
      match meter_status_in now p with
      | inl e => inl e
      | inr (id, row) =>
          inr ({| meter_telemetry_history := meter_telemetry_history d;
                  vehicle_telemetry_history := vehicle_telemetry_history d;
                  meter_current_status :=
                    <[id := row]> (meter_current_status d);
                  vehicle_current_status := vehicle_current_status d;
                  vehicle_24h_performance := vehicle_24h_performance d |},
               Done)
      end
  | InsertVehicleHistory values =>
      match bound_tuples 5 (vehicle_history_in now) values with
      | inl e => inl e
      | inr rows =>
          inr ({| meter_telemetry_history := meter_telemetry_history d;
                  vehicle_telemetry_history :=
                    vehicle_telemetry_history d ++ rows;
                  meter_current_status := meter_current_status d;
                  vehicle_current_status := vehicle_current_status d;
                  vehicle_24h_performance := vehicle_24h_performance d |},
               Done)
      end
  | SelectVehicleSoc id =>
      if is_null id then inr (d, SocRows [])
      else
        inr (d, SocRows
                  match vehicle_current_status d !! param_text id with
                  | Some row => [vs_soc row]
                  | None => []
                  end)
  | UpsertVehicleStatus p is_charging =>
      match vehicle_status_in now p is_charging with
      | inl e => inl e
      | inr (id, row) =>
          inr ({| meter_telemetry_history := meter_telemetry_history d;
                  vehicle_telemetry_history := vehicle_telemetry_history d;
                  meter_current_status := meter_current_status d;
                  vehicle_current_status :=
                    <[id := row]> (vehicle_current_status d);
                  vehicle_24h_performance := vehicle_24h_performance d |},
               Done)
      end
  end.

End Store.

(** ** The connection pool ([src/config/database.js]) *)

(** The server: what is committed, its clock, and what the services
    have sent so far.  [faults] schedules the failures that do not come
    from the data (a lost connection, a timeout): each exchange with the
    server takes the head of the list, and fails when it is [true]. *)
Record server := {
  committed : db;
  clock : Z;
  faults : list bool;
  issued : list stmt
}.

(** A client checked out of the pool is idle, inside a transaction with
    its uncommitted work, or inside a transaction that a failed statement
    has aborted. *)
Inductive tx_state :=
| Idle
| Active (work : db)
| Aborted.

Record client := {
  host : server;
  txn : tx_state
}.

Definition next_fault (s : server) : bool := hd false (faults s).

Definition exchanged (s : server) (sent : list stmt) : server :=
  {| committed := committed s; clock := clock s;
     faults := tl (faults s); issued := issued s ++ sent |}.

Definition with_committed (s : server) (d : db) : server :=
  {| committed := d; clock := clock s;
     faults := faults s; issued := issued s |}.

Section Pool.

Variable E : driver.

(** [pool.connect()] *)
Definition pool_connect (s : server) : (error + client) * server :=
  let s' := exchanged s [] in
  if next_fault s
  then (inl (StoreError "timeout exceeded when trying to connect"), s')
  else (inr {| host := s'; txn := Idle |}, s').

(** [client.release()] *)
Definition release (c : client) : server := host c.

(** [client.query(...)] *)
Definition client_query (q : stmt) : M client result := fun c =>
  let s := exchanged (host c) [q] in
  if next_fault (host c) then
    (inl (StoreError "connection failure"),
     {| host := s;
        txn := match txn c with Idle => Idle | _ => Aborted end |})
  else
    match q, txn c with
    | BEGIN, Idle => (inr Done, {| host := s; txn := Active (committed s) |})
    | BEGIN, Active w => (inr Done, {| host := s; txn := Active w |})
    | COMMIT, Active w =>
        (inr Done, {| host := with_committed s w; txn := Idle |})
    | COMMIT, _ => (inr Done, {| host := s; txn := Idle |})
    | ROLLBACK, _ => (inr Done, {| host := s; txn := Idle |})
    | _, Aborted =>
        (inl (StoreError "current transaction is aborted"),
         {| host := s; txn := Aborted |})
    | _, Active w =>
        match exec E (clock s) q w with
        | inl e => (inl e, {| host := s; txn := Aborted |})
        | inr (w', r) => (inr r, {| host := s; txn := Active w' |})
        end
    | _, Idle =>
        match exec E (clock s) q (committed s) with
        | inl e => (inl e, {| host := s; txn := Idle |})
        | inr (d', r) => (inr r, {| host := with_committed s d'; txn := Idle |})
        end
    end.

(** [query(text, params)]: [pool.query], one statement on a client of
    its own, outside any transaction. *)
Definition query (q : stmt) : M server result := fun s =>
  match pool_connect s with
  | (inl e, s') => (inl e, s')
  | (inr c, _) =>
      let '(r, c') := client_query q c in
      (r, release c')
  end.

(** [transaction(callback)]:
<<
    const client = await pool.connect();
    try {
      await client.query('BEGIN');
      const result = await callback(client);
      await client.query('COMMIT');
      return result;
    } catch (error) {
      await client.query('ROLLBACK');
      throw error;
    } finally {
      client.release();
    }
>> *)
Definition transaction {A} (callback : M client A) : M server A := fun s =>
  match pool_connect s with
  | (inl e, s') => (inl e, s')
  | (inr c, _) =>
      match (let! _ := client_query BEGIN in
             let! r := callback in
             let! _ := client_query COMMIT in
             ret r) c with
      | (inr r, c') => (inr r, release c')
      | (inl e, c') =>
          match client_query ROLLBACK c' with
          | (inr _, c'') => (inl e, release c'')
          | (inl e', c'') => (inl e', release c'')
          end
      end
  end.

End Pool.

Definition meter_params_of (meter : jsval) : error + meter_params :=
  match prop meter "meterId" with
  | inl e => inl e
  | inr meterId =>
  match prop meter "kwhConsumedAc" with
  | inl e => inl e
  | inr kwhConsumedAc =>
  match prop meter "voltage" with
  | inl e => inl e
  | inr voltage =>
  match prop meter "timestamp" with
  | inl e => inl e
  | inr timestamp =>
      inr {| p_meterId := meterId; p_kwhConsumedAc := kwhConsumedAc;
             p_voltage := voltage; p_meter_timestamp := timestamp |}
  end end end end.

Definition vehicle_params_of (vehicle : jsval) : error + vehicle_params :=
  match prop vehicle "vehicleId" with
  | inl e => inl e
  | inr vehicleId =>
  match prop vehicle "soc" with
  | inl e => inl e
  | inr soc =>
  match prop vehicle "kwhDeliveredDc" with
  | inl e => inl e
  | inr kwhDeliveredDc =>
  match prop vehicle "batteryTemp" with
  | inl e => inl e
  | inr batteryTemp =>
  match prop vehicle "timestamp" with
  | inl e => inl e
  | inr timestamp =>
      inr {| p_vehicleId := vehicleId; p_soc := soc;
             p_kwhDeliveredDc := kwhDeliveredDc;
             p_batteryTemp := batteryTemp;
             p_vehicle_timestamp := timestamp |}
  end end end end end.

(** [typeof v !== 'number' || test(v)] *)
Definition not_number_or (test : number -> bool) (v : jsval) : bool :=
  match v with
  | JNum n => test n
  | _ => true
  end.

(** [typeof v !== 'string'] *)
Definition not_string (v : jsval) : bool :=
  negb (js_type_eqb (typeof v) t_string).

(** [batch.forEach(...)], [for (const x of batch)]: only an array has
    them (a body parsed from JSON holds no function). *)
Definition iterable (what : string) (batch : jsval) : error + list jsval :=
  match batch with
  | JArr items => inr items
  | _ => inl (TypeError (what +:+ " is not a function or is not iterable"))
  end.

(** ** [MeterService] ([src/services/meterService.js]) *)
Module MeterService.

Record receipt := {
  meterId : jsval;
  type : string;
  stored : bool;
  timestamp : jsval
}.

Section WithDriver.

Variable E : driver.

Definition validateMeterData {S} (data : jsval) : M S unit :=
  let! p := lift (meter_params_of data) in
  if negb (truthy (p_meterId p)) || not_string (p_meterId p) then
    throw (ValidationError "Invalid meterId: must be a non-empty string")
  else if not_number_or (fun n => js_lt n (Fin 0)) (p_kwhConsumedAc p) then
    throw (ValidationError
             "Invalid kwhConsumedAc: must be a positive number")
  else if not_number_or (fun n => js_lt n (Fin 0)) (p_voltage p) then
    throw (ValidationError "Invalid voltage: must be a positive number")
  else if negb (truthy (p_meter_timestamp p)) then
    throw (ValidationError "Invalid timestamp: timestamp is required")
  else
    match Date_getTime E (p_meter_timestamp p) with
    | None =>
        throw (ValidationError
                 "Invalid timestamp: must be a valid ISO 8601 date string")
    | Some _ => ret tt
    end.

Definition ingest (meterData : jsval) : M server receipt :=
  let! p := lift (meter_params_of meterData) in
  let! _ := validateMeterData meterData in
  transaction E
    (let! _ := client_query E (InsertMeterHistory [p]) in
     let! _ := client_query E (UpsertMeterStatus p) in
     ret {| meterId := p_meterId p; type := "meter"; stored := true;
            timestamp := p_meter_timestamp p |}).

Definition ingestBatch (meterBatch : jsval) : M server nat :=
  if negb (truthy meterBatch) then ret 0%nat
  else
    let! len := lift (prop meterBatch "length") in
    if strict_eq_zero len then ret 0%nat
    else
      transaction E
        (let! items := lift (iterable "meterBatch.forEach" meterBatch) in
         let! historyParams := lift (traverse meter_params_of items) in
         let! _ := client_query E (InsertMeterHistory historyParams) in
         let! _ := for_of items (fun meter =>
                     let! p := lift (meter_params_of meter) in
                     let! _ := client_query E (UpsertMeterStatus p) in
                     ret tt) in
         ret (length items)).

(** [getCurrentStatus], on what is committed. *)
Definition getCurrentStatus (d : db) (meterId : string)
  : option meter_status_row :=
  meter_current_status d !! meterId.

(** [ORDER BY recorded_at DESC] *)
Definition later_first (r1 r2 : meter_history_row) : Prop :=
  mh_recorded_at r2 <= mh_recorded_at r1.

#[global] Instance later_first_dec r1 r2 : Decision (later_first r1 r2) :=
  decide (mh_recorded_at r2 <= mh_recorded_at r1).

(** [getHistory(meterId, startTime, endTime)], on what is committed:
    [WHERE meter_id = $1 AND recorded_at BETWEEN $2 AND $3
     ORDER BY recorded_at DESC].  The two bounds are the instants the
    server reads the parameters as. *)
Definition getHistory (d : db) (meterId : string) (startTime endTime : Z)
  : list meter_history_row :=
  merge_sort later_first
    (filter (fun r => mh_meter_id r = meterId
                      /\ startTime <= mh_recorded_at r <= endTime)
            (meter_telemetry_history d)).

End WithDriver.

End MeterService.

(** ** [VehicleService] ([src/services/vehicleService.js]) *)
Module VehicleService.

Record receipt := {
  vehicleId : jsval;
  type : string;
  stored : bool;
  timestamp : jsval;
  isCharging : bool
}.

(** [soc > prevStatus.rows[0].soc]: the driver returns the [DECIMAL]
    column as decimal text, which the comparison reads as a number. *)
Definition soc_gt (soc : jsval) (prev : Q) : bool :=
  match soc with
  | JNum n => js_gt n (Fin prev)
  | _ => false
  end.

Section WithDriver.

Variable E : driver.

Definition validateVehicleData {S} (data : jsval) : M S unit :=
  let! p := lift (vehicle_params_of data) in
  if negb (truthy (p_vehicleId p)) || not_string (p_vehicleId p) then
    throw (ValidationError "Invalid vehicleId: must be a non-empty string")
  else if not_number_or
            (fun n => js_lt n (Fin 0) || js_gt n (Fin 100)) (p_soc p) then
    throw (ValidationError
             "Invalid soc: must be a number between 0 and 100")
  else if not_number_or (fun n => js_lt n (Fin 0)) (p_kwhDeliveredDc p) then
    throw (ValidationError
             "Invalid kwhDeliveredDc: must be a positive number")
  else if not_number_or (fun _ => false) (p_batteryTemp p) then
    throw (ValidationError "Invalid batteryTemp: must be a number")
  else if negb (truthy (p_vehicle_timestamp p)) then
    throw (ValidationError "Invalid timestamp: timestamp is required")
  else
    match Date_getTime E (p_vehicle_timestamp p) with
    | None =>
        throw (ValidationError
                 "Invalid timestamp: must be a valid ISO 8601 date string")
    | Some _ => ret tt
    end.

Definition ingest (vehicleData : jsval) : M server receipt :=
  let! p := lift (vehicle_params_of vehicleData) in
  let! _ := validateVehicleData vehicleData in
  transaction E
    (let! _ := client_query E (InsertVehicleHistory [p]) in
     let! prevStatus := client_query E (SelectVehicleSoc (p_vehicleId p)) in
     let isCharging :=
       match prevStatus with
       | SocRows (prev :: _) => soc_gt (p_soc p) prev
       | _ => false
       end in
     let! _ := client_query E (UpsertVehicleStatus p isCharging) in
     ret {| vehicleId := p_vehicleId p; type := "vehicle";
            stored := true; timestamp := p_vehicle_timestamp p;
            isCharging := isCharging |}).

Definition ingestBatch (vehicleBatch : jsval) : M server nat :=
  if negb (truthy vehicleBatch) then ret 0%nat
  else
    let! len := lift (prop vehicleBatch "length") in
    if strict_eq_zero len then ret 0%nat
    else
      transaction E
        (let! items :=
           lift (iterable "vehicleBatch.forEach" vehicleBatch) in
         let! historyParams := lift (traverse vehicle_params_of items) in
         let! _ := client_query E (InsertVehicleHistory historyParams) in
         let! _ := for_of items (fun vehicle =>
                     let! p := lift (vehicle_params_of vehicle) in
                     let! _ :=
                       client_query E (UpsertVehicleStatus p false) in
                     ret tt) in
         ret (length items)).

Definition getCurrentStatus (d : db) (vehicleId : string)
  : option vehicle_status_row :=
  vehicle_current_status d !! vehicleId.

(** [ORDER BY recorded_at DESC] *)
Definition later_first (r1 r2 : vehicle_history_row) : Prop :=
  vh_recorded_at r2 <= vh_recorded_at r1.

#[global] Instance later_first_dec r1 r2 : Decision (later_first r1 r2) :=
  decide (vh_recorded_at r2 <= vh_recorded_at r1).

(** [getHistory(vehicleId, startTime, endTime)], on what is committed;
    the two bounds are the instants the server reads the parameters as. *)
Definition getHistory (d : db) (vehicleId : string) (startTime endTime : Z)
  : list vehicle_history_row :=
  merge_sort later_first
    (filter (fun r => vh_vehicle_id r = vehicleId
                      /\ startTime <= vh_recorded_at r <= endTime)
            (vehicle_telemetry_history d)).

End WithDriver.

End VehicleService.

(** ** The materialized view [vehicle_24h_performance] *)

Definition day_ms : Z := 24 * 60 * 60 * 1000.

Definition Qsum (l : list Q) : Q := foldr Qplus 0%Q l.

(** SQL aggregates: over no row at all, [SUM], [AVG], [MIN] and [MAX] are
    [NULL] and [COUNT] is 0. *)
Definition SUM (l : list Q) : option Q :=
  match l with
  | [] => None
  | _ => Some (Qsum l)
  end.

Definition AVG (l : list Q) : option Q :=
  match l with
  | [] => None
  | _ => Some (Qsum l / inject_Z (Z.of_nat (length l)))%Q
  end.

Definition COUNT {A} (l : list A) : Z := Z.of_nat (length l).

Definition MIN (l : list Z) : option Z :=
  match l with
  | [] => None
  | x :: rest => Some (foldr Z.min x rest)
  end.

Definition MAX (l : list Z) : option Z :=
  match l with
  | [] => None
  | x :: rest => Some (foldr Z.max x rest)
  end.

Definition COALESCE {A} (x : option A) (d : A) : A := default d x.

(** [GROUP BY key]: one group per distinct key among the rows. *)
Definition GROUP_BY {A} (key : A -> string) (rows : list A)
  : list (string * list A) :=
  (fun k => (k, filter (fun r => key r = k) rows))
    <$> remove_dups (key <$> rows).

(** [l LEFT JOIN r ON ka(l) = kb(r)]: a row of [l] that matches nothing
    is kept once, with [NULL]s on the right. *)
Definition LEFT_JOIN {A B} (ka : A -> string) (kb : B -> string)
    (l : list A) (r : list B) : list (A * option B) :=
  l ≫= (fun a =>
          match filter (fun b => ka a = kb b) r with
          | [] => [(a, None)]
          | matches => (fun b => (a, Some b)) <$> matches
          end).

(** The common table expression [vehicle_dc_totals]. *)
Record vehicle_dc_total := {
  v_vehicle_id : string;
  v_total_dc_delivered : option Q;
  v_avg_battery_temp : option Q;
  v_reading_count : Z;
  v_first_reading : option Z;
  v_last_reading : option Z
}.

(** The common table expression [meter_ac_totals]. *)
Record meter_ac_total := {
  m_meter_id : string;
  m_total_ac_consumed : option Q;
  m_reading_count : Z
}.

Definition vehicle_aggregates (rows : list vehicle_history_row)
  : option Q * option Q * Z * option Z * option Z :=
  (SUM (vh_kwh_delivered_dc <$> rows),
   AVG (vh_battery_temp <$> rows),
   COUNT rows,
   MIN (vh_recorded_at <$> rows),
   MAX (vh_recorded_at <$> rows)).

Definition meter_aggregates (rows : list meter_history_row)
  : option Q * Z :=
  (SUM (mh_kwh_consumed_ac <$> rows), COUNT rows).

Definition vehicle_dc_totals (start_time : Z) (d : db)
  : list vehicle_dc_total :=
  (fun g : string * list vehicle_history_row =>
     let '(total, avg, n, first, last) := vehicle_aggregates g.2 in
     {| v_vehicle_id := g.1;
        v_total_dc_delivered := total;
        v_avg_battery_temp := avg;
        v_reading_count := n;
        v_first_reading := first;
        v_last_reading := last |})
    <$> GROUP_BY vh_vehicle_id
          (filter (fun r => start_time <= vh_recorded_at r)
                  (vehicle_telemetry_history d)).

Definition meter_ac_totals (start_time : Z) (d : db) : list meter_ac_total :=
  (fun g : string * list meter_history_row =>
     let '(total, n) := meter_aggregates g.2 in
     {| m_meter_id := g.1;
        m_total_ac_consumed := total;
        m_reading_count := n |})
    <$> GROUP_BY mh_meter_id
          (filter (fun r => start_time <= mh_recorded_at r)
                  (meter_telemetry_history d)).

(** The [SELECT] list of the view, on one row of the join.
<<
    CASE WHEN COALESCE(m.total_ac_consumed, 0) > 0
         THEN ROUND((v.total_dc_delivered / m.total_ac_consumed * 100)::numeric, 2)
         ELSE 0 END AS efficiency_ratio
>> *)
Definition performance_select (now : Z)
    (vm : vehicle_dc_total * option meter_ac_total) : performance_row :=
  let v := vm.1 in
  let m_total_ac_consumed := vm.2 ≫= m_total_ac_consumed in
  {| perf_vehicle_id := v_vehicle_id v;
     perf_total_dc_delivered := v_total_dc_delivered v;
     perf_total_ac_consumed := Some (COALESCE m_total_ac_consumed 0%Q);
     perf_efficiency_ratio :=
       if Qlt_bool 0 (COALESCE m_total_ac_consumed 0%Q)
       then dc ← v_total_dc_delivered v;
            ac ← m_total_ac_consumed;
            Some (ROUND (dc / ac * 100) 2)
       else Some 0%Q;
     perf_avg_battery_temp := v_avg_battery_temp v;
     perf_vehicle_readings := v_reading_count v;
     perf_meter_readings := COALESCE (m_reading_count <$> vm.2) 0;
     perf_first_reading := v_first_reading v;
     perf_last_reading := v_last_reading v;
     perf_computed_at := now |}.

(** The query that defines the view, evaluated at server time [now]. *)
Definition vehicle_24h_performance_def (now : Z) (d : db)
  : list performance_row :=
  let start_time := now - day_ms in
  performance_select now
    <$> LEFT_JOIN v_vehicle_id m_meter_id
          (vehicle_dc_totals start_time d) (meter_ac_totals start_time d).

(** [refresh_analytics()]: [REFRESH MATERIALIZED VIEW CONCURRENTLY]. *)
Definition refresh_analytics (now : Z) (d : db) : db :=
  {| meter_telemetry_history := meter_telemetry_history d;
     vehicle_telemetry_history := vehicle_telemetry_history d;
     meter_current_status := meter_current_status d;
     vehicle_current_status := vehicle_current_status d;
     vehicle_24h_performance := vehicle_24h_performance_def now d |}.

(** [cleanup_old_data(retention_days INTEGER DEFAULT 90)]: deletes the
    history rows recorded before [NOW() - retention_days days] and returns
    how many rows each [DELETE] removed.  A day is 24 hours (a server in
    a time zone without daylight saving); [None] is a call without the
    argument. *)
Definition cleanup_old_data (now : Z) (retention_days : option Z) (d : db)
  : db * (Z * Z) :=
  let cutoff := now - default 90 retention_days * day_ms in
  let meter_count :=
    COUNT (filter (fun r => mh_recorded_at r < cutoff)
                  (meter_telemetry_history d)) in
  let vehicle_count :=
    COUNT (filter (fun r => vh_recorded_at r < cutoff)
                  (vehicle_telemetry_history d)) in
  ({| meter_telemetry_history :=
        filter (fun r => ~ mh_recorded_at r < cutoff)
               (meter_telemetry_history d);
      vehicle_telemetry_history :=
        filter (fun r => ~ vh_recorded_at r < cutoff)
               (vehicle_telemetry_history d);
      meter_current_status := meter_current_status d;
      vehicle_current_status := vehicle_current_status d;
      vehicle_24h_performance := vehicle_24h_performance d |},
   (meter_count, vehicle_count)).

(** The row [get_system_stats()] returns. *)
Record system_stats_row := {
  total_meters : Z;
  total_vehicles : Z;
  meter_history_count : Z;
  vehicle_history_count : Z;
  total_records : Z
}.

(** [get_system_stats()]; the status tables are keyed by the identifier,
    so [COUNT(DISTINCT id)] is their number of rows. *)
Definition get_system_stats (d : db) : system_stats_row :=
  {| total_meters := Z.of_nat (size (meter_current_status d));
     total_vehicles := Z.of_nat (size (vehicle_current_status d));
     meter_history_count := COUNT (meter_telemetry_history d);
     vehicle_history_count := COUNT (vehicle_telemetry_history d);
     total_records :=
       COUNT (meter_telemetry_history d)
       + COUNT (vehicle_telemetry_history d) |}.

(** [a + b] on numbers. *)
Definition js_add (a b : number) : number :=
  match a, b with
  | NaN, _ | _, NaN => NaN
  | Fin x, Fin y => Fin (x + y)
  | Fin _, Inf neg | Inf neg, Fin _ => Inf neg
  | Inf n1, Inf n2 => if Bool.eqb n1 n2 then Inf n1 else NaN
  end.

(** ** [AnalyticsService] ([src/services/analyticsService.js])

    The service reads through [query]; a read that the store rejects
    rejects the call, and nothing else happens.  The functions below are
    what a call returns when its reads succeed, on a database [d]. *)

(** A field of a result row, or of the object handed to
    [formatPerformanceData]: [null], a JavaScript number, or decimal text
    (what the driver returns for a [numeric] or [bigint] column, and what
    [toFixed] prints), kept as the number it denotes. *)
Inductive datum :=
| DNull
| DNumber (n : number)
| DNumeric (q : Q).

Definition numeric_datum (x : option Q) : datum :=
  match x with
  | Some q => DNumeric q
  | None => DNull
  end.

Definition bigint_datum (n : Z) : datum := DNumeric (inject_Z n).

(** [parseFloat(x)] on such a field: [null] reads as [NaN]. *)
Definition parseFloat (x : datum) : number :=
  match x with
  | DNull => NaN
  | DNumber n => n
  | DNumeric q => Fin q
  end.

Definition Qtrunc (q : Q) : Z := Z.quot (Qnum q) (Z.pos (Qden q)).

(** [parseInt(x)]: the digits before the decimal point. *)
Definition parseInt (x : datum) : number :=
  match x with
  | DNull => NaN
  | DNumber (Fin q) | DNumeric q => Fin (inject_Z (Qtrunc q))
  | DNumber _ => NaN
  end.

(** [n.toFixed(digits)]: decimal text for a finite number, and the texts
    [NaN], [Infinity], [-Infinity], which [parseFloat] reads back,
    otherwise. *)
Definition toFixed (n : number) (digits : nat) : datum :=
  match n with
  | Fin q => DNumeric (of_units digits (toFixed_units digits q))
  | _ => DNumber n
  end.

Module AnalyticsService.

(** The argument of [formatPerformanceData]. *)
Record performance_data := {
  vehicle_id : string;
  total_dc_delivered : datum;
  total_ac_consumed : datum;
  efficiency_ratio : datum;
  avg_battery_temp : datum;
  vehicle_readings : datum;
  meter_readings : datum;
  first_reading : option Z;
  last_reading : option Z;
  computed_at : Z
}.

Record performance := {
  totalEnergyConsumedAc : number;
  totalEnergyDeliveredDc : number;
  efficiencyRatio : number;
  averageBatteryTemp : number
}.

Record metadata := {
  vehicleReadings : number;
  meterReadings : number;
  firstReading : option Z;
  lastReading : option Z;
  computedAt : Z;
  timeWindow : string
}.

Record healthCheck := {
  status : string;
  message : string
}.

Record performance_view := {
  vehicleId : string;
  view_performance : performance;
  view_metadata : metadata;
  view_healthCheck : healthCheck
}.

Definition formatPerformanceData (data : performance_data)
  : performance_view :=
  {| vehicleId := vehicle_id data;
     view_performance :=
       {| totalEnergyConsumedAc :=
            js_or (parseFloat (total_ac_consumed data)) (Fin 0);
          totalEnergyDeliveredDc :=
            js_or (parseFloat (total_dc_delivered data)) (Fin 0);
          efficiencyRatio :=
            js_or (parseFloat (efficiency_ratio data)) (Fin 0);
          averageBatteryTemp :=
            js_or (parseFloat (avg_battery_temp data)) (Fin 0) |};
     view_metadata :=
       {| vehicleReadings := js_or (parseInt (vehicle_readings data)) (Fin 0);
          meterReadings := js_or (parseInt (meter_readings data)) (Fin 0);
          firstReading := first_reading data;
          lastReading := last_reading data;
          computedAt := computed_at data;
          timeWindow := "24 hours" |};
     view_healthCheck :=
       {| status :=
            if js_ge (parseFloat (efficiency_ratio data)) (Fin 85)
            then "healthy" else "warning";
          message :=
            if js_lt (parseFloat (efficiency_ratio data)) (Fin 85)
            then "Efficiency below 85% - investigate for hardware fault or energy leakage"
            else "Normal operation" |} |}.

(** A row of the view as the driver returns it. *)
Definition row_data (r : performance_row) : performance_data :=
  {| vehicle_id := perf_vehicle_id r;
     total_dc_delivered := numeric_datum (perf_total_dc_delivered r);
     total_ac_consumed := numeric_datum (perf_total_ac_consumed r);
     efficiency_ratio := numeric_datum (perf_efficiency_ratio r);
     avg_battery_temp := numeric_datum (perf_avg_battery_temp r);
     vehicle_readings := bigint_datum (perf_vehicle_readings r);
     meter_readings := bigint_datum (perf_meter_readings r);
     first_reading := perf_first_reading r;
     last_reading := perf_last_reading r;
     computed_at := perf_computed_at r |}.

(** [(totalDc / totalAc * 100).toFixed(2)] in exact arithmetic.  The
    runtime computes the quotient and the product in binary floating
    point: what it prints can be one hundredth away from this text when
    the exact percentage lies next to a rounding boundary. *)
Definition percent_toFixed (totalDc totalAc : number) : datum :=
  toFixed (js_mul (js_div totalDc totalAc) (Fin 100)) 2.

Section WithArithmetic.

(** What the runtime prints for [(totalDc / totalAc * 100).toFixed(2)]. *)
Variable percent_text : number -> number -> datum.

(** [computePerformanceOnDemand(vehicleId)], called at time [now]
    ([Date.now()]). *)
Definition computePerformanceOnDemand_with (now : Z) (d : db)
    (vehicleId : string) : performance_view :=
  let timeWindow := now - day_ms in
  let '(v_total_dc_delivered, v_avg_battery_temp, v_reading_count,
        v_first_reading, v_last_reading) :=
    vehicle_aggregates
      (filter (fun r => vh_vehicle_id r = vehicleId
                        /\ timeWindow <= vh_recorded_at r)
              (vehicle_telemetry_history d)) in
  let '(m_total_ac_consumed, m_reading_count) :=
    meter_aggregates
      (filter (fun r => mh_meter_id r = vehicleId
                        /\ timeWindow <= mh_recorded_at r)
              (meter_telemetry_history d)) in
  let totalDc := js_or (parseFloat (numeric_datum v_total_dc_delivered)) (Fin 0) in
  let totalAc := js_or (parseFloat (numeric_datum m_total_ac_consumed)) (Fin 0) in
  let efficiencyRatio :=
    if js_gt totalAc (Fin 0)
    then percent_text totalDc totalAc
    else DNumber (Fin 0) in
  formatPerformanceData
    {| vehicle_id := vehicleId;
       total_dc_delivered := DNumber totalDc;
       total_ac_consumed := DNumber totalAc;
       efficiency_ratio := efficiencyRatio;
       avg_battery_temp :=
         DNumber (js_or (parseFloat (numeric_datum v_avg_battery_temp)) (Fin 0));
       vehicle_readings :=
         DNumber (js_or (parseInt (bigint_datum v_reading_count)) (Fin 0));
       meter_readings :=
         DNumber (js_or (parseInt (bigint_datum m_reading_count)) (Fin 0));
       first_reading := v_first_reading;
       last_reading := v_last_reading;
       computed_at := now |}.

End WithArithmetic.

(** The on-demand computation with the percentage in exact arithmetic. *)
Definition computePerformanceOnDemand (now : Z) (d : db) (vehicleId : string)
  : performance_view :=
  computePerformanceOnDemand_with percent_toFixed now d vehicleId.

(** [SELECT ... FROM vehicle_24h_performance WHERE vehicle_id = $1] *)
Definition select_performance (d : db) (vehicleId : string)
  : list performance_row :=
  filter (fun r => perf_vehicle_id r = vehicleId) (vehicle_24h_performance d).

Definition getVehiclePerformance (now : Z) (d : db) (vehicleId : string)
  : performance_view :=
  match select_performance d vehicleId with
  | row :: _ => formatPerformanceData (row_data row)
  | [] => computePerformanceOnDemand now d vehicleId
  end.

(** [refreshMaterializedView()]: [SELECT refresh_analytics()], at server
    time [now]. *)
Definition refreshMaterializedView (now : Z) (d : db) : db :=
  refresh_analytics now d.

Record alert_view := {
  alert_vehicleId : string;
  alert_efficiencyRatio : number;
  alert_totalAcConsumed : number;
  alert_totalDcDelivered : number;
  alert_avgBatteryTemp : number;
  alert : string
}.

(** [x < $1] in the server, [$1] a [numeric] read from the text of a
    JavaScript number: [NaN] sorts above every number. *)
Definition numeric_lt_param (x : Q) (p : number) : bool :=
  match p with
  | Fin t => Qlt_bool x t
  | NaN => true
  | Inf negative => negb negative
  end.

(** [WHERE efficiency_ratio > 0 AND efficiency_ratio < $1]; a [NULL]
    ratio satisfies neither. *)
Definition alert_condition (threshold : number) (r : performance_row) : bool :=
  match perf_efficiency_ratio r with
  | Some x => Qlt_bool 0 x && numeric_lt_param x threshold
  | None => false
  end.

(** [ORDER BY efficiency_ratio ASC] *)
Definition ratio_key (r : performance_row) : Q :=
  default 0%Q (perf_efficiency_ratio r).

Definition efficiency_le (r1 r2 : performance_row) : Prop :=
  Qle_bool (ratio_key r1) (ratio_key r2) = true.

#[global] Instance efficiency_le_dec r1 r2 : Decision (efficiency_le r1 r2) :=
  decide (Qle_bool (ratio_key r1) (ratio_key r2) = true).

Definition alert_of_row (row : performance_row) : alert_view :=
  {| alert_vehicleId := perf_vehicle_id row;
     alert_efficiencyRatio :=
       parseFloat (numeric_datum (perf_efficiency_ratio row));
     alert_totalAcConsumed :=
       parseFloat (numeric_datum (perf_total_ac_consumed row));
     alert_totalDcDelivered :=
       parseFloat (numeric_datum (perf_total_dc_delivered row));
     alert_avgBatteryTemp :=
       parseFloat (numeric_datum (perf_avg_battery_temp row));
     alert := "Low efficiency - possible hardware fault or energy leakage" |}.

(** [getEfficiencyAlerts(threshold = 85)]; [None] is a call without the
    argument. *)
Definition getEfficiencyAlerts (d : db) (threshold : option number)
  : list alert_view :=
  let threshold := default (Fin 85) threshold in
  alert_of_row
    <$> merge_sort efficiency_le
          (filter (fun r => alert_condition threshold r = true)
                  (vehicle_24h_performance d)).

Record system_stats := {
  totalMeters : number;
  totalVehicles : number;
  meterHistoryCount : number;
  vehicleHistoryCount : number;
  totalRecords : number;
  estimatedDailyRecords : number
}.

(** [getSystemStats()] *)
Definition getSystemStats (d : db) : system_stats :=
  let stats := get_system_stats d in
  {| totalMeters := parseInt (bigint_datum (total_meters stats));
     totalVehicles := parseInt (bigint_datum (total_vehicles stats));
     meterHistoryCount := parseInt (bigint_datum (meter_history_count stats));
     vehicleHistoryCount :=
       parseInt (bigint_datum (vehicle_history_count stats));
     totalRecords := parseInt (bigint_datum (total_records stats));
     estimatedDailyRecords :=
       js_mul (js_add (parseInt (bigint_datum (total_meters stats)))
                      (parseInt (bigint_datum (total_vehicles stats))))
              (Fin 1440) |}.

End AnalyticsService.

(** ** [IngestionController] ([src/controllers/ingestionController.js]) *)

(** What a handler answers: a status with the data of a success, or a
    status with the message of a failure. *)
Inductive reply (A : Type) :=
| Reply (status : nat) (data : A)
| Failure (status : nat) (message : string).

Arguments Reply {A} status data.
Arguments Failure {A} status message.

Inductive telemetry_type := meter | vehicle | unknown.

(** [data.k1 !== undefined && data.k2 !== undefined && ...] *)
Fixpoint all_defined (data : jsval) (keys : list string) : error + bool :=
  match keys with
  | [] => inr true
  | k :: rest =>
      match prop data k with
      | inl e => inl e
      | inr v => if is_undefined v then inr false else all_defined data rest
      end
  end.

Definition identifyTelemetryType (data : jsval) : error + telemetry_type :=
  match all_defined data ["meterId"; "kwhConsumedAc"; "voltage"] with
  | inl e => inl e
  | inr true => inr meter
  | inr false =>
      match all_defined data ["vehicleId"; "soc"; "kwhDeliveredDc"] with
      | inl e => inl e
      | inr true => inr vehicle
      | inr false => inr unknown
      end
  end.

Module IngestionController.

Record batch_summary := {
  total : nat;
  meters : nat;
  vehicles : nat;
  errors : list string
}.

(** The loop that fills [meterBatch] and [vehicleBatch]. *)
Fixpoint separate (batchData : list jsval)
  : error + (list jsval * list jsval) :=
  match batchData with
  | [] => inr ([], [])
  | data :: rest =>
      match identifyTelemetryType data with
      | inl e => inl e
      | inr type =>
          match separate rest with
          | inl e => inl e
          | inr (meterBatch, vehicleBatch) =>
              match type with
              | meter => inr (data :: meterBatch, vehicleBatch)
              | vehicle => inr (meterBatch, data :: vehicleBatch)
              | unknown => inr (meterBatch, vehicleBatch)
              end
          end
      end
  end.

Section WithDriver.

Variable E : driver.

(** [POST /v1/ingest/batch].  The two service calls of
    [Promise.allSettled] work on different tables; they are run one
    after the other here. *)
Definition ingestBatch (batchData : jsval) (s : server)
  : reply batch_summary * server :=
  match batchData with
  | JArr ((_ :: _) as items) =>
      match separate items with
      | inl e => (Failure 400 (error_message e), s)
      | inr (meterBatch, vehicleBatch) =>
          let '(meterResult, s1) :=
            match meterBatch with
            | [] => (inr 0%nat, s)
            | _ => MeterService.ingestBatch E (JArr meterBatch) s
            end in
          let '(vehicleResult, s2) :=
            match vehicleBatch with
            | [] => (inr 0%nat, s1)
            | _ => VehicleService.ingestBatch E (JArr vehicleBatch) s1
            end in
          let count (r : error + nat) :=
            match r with inr n => n | inl _ => 0%nat end in
          let reason (r : error + nat) :=
            match r with inr _ => [] | inl e => [error_message e] end in
          (Reply 201
             {| total := (count meterResult + count vehicleResult)%nat;
                meters := count meterResult;
                vehicles := count vehicleResult;
                errors := reason meterResult ++ reason vehicleResult |},
           s2)
      end
  | _ => (Failure 400 "Invalid batch data: expected non-empty array", s)
  end.

Inductive ingest_data :=
| MeterStored (result : MeterService.receipt)
| VehicleStored (result : VehicleService.receipt).

(** [POST /v1/ingest] *)
Definition ingestTelemetry (telemetryData : jsval) (s : server)
  : reply ingest_data * server :=
  if negb (truthy telemetryData)
     || negb (js_type_eqb (typeof telemetryData) t_object)
  then (Failure 400 "Invalid request body: expected JSON object", s)
  else
    match identifyTelemetryType telemetryData with
    | inl e => (Failure 400 (error_message e), s)
    | inr meter =>
        match MeterService.ingest E telemetryData s with
        | (inr result, s') => (Reply 201 (MeterStored result), s')
        | (inl e, s') => (Failure 400 (error_message e), s')
        end
    | inr vehicle =>
        match VehicleService.ingest E telemetryData s with
        | (inr result, s') => (Reply 201 (VehicleStored result), s')
        | (inl e, s') => (Failure 400 (error_message e), s')
        end
    | inr unknown =>
        (Failure 400
           "Unknown telemetry type. Expected meter or vehicle format.", s)
    end.

Inductive status_data :=
| MeterStatus (row : meter_status_row)
| VehicleStatus (row : vehicle_status_row).

Definition quoted (s : string) : string :=
  String (ascii_of_nat 34) (s +:+ String (ascii_of_nat 34) EmptyString).

(** [GET /v1/ingest/status/:type/:id], on what is committed.  The query
    of the service is taken to answer; the 500 of the [catch] block, for
    a store that fails, is not part of this definition. *)
Definition getStatus (d : db) (type id : string) : reply status_data :=
  let not_found :=
    Failure 404 ("No data found for " +:+ type +:+ " " +:+ id) in
  if String.eqb type "meter" then
    match MeterService.getCurrentStatus d id with
    | Some row => Reply 200 (MeterStatus row)
    | None => not_found
    end
  else if String.eqb type "vehicle" then
    match VehicleService.getCurrentStatus d id with
    | Some row => Reply 200 (VehicleStatus row)
    | None => not_found
    end
  else
    Failure 400 ("Invalid type: must be " +:+ quoted "meter" +:+ " or "
                 +:+ quoted "vehicle").

End WithDriver.

End IngestionController.

(** ** [AnalyticsController] ([src/controllers/analyticsController.js]) *)

Module AnalyticsController.

Record alerts_data := {
  threshold : number;
  count : nat;
  alerts : list AnalyticsService.alert_view
}.

Section WithRuntime.

(** The runtime's [parseFloat] on what [req.query] holds under a name:
    [undefined] when the parameter is absent, else the string, array or
    object the query parser has built.  It answers a number, [NaN] when
    the text of the value does not start with a decimal literal. *)
Variable parseFloat_of : jsval -> number.

(** The threshold the handler goes on with:
    [parseFloat(req.query.threshold) || 85]. *)
Definition effective_threshold (query_threshold : jsval) : number :=
  js_or (parseFloat_of query_threshold) (Fin 85).

(** [GET /v1/analytics/alerts] *)
Definition getEfficiencyAlerts (d : db) (query_threshold : jsval)
  : reply alerts_data :=
  let threshold := effective_threshold query_threshold in
  let alerts := AnalyticsService.getEfficiencyAlerts d (Some threshold) in
  Reply 200 {| threshold := threshold; count := length alerts;
               alerts := alerts |}.

End WithRuntime.

(** [GET /v1/analytics/performance/:vehicleId], the queries of the
    service taken to answer (a store that fails is answered 500). *)
Definition getVehiclePerformance (now : Z) (d : db) (vehicleId : string)
  : reply AnalyticsService.performance_view :=
  if String.eqb vehicleId "" then Failure 400 "vehicleId is required"
  else Reply 200 (AnalyticsService.getVehiclePerformance now d vehicleId).

(** [GET /v1/analytics/stats], the query taken to answer. *)
Definition getSystemStats (d : db) : reply AnalyticsService.system_stats :=
  Reply 200 (AnalyticsService.getSystemStats d).

End AnalyticsController.

(** ** A concrete setting for the examples

    A driver that reads two ISO 8601 instants and nothing else, an empty
    server whose clock is shortly after them, and a few payloads. *)

Definition T0 : Z := 1704067200000.

Definition read_instant (v : jsval) : option Z :=
  match v with
  | JStr "2024-01-01T00:00:00Z" => Some T0
  | JStr "2024-01-01T00:01:00Z" => Some (T0 + 60000)
  | _ => None
  end.

Definition example_driver : driver := {|
  text_of := fun _ => "[object]";
  numeric_of := fun _ => None;
  timestamptz_of := read_instant;
  Date_getTime := read_instant
|}.

(** A [parseFloat] that reads the two texts [0] and [90], and takes
    everything else, [undefined] included, for [NaN]. *)
Definition example_parseFloat (v : jsval) : number :=
  match v with
  | JStr "0" => Fin 0
  | JStr "90" => Fin 90
  | _ => NaN
  end.

Definition example_server : server := {|
  committed := empty_db;
  clock := T0 + 120000;
  faults := [];
  issued := []
|}.

Definition object (fields : list (string * jsval)) : jsval :=
  JObj (list_to_map fields).

Definition num (q : Q) : jsval := JNum (Fin q).

Definition vehicle_payload (id : string) (soc dc temp : Q) (t : string)
  : jsval :=
  object [("vehicleId", JStr id); ("soc", num soc);
          ("kwhDeliveredDc", num dc); ("batteryTemp", num temp);
          ("timestamp", JStr t)].

Definition meter_payload (id : string) (ac volt : Q) (t : string) : jsval :=
  object [("meterId", JStr id); ("kwhConsumedAc", num ac);
          ("voltage", num volt); ("timestamp", JStr t)].

(** ** Notions the properties are stated with *)

(** A payload object carries the field [k]: the key is there with a value
    other than [undefined]. *)
Definition present (o : gmap string jsval) (k : string) : Prop :=
  default JUndefined (o !! k) <> JUndefined.

Definition meter_fields (o : gmap string jsval) : Prop :=
  present o "meterId" /\ present o "kwhConsumedAc" /\ present o "voltage".

Definition vehicle_fields (o : gmap string jsval) : Prop :=
  present o "vehicleId" /\ present o "soc" /\ present o "kwhDeliveredDc".

(** The alert [a] comes no later than [b] in ascending order of ratio. *)
Definition ratio_ascending (a b : AnalyticsService.alert_view) : Prop :=
  exists x y,
    AnalyticsService.alert_efficiencyRatio a = Fin x
    /\ AnalyticsService.alert_efficiencyRatio b = Fin y
    /\ (x <= y)%Q.

(** The summary row [r] has a ratio strictly between 0 and [t]. *)
Definition ratio_between (t : Q) (r : performance_row) : Prop :=
  exists x, perf_efficiency_ratio r = Some x /\ (0 < x)%Q /\ (x < t)%Q.

(** A [numeric] column that can be [NULL], as the number a reader of the
    row gets from it: [NULL] reads as [NaN]. *)
Definition column_number (c : option Q) : number :=
  match c with
  | Some q => Fin q
  | None => NaN
  end.

(** [x] is strictly below the threshold [t].  The thresholds are the
    numbers and the two infinities; for [NaN], which no caller passes
    (the handler replaces it by 85), the store's order of [numeric]
    decides, and it puts [NaN] above every number. *)
Definition below (x : Q) (t : number) : Prop :=
  match t with
  | Fin q => (x < q)%Q
  | Inf negative => negative = false
  | NaN => True
  end.

(** The summary row [r] has a ratio strictly above 0 and strictly below
    the threshold [t]. *)
Definition ratio_within (t : number) (r : performance_row) : Prop :=
  exists x, perf_efficiency_ratio r = Some x /\ (0 < x)%Q /\ below x t.

(** The ratio of [r1] is at most the ratio of [r2]. *)
Definition ratio_at_most (r1 r2 : performance_row) : Prop :=
  exists x y,
    perf_efficiency_ratio r1 = Some x /\ perf_efficiency_ratio r2 = Some y
    /\ (x <= y)%Q.

(** [a] is the alert for the vehicle of the summary row [r]: its
    identifier, its four figures, and the fixed message. *)
Definition alert_for (r : performance_row) (a : AnalyticsService.alert_view)
  : Prop :=
  AnalyticsService.alert_vehicleId a = perf_vehicle_id r
  /\ AnalyticsService.alert_efficiencyRatio a
     = column_number (perf_efficiency_ratio r)
  /\ AnalyticsService.alert_totalAcConsumed a
     = column_number (perf_total_ac_consumed r)
  /\ AnalyticsService.alert_totalDcDelivered a
     = column_number (perf_total_dc_delivered r)
  /\ AnalyticsService.alert_avgBatteryTemp a
     = column_number (perf_avg_battery_temp r)
  /\ AnalyticsService.alert a
     = "Low efficiency - possible hardware fault or energy leakage".


(** Two readings of vehicle [V1] and one of the meter of the same
    identifier, ingested one by one into the empty server. *)
Definition example_db : db :=
  let s1 := snd (VehicleService.ingest example_driver
                   (vehicle_payload "V1" 40 5 25 "2024-01-01T00:00:00Z")
                   example_server) in
  let s2 := snd (VehicleService.ingest example_driver
                   (vehicle_payload "V1" 55 8 27 "2024-01-01T00:01:00Z") s1) in
  let s3 := snd (MeterService.ingest example_driver
                   (meter_payload "V1" (25 # 2) 230 "2024-01-01T00:00:00Z")
                   s2) in
  committed s3.

(** A history where vehicle [V1] has drawn 10 kWh AC for 5 kWh DC. *)
Definition leaking_history : db :=
  let s1 := snd (VehicleService.ingest example_driver
                   (vehicle_payload "V1" 40 5 25 "2024-01-01T00:00:00Z")
                   example_server) in
  let s2 := snd (MeterService.ingest example_driver
                   (meter_payload "V1" 10 230 "2024-01-01T00:00:00Z") s1) in
  committed s2.

(** The same with the view refreshed. *)
Definition leaking_db : db := refresh_analytics (T0 + 120000) leaking_history.




(** A client is inside a transaction, open or aborted. *)
Definition in_transaction (c : client) : Prop := txn c <> Idle.

(** A callback that, run inside a transaction, leaves what is committed
    alone and does not end the transaction. *)
Definition keeps_committed {A} (callback : M client A) : Prop :=
  forall c, in_transaction c ->
            committed (host (callback c).2) = committed (host c)
            /\ in_transaction (callback c).2.

(** A statement that reads or writes rows, as opposed to one that starts
    or ends a transaction. *)
Definition data_statement (q : stmt) : Prop :=
  match q with
  | BEGIN | COMMIT | ROLLBACK => False
  | _ => True
  end.

(** The status row an accepted meter reading leaves. *)
Definition meter_status_of (now : Z) (row : meter_history_row)
  : meter_status_row :=
  {| ms_kwh_consumed_ac := mh_kwh_consumed_ac row;
     ms_voltage := mh_voltage row;
     ms_last_updated := mh_recorded_at row;
     ms_ingested_at := now |}.

(** The status row an accepted vehicle reading leaves. *)
Definition vehicle_status_of (now : Z) (row : vehicle_history_row)
    (is_charging : bool) : vehicle_status_row :=
  {| vs_soc := vh_soc row;
     vs_kwh_delivered_dc := vh_kwh_delivered_dc row;
     vs_battery_temp := vh_battery_temp row;
     vs_last_updated := vh_recorded_at row;
     vs_ingested_at := now;
     vs_is_charging := is_charging |}.

(** [isCharging] as the single ingest derives it from the status row the
    vehicle had before. *)
Definition charging_against (prior : option vehicle_status_row) (soc : jsval)
  : bool :=
  match prior with
  | Some prev => VehicleService.soc_gt soc (vs_soc prev)
  | None => false
  end.


Definition succeeded {A} (r : error + A) : Prop :=
  match r with
  | inr _ => True
  | inl _ => False
  end.





(** Two single ingests of vehicle [V1], the second with the higher state
    of charge. *)
Definition charging_readings : list jsval :=
  [vehicle_payload "V1" 40 5 25 "2024-01-01T00:00:00Z";
   vehicle_payload "V1" 55 8 27 "2024-01-01T00:01:00Z"].


(** From the status table [before] to the status table [after], rows were
    only added or overwritten, and every row that differs has
    [is_charging = false]. *)
Definition written_not_charging
    (before after : gmap string vehicle_status_row) : Prop :=
  forall k row,
    before !! k = Some row ->
    exists row', after !! k = Some row'
                 /\ (row' = row \/ vs_is_charging row' = false).

(** The statements of a batch that went through, for the tuples [ps]. *)
Definition vehicle_batch_statements (ps : list vehicle_params) : list stmt :=
  [BEGIN; InsertVehicleHistory ps]
    ++ ((fun p => UpsertVehicleStatus p false) <$> ps) ++ [COMMIT].




(** What may make a batch of [items] fail: the store, or reading a field
    of an item that is [null] or [undefined]; never a validation. *)
Definition batch_failure (items : list jsval) (e : error) : Prop :=
  match e with
  | StoreError _ => True
  | TypeError _ => exists item, item ∈ items /\ is_null item = true
  | ValidationError _ => False
  end.

(** The server after one single ingest of vehicle [V1] at 40 percent. *)
Definition charged_server : server :=
  snd (VehicleService.ingest example_driver
         (vehicle_payload "V1" 40 5 25 "2024-01-01T00:00:00Z")
         example_server).

Definition is_store_error (e : error) : Prop := exists m, e = StoreError m.

(** A meter record that the single ingest rejects: a negative
    [kwhConsumedAc]. *)
Definition negative_meter_record : jsval :=
  meter_payload "M1" (-1) 230 "2024-01-01T00:00:00Z".

(** A vehicle record that the single ingest rejects and the store
    rejects too: a state of charge of 150. *)
Definition overcharged_record : jsval :=
  vehicle_payload "V1" 150 5 25 "2024-01-01T00:00:00Z".

(** From [d] to [d'] the history tables were only appended to, no status
    row was removed, and the materialized view is as it was. *)
Definition grows (d d' : db) : Prop :=
  meter_telemetry_history d `prefix_of` meter_telemetry_history d'
  /\ vehicle_telemetry_history d `prefix_of` vehicle_telemetry_history d'
  /\ (forall k, is_Some (meter_current_status d !! k) ->
                is_Some (meter_current_status d' !! k))
  /\ (forall k, is_Some (vehicle_current_status d !! k) ->
                is_Some (vehicle_current_status d' !! k))
  /\ vehicle_24h_performance d' = vehicle_24h_performance d.

(** The two vehicle tables are as they were. *)
Definition vehicle_tables_kept (d d' : db) : Prop :=
  vehicle_telemetry_history d' = vehicle_telemetry_history d
  /\ vehicle_current_status d' = vehicle_current_status d.

(** The two meter tables are as they were. *)
Definition meter_tables_kept (d d' : db) : Prop :=
  meter_telemetry_history d' = meter_telemetry_history d
  /\ meter_current_status d' = meter_current_status d.

(** The materialized view is as it was. *)
Definition view_kept (d d' : db) : Prop :=
  vehicle_24h_performance d' = vehicle_24h_performance d.

(** A callback that, when it returns inside an open transaction, has
    taken the uncommitted work to a database related to it by [R], and
    has left the transaction open. *)
Definition works_within (R : db -> db -> Prop) {A} (callback : M client A)
  : Prop :=
  forall c w a c',
    txn c = Active w -> callback c = (inr a, c') ->
    exists w', txn c' = Active w' /\ R w w'.

(** Every statement that goes through takes a database to one related to
    it by [R]. *)
Definition statement_within (E : driver) (R : db -> db -> Prop) (q : stmt)
  : Prop :=
  data_statement q
  /\ forall now w w' r, exec E now q w = inr (w', r) -> R w w'.

(** The statements of the meter service, and those of the vehicle
    service. *)
Definition meter_statement (q : stmt) : Prop :=
  match q with
  | InsertMeterHistory _ | UpsertMeterStatus _ => True
  | _ => False
  end.

Definition vehicle_statement (q : stmt) : Prop :=
  match q with
  | InsertVehicleHistory _ | SelectVehicleSoc _ | UpsertVehicleStatus _ _ =>
      True
  | _ => False
  end.

(** The status table after the upserts of [rows], one after the other. *)
Definition meter_upserts (now : Z) (rows : list meter_history_row)
    (m : gmap string meter_status_row) : gmap string meter_status_row :=
  foldl (fun m row => <[mh_meter_id row := meter_status_of now row]> m)
        m rows.

Definition vehicle_upserts (now : Z) (is_charging : bool)
    (rows : list vehicle_history_row) (m : gmap string vehicle_status_row)
  : gmap string vehicle_status_row :=
  foldl (fun m row =>
           <[vh_vehicle_id row := vehicle_status_of now row is_charging]> m)
        m rows.

(** The last of the [rows] whose key is [k]. *)
Definition latest {A} (key : A -> string) (k : string) (rows : list A)
  : option A :=
  last (filter (fun r => key r = k) rows).

(** The health check of a performance view says what its efficiency
    ratio says: [healthy] and normal operation from 85 on, a warning
    with the message about low efficiency below 85. *)
Definition health_agrees (v : AnalyticsService.performance_view) : Prop :=
  exists x,
    AnalyticsService.efficiencyRatio (AnalyticsService.view_performance v)
    = Fin x
    /\ (((85 <= x)%Q
         /\ AnalyticsService.view_healthCheck v
            = {| AnalyticsService.status := "healthy";
                 AnalyticsService.message := "Normal operation" |})
        \/ ((x < 85)%Q
            /\ AnalyticsService.view_healthCheck v
               = {| AnalyticsService.status := "warning";
                    AnalyticsService.message :=
                      "Efficiency below 85% - investigate for hardware fault or energy leakage" |})).









(** Text that a [VARCHAR(n)] column measures as [varchar_in] does: ASCII
    characters, none of them NUL, the last one not a space.  (The store
    counts characters where [varchar_in] counts bytes, it rejects NUL,
    and it cuts the spaces at the end of a value that is too long
    instead of rejecting the value.) *)
Definition plain_text (s : string) : bool :=
  forallb (fun c => (0 <? nat_of_ascii c)%nat && (nat_of_ascii c <? 128)%nat)
          (list_ascii_of_string s)
  && match last (list_ascii_of_string s) with
     | Some c => negb (Ascii.eqb c " "%char)
     | None => true
     end.

(** A field that the store takes for an identifier as the model does:
    missing, [null], or plain text. *)
Definition plain_identifier (v : jsval) : bool :=
  match v with
  | JUndefined | JNull => true
  | JStr id => plain_text id
  | _ => false
  end.

(** A field that the store takes for a number as the model does:
    missing, [null], or a finite number.  (The store reads some texts as
    the [numeric] NaN, which the columns of [db] do not hold.) *)
Definition plain_number (v : jsval) : bool :=
  match v with
  | JUndefined | JNull | JNum (Fin _) => true
  | _ => false
  end.

Definition plain_vehicle_record (item : jsval) : bool :=
  match vehicle_params_of item with
  | inr p =>
      plain_identifier (p_vehicleId p) && plain_number (p_soc p)
      && plain_number (p_kwhDeliveredDc p) && plain_number (p_batteryTemp p)
  | inl _ => true
  end.

Definition plain_meter_record (item : jsval) : bool :=
  match meter_params_of item with
  | inr p =>
      plain_identifier (p_meterId p) && plain_number (p_kwhConsumedAc p)
      && plain_number (p_voltage p)
  | inl _ => true
  end.


(** * Properties *)

(** ** The parameters of one statement *)

Lemma bound_tuples_4_one {P A} (tuple_in : P -> error + A) (p : P) :
  bound_tuples 4 tuple_in [p] = traverse tuple_in [p].
Proof. reflexivity. Qed.

Lemma bound_tuples_5_one {P A} (tuple_in : P -> error + A) (p : P) :
  bound_tuples 5 tuple_in [p] = traverse tuple_in [p].
Proof. reflexivity. Qed.

Lemma bound_tuples_fits {P A} (per : Z) (tuple_in : P -> error + A)
    (values : list P) :
  per * Z.of_nat (length values) <= max_parameters ->
  bound_tuples per tuple_in values = traverse tuple_in values.
Proof.
  intros Hfits. unfold bound_tuples.
  destruct (per * Z.of_nat (length values) <=? max_parameters) eqn:Hle;
    [done|].
  apply Z.leb_gt in Hle. lia.
Qed.

Lemma bound_tuples_inr {P A} (per : Z) (tuple_in : P -> error + A)
    (values : list P) (rows : list A) :
  bound_tuples per tuple_in values = inr rows ->
  traverse tuple_in values = inr rows
  /\ per * Z.of_nat (length values) <= max_parameters.
Proof.
  unfold bound_tuples.
  destruct (per * Z.of_nat (length values) <=? max_parameters) eqn:Hle;
    [|discriminate].
  apply Z.leb_le in Hle. done.
Qed.

(** ** Numbers *)

Lemma Qlt_bool_iff (x y : Q) : Qlt_bool x y = true <-> (x < y)%Q.
Proof.
  unfold Qlt_bool. rewrite negb_true_iff. split.
  - intros H. apply Qnot_le_lt. intros Hle.
    apply Qle_bool_iff in Hle. congruence.
  - intros H. destruct (Qle_bool y x) eqn:Hyx; [|reflexivity].
    apply Qle_bool_iff in Hyx. exfalso. exact (Qlt_not_le _ _ H Hyx).
Qed.

Lemma Qlt_bool_false (x y : Q) : Qlt_bool x y = false <-> (y <= x)%Q.
Proof.
  unfold Qlt_bool. rewrite negb_false_iff. apply Qle_bool_iff.
Qed.


Lemma js_or_never_NaN (a : number) (q : Q) : js_or a (Fin q) <> NaN.
Proof. unfold js_or. by destruct a as [|x|neg]; simpl; try destruct (Qeq_bool x 0). Qed.

Lemma js_or_falsy (a b : number) : number_truthy a = false -> js_or a b = b.
Proof. unfold js_or. by intros ->. Qed.

Lemma number_truthy_false (n : number) :
  number_truthy n = false <-> n = NaN \/ exists x, n = Fin x /\ (x == 0)%Q.
Proof.
  destruct n as [|x|neg]; simpl.
  - split; [by left | done].
  - rewrite negb_false_iff, Qeq_bool_iff. split.
    + intros Hx. right. by exists x.
    + intros [Hx | (y & Hy & Hzero)]; [discriminate | by injection Hy as ->].
  - split; [done | intros [Hx | (y & Hy & _)]; discriminate].
Qed.

(** ** C10: the alerts threshold *)

(** C10.  Whenever the [threshold] query parameter parses to 0 or does not
    parse to a number ([parseFloat] of it is 0 or [NaN]; an absent
    parameter is [undefined]), the alerts handler goes on with 85: that
    is the threshold it hands to the service and the one it reports.
    Whatever the parameter, the threshold in use is never 0 (and never
    [NaN]); and a parameter that parses to any other number is the
    threshold in use. *)
Theorem alerts_threshold_defaults_to_85 (parseFloat_of : jsval -> number)
    (d : db) (query_threshold : jsval) :
  (parseFloat_of query_threshold = NaN
   \/ exists x, parseFloat_of query_threshold = Fin x /\ (x == 0)%Q) ->
  AnalyticsController.effective_threshold parseFloat_of query_threshold
  = Fin 85
  /\ AnalyticsController.getEfficiencyAlerts parseFloat_of d query_threshold
     = Reply 200
         {| AnalyticsController.threshold := Fin 85;
            AnalyticsController.count :=
              length (AnalyticsService.getEfficiencyAlerts d (Some (Fin 85)));
            AnalyticsController.alerts :=
              AnalyticsService.getEfficiencyAlerts d (Some (Fin 85)) |}
  /\ (forall q' : jsval,
        AnalyticsController.effective_threshold parseFloat_of q' <> NaN
        /\ (forall x,
              AnalyticsController.effective_threshold parseFloat_of q' = Fin x ->
              ~ (x == 0)%Q)
        /\ (number_truthy (parseFloat_of q') = true ->
            AnalyticsController.effective_threshold parseFloat_of q'
            = parseFloat_of q')).
Proof.
  intros Hparse.
  assert (Heff : AnalyticsController.effective_threshold parseFloat_of
                   query_threshold = Fin 85).
  { unfold AnalyticsController.effective_threshold.
    apply js_or_falsy. by apply number_truthy_false. }
  split; [exact Heff|]. split.
  - unfold AnalyticsController.getEfficiencyAlerts. by rewrite Heff.
  - intros q'. unfold AnalyticsController.effective_threshold.
    split; [|split].
    + apply js_or_never_NaN.
    + intros x Hx Hzero. unfold js_or in Hx.
      destruct (number_truthy (parseFloat_of q')) eqn:Ht.
      * rewrite Hx in Ht. simpl in Ht.
        apply negb_true_iff in Ht. apply Qeq_bool_neq in Ht. contradiction.
      * injection Hx as <-. discriminate Hzero.
    + intros Ht. unfold js_or. by rewrite Ht.
Qed.

Lemma alerts_threshold_defaults_to_85_witness :
  AnalyticsController.effective_threshold example_parseFloat (JStr "0")
  = Fin 85.
Proof.
  apply (alerts_threshold_defaults_to_85 example_parseFloat empty_db
           (JStr "0")).
  right. exists 0%Q. split; reflexivity.
Defined.

(** ** C8: classification of a payload *)

Lemma is_undefined_present (o : gmap string jsval) (k : string) :
  is_undefined (default JUndefined (o !! k)) = false <-> present o k.
Proof.
  unfold present. destruct (default JUndefined (o !! k)); simpl; split;
    try done; intros H; by destruct H.
Qed.

Lemma all_defined_object (o : gmap string jsval) (keys : list string) :
  exists b, all_defined (JObj o) keys = inr b
            /\ (b = true <-> Forall (present o) keys).
Proof.
  induction keys as [|k keys IH]; simpl.
  - exists true. split; [done | split; [constructor | done]].
  - destruct (is_undefined (default JUndefined (o !! k))) eqn:Hk.
    + exists false. split; [done|]. split; [done|].
      intros Hall. apply Forall_cons in Hall as [Hp _].
      apply is_undefined_present in Hp. congruence.
    + destruct IH as (b & Hb & Hiff). exists b. split; [done|].
      rewrite Hiff, Forall_cons. apply is_undefined_present in Hk. tauto.
Qed.

Lemma all_defined_meter (o : gmap string jsval) :
  exists b, all_defined (JObj o) ["meterId"; "kwhConsumedAc"; "voltage"] = inr b
            /\ (b = true <-> meter_fields o).
Proof.
  destruct (all_defined_object o ["meterId"; "kwhConsumedAc"; "voltage"])
    as (b & Hb & Hiff).
  exists b. split; [done|]. rewrite Hiff. unfold meter_fields.
  rewrite !Forall_cons, Forall_nil. tauto.
Qed.

Lemma all_defined_vehicle (o : gmap string jsval) :
  exists b, all_defined (JObj o) ["vehicleId"; "soc"; "kwhDeliveredDc"] = inr b
            /\ (b = true <-> vehicle_fields o).
Proof.
  destruct (all_defined_object o ["vehicleId"; "soc"; "kwhDeliveredDc"])
    as (b & Hb & Hiff).
  exists b. split; [done|]. rewrite Hiff. unfold vehicle_fields.
  rewrite !Forall_cons, Forall_nil. tauto.
Qed.

(** C8.  A payload object is a meter reading exactly when it carries
    [meterId], [kwhConsumedAc] and [voltage]; otherwise a vehicle reading
    exactly when it carries [vehicleId], [soc] and [kwhDeliveredDc];
    otherwise unknown.  The meter check comes first, so a payload with
    both sets of fields is a meter reading.  Only the presence of the keys
    counts: two payloads that carry the same keys are classified alike,
    whatever the values.  The classifier is a function of the payload
    alone and never fails on an object. *)
Theorem identifyTelemetryType_by_key_presence (o : gmap string jsval) :
  (identifyTelemetryType (JObj o) = inr meter <-> meter_fields o)
  /\ (identifyTelemetryType (JObj o) = inr vehicle
      <-> ~ meter_fields o /\ vehicle_fields o)
  /\ (identifyTelemetryType (JObj o) = inr unknown
      <-> ~ meter_fields o /\ ~ vehicle_fields o)
  /\ (meter_fields o /\ vehicle_fields o ->
      identifyTelemetryType (JObj o) = inr meter)
  /\ (forall o' : gmap string jsval,
        (forall k, present o k <-> present o' k) ->
        identifyTelemetryType (JObj o') = identifyTelemetryType (JObj o)).
Proof.
  assert (Hchar : forall o0 : gmap string jsval,
             (identifyTelemetryType (JObj o0) = inr meter <-> meter_fields o0)
             /\ (identifyTelemetryType (JObj o0) = inr vehicle
                 <-> ~ meter_fields o0 /\ vehicle_fields o0)
             /\ (identifyTelemetryType (JObj o0) = inr unknown
                 <-> ~ meter_fields o0 /\ ~ vehicle_fields o0)).
  { intros o0. unfold identifyTelemetryType.
    destruct (all_defined_meter o0) as (bm & -> & Hm).
    destruct (all_defined_vehicle o0) as (bv & -> & Hv).
    assert (HM : if bm then meter_fields o0 else ~ meter_fields o0).
    { destruct bm; [by apply Hm | intros Hf; by apply Hm in Hf]. }
    assert (HV : if bv then vehicle_fields o0 else ~ vehicle_fields o0).
    { destruct bv; [by apply Hv | intros Hf; by apply Hv in Hf]. }
    clear Hm Hv.
    destruct bm, bv; (split; [|split]); (split; [intros Heq | intros Hf]);
      first [done | discriminate Heq | tauto]. }
  destruct (Hchar o) as (Hm & Hv & Hu).
  split; [exact Hm|]. split; [exact Hv|]. split; [exact Hu|]. split.
  - intros [H _]. by apply Hm.
  - intros o' Hsame.
    assert (Hmf : meter_fields o <-> meter_fields o').
    { unfold meter_fields. rewrite !Hsame. tauto. }
    assert (Hvf : vehicle_fields o <-> vehicle_fields o').
    { unfold vehicle_fields. rewrite !Hsame. tauto. }
    destruct (Hchar o') as (Hm' & Hv' & Hu').
    destruct (identifyTelemetryType (JObj o)) as [e|[]] eqn:Ho.
    + exfalso. unfold identifyTelemetryType in Ho.
      destruct (all_defined_meter o) as (bm & Hbm & _).
      destruct (all_defined_vehicle o) as (bv & Hbv & _).
      rewrite Hbm, Hbv in Ho. by destruct bm, bv.
    + apply Hm'. apply Hmf. by apply Hm.
    + apply Hv'. rewrite <- Hmf, <- Hvf. by apply Hv.
    + apply Hu'. rewrite <- Hmf, <- Hvf. by apply Hu.
Qed.

(** ** C7: a batch that is empty or not an array *)

(** C7, as the code has it.  A request body that is not an array, or is
    the empty array, is rejected by the batch handler with status 400 and
    the message "expected non-empty array"; no service is called and
    nothing is sent to the store.  The services' own [ingestBatch] do not
    fail on an empty array or a falsy argument: they return a count of 0
    without opening a transaction. *)
Theorem ingestBatch_empty_or_not_array
    (E : driver) (batchData : jsval) (s : server) :
  isArray batchData = false \/ batchData = JArr [] ->
  IngestionController.ingestBatch E batchData s
  = (Failure 400 "Invalid batch data: expected non-empty array", s)
  /\ (truthy batchData = false \/ batchData = JArr [] ->
      MeterService.ingestBatch E batchData s = (inr 0%nat, s)
      /\ VehicleService.ingestBatch E batchData s = (inr 0%nat, s)).
Proof.
  intros Hbody. split.
  - destruct Hbody as [Hnot | ->]; [|reflexivity].
    destruct batchData as [| | | | |items|]; try reflexivity.
    discriminate Hnot.
  - intros [Hfalsy | ->].
    + unfold MeterService.ingestBatch, VehicleService.ingestBatch.
      by rewrite Hfalsy.
    + split; reflexivity.
Qed.

Lemma ingestBatch_empty_or_not_array_witness :
  IngestionController.ingestBatch example_driver (JArr []) example_server
  = (Failure 400 "Invalid batch data: expected non-empty array",
     example_server)
  /\ MeterService.ingestBatch example_driver (JArr []) example_server
     = (inr 0%nat, example_server)
  /\ VehicleService.ingestBatch example_driver (JArr []) example_server
     = (inr 0%nat, example_server).
Proof.
  destruct (ingestBatch_empty_or_not_array example_driver (JArr [])
              example_server) as [Hctl Hsvc].
  - right. reflexivity.
  - split; [exact Hctl|]. apply Hsvc. right. reflexivity.
Defined.

(** C7 as the specification words it does not hold of the services: on
    the empty array, and on [null], both [ingestBatch] succeed with a
    count, and on a number they fail with a [TypeError], not with a
    validation error. *)
Lemma ingestBatch_empty_succeeds_with_count :
  fst (MeterService.ingestBatch example_driver (JArr []) example_server)
  = inr 0%nat
  /\ fst (VehicleService.ingestBatch example_driver (JArr []) example_server)
     = inr 0%nat
  /\ fst (VehicleService.ingestBatch example_driver JNull example_server)
     = inr 0%nat
  /\ fst (VehicleService.ingestBatch example_driver (num 5) example_server)
     = inl (TypeError
              "vehicleBatch.forEach is not a function or is not iterable").
Proof. vm_compute. repeat split. Qed.

(** ** C6: efficiency alerts *)

#[local] Instance efficiency_le_transitive :
  Transitive AnalyticsService.efficiency_le.
Proof.
  intros r1 r2 r3. unfold AnalyticsService.efficiency_le.
  rewrite !Qle_bool_iff. apply Qle_trans.
Qed.

#[local] Instance efficiency_le_total : Total AnalyticsService.efficiency_le.
Proof.
  intros r1 r2. unfold AnalyticsService.efficiency_le.
  rewrite !Qle_bool_iff.
  destruct (Qlt_le_dec (AnalyticsService.ratio_key r2)
                       (AnalyticsService.ratio_key r1)) as [Hlt | Hle].
  - right. by apply Qlt_le_weak.
  - by left.
Qed.

Lemma alert_condition_between (t : Q) (r : performance_row) :
  AnalyticsService.alert_condition (Fin t) r = true <-> ratio_between t r.
Proof.
  unfold AnalyticsService.alert_condition, ratio_between.
  destruct (perf_efficiency_ratio r) as [x|]; simpl.
  - rewrite andb_true_iff, !Qlt_bool_iff. split.
    + intros [H0 Ht]. by exists x.
    + intros (y & Hy & H0 & Ht). by injection Hy as ->.
  - split; [done | intros (y & Hy & _); discriminate].
Qed.

Lemma StronglySorted_fmap_on {A B} (P : A -> Prop) (f : A -> B)
    (R1 : relation A) (R2 : relation B) (l : list A) :
  (forall x y, P x -> P y -> R1 x y -> R2 (f x) (f y)) ->
  Forall P l -> StronglySorted R1 l -> StronglySorted R2 (f <$> l).
Proof.
  intros Hf HP Hsorted. induction Hsorted as [|x l Hl IH Hx]; simpl.
  - constructor.
  - apply Forall_cons in HP as [HPx HPl]. constructor; [by apply IH|].
    apply Forall_fmap. rewrite Forall_forall in Hx, HPl |- *.
    intros y Hy. apply Hf; auto.
Qed.

Lemma alert_condition_within (t : number) (r : performance_row) :
  AnalyticsService.alert_condition t r = true <-> ratio_within t r.
Proof.
  unfold AnalyticsService.alert_condition, ratio_within.
  destruct (perf_efficiency_ratio r) as [x|]; simpl.
  - assert (Hbelow : AnalyticsService.numeric_lt_param x t = true
                     <-> below x t).
    { destruct t as [|q|[|]]; simpl; try done.
      apply Qlt_bool_iff. }
    rewrite andb_true_iff, Qlt_bool_iff, Hbelow. split.
    + intros [H0 Ht]. by exists x.
    + intros (y & Hy & H0 & Ht). by injection Hy as ->.
  - split; [done | intros (y & Hy & _); discriminate].
Qed.

Lemma alert_for_alert_of_row (r : performance_row) :
  alert_for r (AnalyticsService.alert_of_row r).
Proof.
  unfold alert_for, AnalyticsService.alert_of_row. simpl.
  destruct (perf_efficiency_ratio r), (perf_total_ac_consumed r),
    (perf_total_dc_delivered r), (perf_avg_battery_temp r); done.
Qed.

(** C6.  For every threshold [t], a number or an infinity,
    [getEfficiencyAlerts(t)] returns exactly the vehicles whose row of
    [vehicle_24h_performance] has an [efficiency_ratio] strictly above 0
    and strictly below [t]: one alert per such row and no other, with the
    [vehicle_id] and the four figures of that row and the same fixed
    message, in ascending order of the ratio.  In particular no alert has
    a ratio of 0, or a ratio of [t] or more.  Without an argument the
    threshold is 85.  (For [NaN], which no caller passes, the store's
    order of [numeric] decides what is below: see [below].) *)
Theorem getEfficiencyAlerts_exact (d : db) (t : number) :
  (exists rows : list performance_row,
      Forall2 alert_for rows
              (AnalyticsService.getEfficiencyAlerts d (Some t))
      /\ rows ≡ₚ filter (fun r => AnalyticsService.alert_condition t r = true)
                        (vehicle_24h_performance d)
      /\ (forall r, r ∈ rows
                    <-> r ∈ vehicle_24h_performance d /\ ratio_within t r)
      /\ StronglySorted ratio_at_most rows)
  /\ StronglySorted ratio_ascending
       (AnalyticsService.getEfficiencyAlerts d (Some t))
  /\ (forall a, a ∈ AnalyticsService.getEfficiencyAlerts d (Some t) ->
        exists x, AnalyticsService.alert_efficiencyRatio a = Fin x
                  /\ (0 < x)%Q /\ below x t)
  /\ AnalyticsService.getEfficiencyAlerts d None
     = AnalyticsService.getEfficiencyAlerts d (Some (Fin 85)).
Proof.
  unfold AnalyticsService.getEfficiencyAlerts. simpl.
  set (selected := filter (fun r => AnalyticsService.alert_condition t r = true)
                          (vehicle_24h_performance d)).
  set (rows := merge_sort AnalyticsService.efficiency_le selected).
  assert (Hperm : rows ≡ₚ selected) by apply merge_sort_Permutation.
  assert (Hmem : forall r, r ∈ rows
                           <-> r ∈ vehicle_24h_performance d /\ ratio_within t r).
  { intros r. rewrite Hperm. unfold selected.
    rewrite list_elem_of_filter, alert_condition_within. tauto. }
  assert (Hall : Forall (ratio_within t) rows).
  { apply Forall_forall. intros r Hr. by apply Hmem in Hr as [_ Hr]. }
  assert (Hsorted : StronglySorted AnalyticsService.efficiency_le rows)
    by (apply StronglySorted_merge_sort; apply _).
  split; [|split; [|split]].
  - exists rows. split; [|split; [done|split; [done|]]].
    + apply Forall2_fmap_r, Forall_Forall2_diag, Forall_forall.
      intros r _. apply alert_for_alert_of_row.
    + rewrite <- (list_fmap_id rows).
      apply (StronglySorted_fmap_on (ratio_within t) _
               AnalyticsService.efficiency_le); [|exact Hall|exact Hsorted].
      intros r1 r2 (x & Hx & _) (y & Hy & _) Hle.
      exists x, y. split; [done|]. split; [done|].
      unfold AnalyticsService.efficiency_le, AnalyticsService.ratio_key in Hle.
      rewrite Hx, Hy in Hle. simpl in Hle. by apply Qle_bool_iff.
  - apply (StronglySorted_fmap_on (ratio_within t) _
             AnalyticsService.efficiency_le); [|exact Hall|exact Hsorted].
    intros r1 r2 (x & Hx & _) (y & Hy & _) Hle.
    exists x, y. unfold AnalyticsService.alert_of_row. simpl.
    rewrite Hx, Hy. simpl. split; [done|]. split; [done|].
    unfold AnalyticsService.efficiency_le, AnalyticsService.ratio_key in Hle.
    rewrite Hx, Hy in Hle. simpl in Hle. by apply Qle_bool_iff.
  - intros a Ha. apply list_elem_of_fmap in Ha as (r & -> & Hr).
    apply Hmem in Hr as [_ (x & Hx & H0 & Ht)].
    exists x. simpl. rewrite Hx. done.
  - reflexivity.
Qed.

(** ** Rounding: [toFixed] and [ROUND] agree *)

Lemma round_digit (N D : Z) :
  0 <= N -> 0 < D ->
  (2 * N + D) / (2 * D)
  = (10 * N / D) / 10 + (if 5 <=? (10 * N / D) mod 10 then 1 else 0).
Proof.
  intros HN HD.
  set (m := 10 * N / D).
  assert (Hm1 : D * m <= 10 * N) by (apply Z.mul_div_le; lia).
  assert (Hm2 : 10 * N < D * (m + 1)).
  { pose proof (Z.mul_succ_div_gt (10 * N) D HD) as Hgt. fold m in Hgt. lia. }
  pose proof (Z.div_mod m 10 ltac:(lia)) as Hdm.
  pose proof (Z.mod_pos_bound m 10 ltac:(lia)) as Hb.
  set (a := m / 10) in *. set (b := m mod 10) in *.
  destruct (5 <=? b) eqn:H5.
  - apply Z.leb_le in H5. symmetry.
    apply (Z.div_unique _ _ _ (2 * N + D - 2 * D * (a + 1))); nia.
  - apply Z.leb_gt in H5. symmetry.
    apply (Z.div_unique _ _ _ (2 * N + D - 2 * D * a)); nia.
Qed.

Lemma Qfloor_half_digit (y : Q) :
  (0 <= y)%Q ->
  Qfloor (y + (1 # 2))
  = Qfloor (y * 10) / 10 + (if 5 <=? Qfloor (y * 10) mod 10 then 1 else 0).
Proof.
  destruct y as [N D]. intros Hy.
  assert (HN : 0 <= N) by (unfold Qle in Hy; simpl in Hy; lia).
  unfold Qfloor, Qplus, Qmult. simpl Qnum. simpl Qden.
  rewrite Pos2Z.inj_mul, Pos.mul_1_r.
  replace (N * 2 + 1 * Z.pos D) with (2 * N + Z.pos D) by ring.
  replace (Z.pos D * 2) with (2 * Z.pos D) by ring.
  replace (N * 10) with (10 * N) by ring.
  apply round_digit; lia.
Qed.

Lemma pow10_nonneg (f : nat) : (0 <= pow10 f)%Q.
Proof.
  unfold pow10. change 0%Q with (inject_Z 0). rewrite <- Zle_Qle.
  apply Z.pow_nonneg. lia.
Qed.

Lemma pow10_succ (f : nat) : (pow10 (S f) == pow10 f * 10)%Q.
Proof.
  unfold pow10. rewrite Nat2Z.inj_succ, Z.pow_succ_r by lia.
  rewrite Z.mul_comm, inject_Z_mult. reflexivity.
Qed.

(** [toFixed] and the server's [ROUND] give the same digits. *)
Lemma toFixed_units_ROUND_units (f : nat) (x : Q) :
  toFixed_units f x = ROUND_units f x.
Proof.
  unfold toFixed_units, ROUND_units.
  assert (Hn : Qfloor (Qabs x * pow10 f + (1 # 2))
               = Qfloor (Qabs x * pow10 (S f)) / 10
                 + (if 5 <=? Qfloor (Qabs x * pow10 (S f)) mod 10
                    then 1 else 0)).
  { rewrite Qfloor_half_digit.
    - assert (Heq : (Qabs x * pow10 f * 10 == Qabs x * pow10 (S f))%Q).
      { rewrite pow10_succ. ring. }
      by rewrite (Qfloor_comp _ _ Heq).
    - apply Qmult_le_0_compat; [apply Qabs_nonneg | apply pow10_nonneg]. }
  by rewrite Hn.
Qed.

Lemma Qlt_bool_wd (x x' y y' : Q) :
  (x == x')%Q -> (y == y')%Q -> Qlt_bool x y = Qlt_bool x' y'.
Proof.
  intros Hx Hy. unfold Qlt_bool. f_equal. by apply Qleb_comp.
Qed.

Lemma toFixed_units_wd (f : nat) (x y : Q) :
  (x == y)%Q -> toFixed_units f x = toFixed_units f y.
Proof.
  intros Hxy. unfold toFixed_units.
  rewrite (Qlt_bool_wd x y 0 0 Hxy ltac:(reflexivity)).
  assert (Heq : (Qabs x * pow10 f + (1 # 2) == Qabs y * pow10 f + (1 # 2))%Q).
  { by rewrite (Qabs_wd _ _ Hxy). }
  by rewrite (Qfloor_comp _ _ Heq).
Qed.

Lemma of_units_2 (n : Z) : (of_units 2 n == inject_Z n / 100)%Q.
Proof. unfold of_units. rewrite Qmake_Qdiv. reflexivity. Qed.



(** ** The rows of the view *)

Lemma filter_all {A} (P : A -> Prop) `{forall x, Decision (P x)} (l : list A) :
  Forall P l -> filter P l = l.
Proof.
  induction 1 as [|x l Hx _ IH]; [done|].
  by rewrite filter_cons_True, IH.
Qed.

Lemma filter_none {A} (P : A -> Prop) `{forall x, Decision (P x)} (l : list A) :
  Forall (fun x => ~ P x) l -> filter P l = [].
Proof.
  induction 1 as [|x l Hx _ IH]; [done|].
  by rewrite filter_cons_False, IH.
Qed.

(** Among rows built one per distinct key, the rows with key [k]. *)
Lemma filter_key_fmap {B} (h : string -> B) (kb : B -> string)
    (ks : list string) (k : string) :
  (forall k', kb (h k') = k') -> NoDup ks ->
  filter (fun b => kb b = k) (h <$> ks) = if decide (k ∈ ks) then [h k] else [].
Proof.
  intros Hkey Hnodup. induction Hnodup as [|k0 ks Hk0 _ IH].
  - case_decide as Hin; [|done]. by apply not_elem_of_nil in Hin.
  - rewrite fmap_cons. destruct (decide (k0 = k)) as [-> | Hne].
    + rewrite filter_cons_True by apply Hkey.
      rewrite IH. case_decide; [done|].
      case_decide as Hin; [done|]. exfalso. apply Hin, list_elem_of_here.
    + rewrite filter_cons_False by (rewrite Hkey; done).
      rewrite IH. repeat case_decide; try done.
      * exfalso. by apply H0, list_elem_of_further.
      * exfalso. apply elem_of_cons in H0 as [-> | Hin]; done.
Qed.

Lemma GROUP_BY_keys {A} (key : A -> string) (rows : list A) (k : string) :
  k ∈ remove_dups (key <$> rows) <-> filter (fun r => key r = k) rows <> [].
Proof.
  rewrite elem_of_remove_dups, list_elem_of_fmap. split.
  - intros (r & -> & Hr) Hnil.
    by apply (filter_nil_not_elem_of _ _ r) in Hnil.
  - intros Hne. destruct (filter (fun r => key r = k) rows) as [|r rest] eqn:Hf;
      [done|].
    assert (Hr : r ∈ filter (fun r => key r = k) rows)
      by (rewrite Hf; apply list_elem_of_here).
    apply list_elem_of_filter in Hr as [Hk Hr]. by exists r.
Qed.

(** The rows of a left join that a filter on the left key keeps. *)
Lemma filter_LEFT_JOIN {A B C} (ka : A -> string) (kb : B -> string)
    (sel : A * option B -> C) (kc : C -> string)
    (l : list A) (r : list B) (k : string) :
  (forall a mb, kc (sel (a, mb)) = ka a) ->
  filter (fun c => kc c = k) (sel <$> LEFT_JOIN ka kb l r)
  = sel <$> LEFT_JOIN ka kb (filter (fun a => ka a = k) l) r.
Proof.
  intros Hkc. unfold LEFT_JOIN. induction l as [|a l IH]; [done|].
  rewrite bind_cons, fmap_app, filter_app, IH.
  set (rows := match filter (fun b => ka a = kb b) r with
               | [] => [(a, None)]
               | b :: matches => (fun b0 => (a, Some b0)) <$> b :: matches
               end).
  assert (Hrows : Forall (fun c => kc c = ka a) (sel <$> rows)).
  { apply Forall_fmap, Forall_forall. intros [a' mb] Hin. simpl.
    rewrite Hkc. unfold rows in Hin.
    destruct (filter (fun b => ka a = kb b) r) as [|b matches].
    - apply list_elem_of_singleton in Hin. by injection Hin as -> _.
    - apply list_elem_of_fmap in Hin as (b' & Heq & _). by injection Heq as -> _. }
  destruct (decide (ka a = k)) as [Hk | Hk].
  - rewrite (filter_cons_True (fun a0 => ka a0 = k)) by done.
    rewrite bind_cons, fmap_app. f_equal.
    apply filter_all. eapply Forall_impl; [exact Hrows|].
    simpl. intros c Hc. congruence.
  - rewrite (filter_cons_False (fun a0 => ka a0 = k)) by done.
    rewrite filter_none; [done|].
    eapply Forall_impl; [exact Hrows|]. simpl. intros c Hc. congruence.
Qed.

(** The group of in-window rows of one vehicle, and of one meter. *)
Lemma vehicle_group (start_time : Z) (d : db) (k : string) :
  filter (fun r => vh_vehicle_id r = k)
         (filter (fun r => start_time <= vh_recorded_at r)
                 (vehicle_telemetry_history d))
  = filter (fun r => vh_vehicle_id r = k /\ start_time <= vh_recorded_at r)
           (vehicle_telemetry_history d).
Proof. apply list_filter_filter. Qed.

Lemma meter_group (start_time : Z) (d : db) (k : string) :
  filter (fun r => mh_meter_id r = k)
         (filter (fun r => start_time <= mh_recorded_at r)
                 (meter_telemetry_history d))
  = filter (fun r => mh_meter_id r = k /\ start_time <= mh_recorded_at r)
           (meter_telemetry_history d).
Proof. apply list_filter_filter. Qed.

(** [vehicle_dc_totals] and [meter_ac_totals], one row per key. *)
Lemma vehicle_dc_totals_rows (start_time : Z) (d : db) (k : string) :
  let group := filter (fun r => vh_vehicle_id r = k
                                /\ start_time <= vh_recorded_at r)
                      (vehicle_telemetry_history d) in
  filter (fun v => v_vehicle_id v = k) (vehicle_dc_totals start_time d)
  = match group with
    | [] => []
    | _ =>
        [{| v_vehicle_id := k;
            v_total_dc_delivered := SUM (vh_kwh_delivered_dc <$> group);
            v_avg_battery_temp := AVG (vh_battery_temp <$> group);
            v_reading_count := COUNT group;
            v_first_reading := MIN (vh_recorded_at <$> group);
            v_last_reading := MAX (vh_recorded_at <$> group) |}]
    end.
Proof.
  intros group. unfold vehicle_dc_totals, GROUP_BY.
  rewrite <- list_fmap_compose.
  rewrite filter_key_fmap; [| done | apply NoDup_remove_dups].
  pose proof (GROUP_BY_keys vh_vehicle_id
                (filter (fun r => start_time <= vh_recorded_at r)
                        (vehicle_telemetry_history d)) k) as Hkeys.
  rewrite vehicle_group in Hkeys. fold group in Hkeys.
  case_decide as Hin.
  - apply Hkeys in Hin. simpl. rewrite vehicle_group. fold group.
    by destruct group.
  - destruct group; [done|]. exfalso. by apply Hin, Hkeys.
Qed.

Lemma meter_ac_totals_rows (start_time : Z) (d : db) (k : string) :
  let group := filter (fun r => mh_meter_id r = k
                                /\ start_time <= mh_recorded_at r)
                      (meter_telemetry_history d) in
  filter (fun m => k = m_meter_id m) (meter_ac_totals start_time d)
  = match group with
    | [] => []
    | _ =>
        [{| m_meter_id := k;
            m_total_ac_consumed := SUM (mh_kwh_consumed_ac <$> group);
            m_reading_count := COUNT group |}]
    end.
Proof.
  intros group.
  rewrite (list_filter_iff _ (fun m => m_meter_id m = k)) by (intros m; split; done).
  unfold meter_ac_totals, GROUP_BY.
  rewrite <- list_fmap_compose.
  rewrite filter_key_fmap; [| done | apply NoDup_remove_dups].
  pose proof (GROUP_BY_keys mh_meter_id
                (filter (fun r => start_time <= mh_recorded_at r)
                        (meter_telemetry_history d)) k) as Hkeys.
  rewrite meter_group in Hkeys. fold group in Hkeys.
  case_decide as Hin.
  - apply Hkeys in Hin. simpl. rewrite meter_group. fold group.
    by destruct group.
  - destruct group; [done|]. exfalso. by apply Hin, Hkeys.
Qed.

(** What the freshly refreshed view holds for one vehicle: nothing when
    the vehicle has no reading in the window, one row otherwise. *)
Lemma select_performance_refreshed (now : Z) (d : db) (k : string) :
  let vgroup := filter (fun r => vh_vehicle_id r = k
                                 /\ now - day_ms <= vh_recorded_at r)
                       (vehicle_telemetry_history d) in
  let mgroup := filter (fun r => mh_meter_id r = k
                                 /\ now - day_ms <= mh_recorded_at r)
                       (meter_telemetry_history d) in
  AnalyticsService.select_performance (refresh_analytics now d) k
  = match vgroup with
    | [] => []
    | _ =>
        [performance_select now
           ({| v_vehicle_id := k;
               v_total_dc_delivered := SUM (vh_kwh_delivered_dc <$> vgroup);
               v_avg_battery_temp := AVG (vh_battery_temp <$> vgroup);
               v_reading_count := COUNT vgroup;
               v_first_reading := MIN (vh_recorded_at <$> vgroup);
               v_last_reading := MAX (vh_recorded_at <$> vgroup) |},
            match mgroup with
            | [] => None
            | _ =>
                Some {| m_meter_id := k;
                        m_total_ac_consumed :=
                          SUM (mh_kwh_consumed_ac <$> mgroup);
                        m_reading_count := COUNT mgroup |}
            end)]
    end.
Proof.
  intros vgroup mgroup.
  unfold AnalyticsService.select_performance, refresh_analytics. simpl.
  unfold vehicle_24h_performance_def.
  rewrite (filter_LEFT_JOIN v_vehicle_id m_meter_id (performance_select now)
             perf_vehicle_id) by done.
  rewrite vehicle_dc_totals_rows. fold vgroup.
  destruct vgroup as [|r0 vrest] eqn:Hv; [done|].
  unfold LEFT_JOIN. rewrite bind_cons. simpl v_vehicle_id.
  rewrite meter_ac_totals_rows. fold mgroup.
  by destruct mgroup.
Qed.

(** ** C1 and C2: the two ways to a performance view *)

Lemma js_or_Fin_0 (a : Q) :
  exists a', js_or (Fin a) (Fin 0) = Fin a' /\ (a' == a)%Q
             /\ Qlt_bool 0 a' = Qlt_bool 0 a.
Proof.
  unfold js_or. simpl. destruct (Qeq_bool a 0) eqn:Ha; simpl.
  - apply Qeq_bool_eq in Ha. exists 0%Q. split; [done|]. split.
    + by symmetry.
    + apply Qlt_bool_wd; [reflexivity | by symmetry].
  - by exists a.
Qed.


Lemma Qtrunc_inject_Z (n : Z) : Qtrunc (inject_Z n) = n.
Proof. unfold Qtrunc. simpl. apply Z.quot_1_r. Qed.













(** ** Transactions *)

Lemma keeps_committed_ret {A} (a : A) : keeps_committed (ret a).
Proof. by intros c Hc. Qed.

Lemma keeps_committed_throw {A} (e : error) : keeps_committed (throw (A := A) e).
Proof. by intros c Hc. Qed.

Lemma keeps_committed_lift {A} (r : error + A) : keeps_committed (lift r).
Proof. by intros c Hc. Qed.

Lemma keeps_committed_bind {A B} (m : M client A) (k : A -> M client B) :
  keeps_committed m -> (forall a, keeps_committed (k a)) ->
  keeps_committed (bind m k).
Proof.
  intros Hm Hk c Hc. unfold bind. specialize (Hm c Hc).
  destruct (m c) as [[e|a] c1]; simpl in *; [done|].
  destruct Hm as [Hm1 Hm2]. specialize (Hk a c1 Hm2).
  destruct (k a c1) as [r c2]. simpl in *. destruct Hk as [Hk1 Hk2].
  split; [congruence | done].
Qed.

Lemma keeps_committed_for_of {A} (l : list A) (body : A -> M client unit) :
  (forall x, keeps_committed (body x)) -> keeps_committed (for_of l body).
Proof.
  intros Hbody. induction l as [|x l IH]; simpl.
  - apply keeps_committed_ret.
  - apply keeps_committed_bind; [apply Hbody | intros _; exact IH].
Qed.

Lemma keeps_committed_client_query (E : driver) (q : stmt) :
  data_statement q -> keeps_committed (client_query E q).
Proof.
  intros Hq c Hc. unfold in_transaction in *. unfold client_query.
  destruct (next_fault (host c)); simpl.
  - split; [done|]. by destruct (txn c).
  - destruct q; try done; destruct (txn c) as [|w|]; try done; cbv zeta;
      match goal with
      | |- context [exec ?E0 ?n ?q0 ?w0] =>
          destruct (exec E0 n q0 w0) as [e|[w' r]]
      end; done.
Qed.

Lemma client_query_ROLLBACK_committed (E : driver) (c : client) :
  committed (host (client_query E ROLLBACK c).2) = committed (host c).
Proof. unfold client_query. by destruct (next_fault (host c)). Qed.

(** A transaction that fails leaves what is committed as it was. *)
Lemma transaction_failure (E : driver) {A} (callback : M client A)
    (s s' : server) (e : error) :
  keeps_committed callback ->
  transaction E callback s = (inl e, s') ->
  committed s' = committed s.
Proof.
  intros Hcb. unfold transaction, pool_connect.
  destruct (next_fault s) eqn:Hconnect.
  { intros [= _ <-]. done. }
  set (c0 := {| host := exchanged s []; txn := Idle |}).
  unfold bind at 1.
  destruct (client_query E BEGIN c0) as [[e0|r0] c1] eqn:Hbegin.
  - pose proof (client_query_ROLLBACK_committed E c1) as Hrb.
    assert (Hc1 : committed (host c1) = committed s).
    { unfold client_query in Hbegin. destruct (next_fault (host c0));
        simpl in Hbegin; injection Hbegin as _ <-; done. }
    destruct (client_query E ROLLBACK c1) as [[e1|r1] c2]; simpl in Hrb;
      intros [= _ <-]; unfold release; congruence.
  - assert (Hc1 : committed (host c1) = committed s /\ in_transaction c1).
    { unfold client_query in Hbegin. destruct (next_fault (host c0));
        simpl in Hbegin; [discriminate|]. injection Hbegin as _ <-. done. }
    destruct Hc1 as [Hc1 Hin1]. specialize (Hcb c1 Hin1).
    unfold bind at 1.
    destruct (callback c1) as [[e1|r1] c2]; simpl in Hcb;
      destruct Hcb as [Hc2 Hin2].
    + pose proof (client_query_ROLLBACK_committed E c2) as Hrb.
      destruct (client_query E ROLLBACK c2) as [[e2|r2] c3]; simpl in Hrb;
        intros [= _ <-]; unfold release; congruence.
    + unfold bind at 1.
      destruct (client_query E COMMIT c2) as [[e2|r2] c3] eqn:Hcommit.
      * assert (Hc3 : committed (host c3) = committed (host c2)).
        { unfold client_query in Hcommit. destruct (next_fault (host c2));
            simpl in Hcommit.
          - by injection Hcommit as _ <-.
          - by destruct (txn c2). }
        pose proof (client_query_ROLLBACK_committed E c3) as Hrb.
        destruct (client_query E ROLLBACK c3) as [[e3|r3] c4]; simpl in Hrb;
          intros [= _ <-]; unfold release; congruence.
      * discriminate.
Qed.

Lemma clock_exchanged (s : server) (sent : list stmt) :
  clock (exchanged s sent) = clock s.
Proof. done. Qed.

(** A transaction that succeeds: no exchange failed, the callback
    returned, and what it wrote is what is now committed. *)
Lemma transaction_success (E : driver) {A} (callback : M client A)
    (s s' : server) (r : A) :
  transaction E callback s = (inr r, s') ->
  exists c2,
    callback {| host := exchanged (exchanged s []) [BEGIN];
                txn := Active (committed s) |} = (inr r, c2)
    /\ committed s' = match txn c2 with
                      | Active w => w
                      | _ => committed (host c2)
                      end.
Proof.
  unfold transaction, pool_connect.
  destruct (next_fault s) eqn:Hconnect; [discriminate|].
  unfold bind at 1. unfold client_query at 1. cbn [host txn].
  destruct (next_fault (exchanged s [])) eqn:Hbegin.
  { unfold client_query. cbn [host txn].
    by destruct (next_fault (exchanged (exchanged s []) [BEGIN])). }
  set (c1 := {| host := exchanged (exchanged s []) [BEGIN];
                txn := Active (committed (exchanged (exchanged s []) [BEGIN])) |}).
  unfold bind at 1.
  destruct (callback c1) as [[e|a] c2] eqn:Hcb.
  { unfold client_query. by destruct (next_fault (host c2)). }
  unfold bind at 1. unfold client_query at 1.
  destruct (next_fault (host c2)) eqn:Hcommit.
  { unfold client_query. cbn [host txn].
    by destruct (next_fault (exchanged (host c2) [COMMIT])). }
  intros Hresult. exists c2.
  destruct (txn c2) as [|w|] eqn:Htxn; simpl in Hresult;
    injection Hresult as <- <-; done.
Qed.

Lemma client_query_active (E : driver) (q : stmt) (c c' : client) (w : db)
    (r : result) :
  data_statement q -> txn c = Active w ->
  client_query E q c = (inr r, c') ->
  exists w', exec E (clock (host c)) q w = inr (w', r)
             /\ c' = {| host := exchanged (host c) [q]; txn := Active w' |}.
Proof.
  intros Hq Htxn. unfold client_query. rewrite Htxn.
  destruct (next_fault (host c)); [discriminate|].
  destruct q; try done; cbv zeta; rewrite clock_exchanged;
    match goal with
    | |- context [exec ?E0 ?n ?q0 ?w0] =>
        destruct (exec E0 n q0 w0) as [e|[w' r']]
    end; intros [= <- <-]; by exists w'.
Qed.

(** ** C3: the dual write of a single ingest *)

Lemma validateMeterData_pure (E : driver) {S} (data : jsval) :
  exists res : error + unit,
    forall s : S, MeterService.validateMeterData E data s = (res, s).
Proof.
  unfold MeterService.validateMeterData, bind, lift, throw, ret.
  destruct (meter_params_of data) as [e|p]; [by eexists|].
  repeat match goal with
         | |- context [if ?b then _ else _] => destruct b; [by eexists|]
         end.
  destruct (Date_getTime E (p_meter_timestamp p)); by eexists.
Qed.

Lemma validateVehicleData_pure (E : driver) {S} (data : jsval) :
  exists res : error + unit,
    forall s : S, VehicleService.validateVehicleData E data s = (res, s).
Proof.
  unfold VehicleService.validateVehicleData, bind, lift, throw, ret.
  destruct (vehicle_params_of data) as [e|p]; [by eexists|].
  repeat match goal with
         | |- context [if ?b then _ else _] => destruct b; [by eexists|]
         end.
  destruct (Date_getTime E (p_vehicle_timestamp p)); by eexists.
Qed.

Lemma meter_status_in_history (E : driver) (now : Z) (p : meter_params)
    (row : meter_history_row) :
  meter_history_in E now p = inr row ->
  meter_status_in E now p = inr (mh_meter_id row, meter_status_of now row).
Proof. unfold meter_status_in. by intros ->. Qed.

Lemma vehicle_status_in_history (E : driver) (now : Z) (p : vehicle_params)
    (row : vehicle_history_row) (is_charging : bool) :
  vehicle_history_in E now p = inr row ->
  vehicle_status_in E now p is_charging
  = inr (vh_vehicle_id row, vehicle_status_of now row is_charging).
Proof. unfold vehicle_status_in. by intros ->. Qed.

(** What a successful [MeterService.ingest] leaves. *)
Lemma meter_ingest_success (E : driver) (data : jsval) (s s' : server)
    (r : MeterService.receipt) :
  MeterService.ingest E data s = (inr r, s') ->
  exists p row,
    meter_params_of data = inr p
    /\ meter_history_in E (clock s) p = inr row
    /\ r = {| MeterService.meterId := p_meterId p;
              MeterService.type := "meter";
              MeterService.stored := true;
              MeterService.timestamp := p_meter_timestamp p |}
    /\ committed s'
       = {| meter_telemetry_history :=
              meter_telemetry_history (committed s) ++ [row];
            vehicle_telemetry_history :=
              vehicle_telemetry_history (committed s);
            meter_current_status :=
              <[mh_meter_id row := meter_status_of (clock s) row]>
                (meter_current_status (committed s));
            vehicle_current_status := vehicle_current_status (committed s);
            vehicle_24h_performance := vehicle_24h_performance (committed s) |}.
Proof.
  unfold MeterService.ingest. unfold bind at 1, lift.
  destruct (meter_params_of data) as [e|p]; [discriminate|].
  unfold bind at 1.
  destruct (validateMeterData_pure E (S := server) data) as (res & ->).
  destruct res as [e|[]]; [discriminate|].
  intros Htx. apply transaction_success in Htx as (c2 & Hcb & ->).
  unfold bind at 1 in Hcb.
  destruct (client_query E (InsertMeterHistory [p]) _) as [[e|r1] c1] eqn:Hq1;
    [discriminate|].
  apply (client_query_active E _ _ _ (committed s)) in Hq1
    as (w1 & Hexec1 & ->); [|done|done].
  unfold bind at 1 in Hcb.
  destruct (client_query E (UpsertMeterStatus p) _) as [[e|r2] c2'] eqn:Hq2;
    [discriminate|].
  apply (client_query_active E _ _ _ w1) in Hq2
    as (w2 & Hexec2 & ->); [|done|done].
  injection Hcb as <- <-. cbn [txn host] in *.
  unfold exchanged in Hexec1, Hexec2. cbn [clock] in Hexec1, Hexec2.
  unfold exec in Hexec1.
  rewrite ?bound_tuples_4_one, ?bound_tuples_5_one in Hexec1.
  unfold traverse in Hexec1.
  destruct (meter_history_in E (clock s) p) as [e|row] eqn:Hrow;
    [discriminate|].
  injection Hexec1 as <- <-.
  unfold exec in Hexec2.
  rewrite (meter_status_in_history E _ _ row Hrow) in Hexec2.
  injection Hexec2 as <- <-.
  exists p, row. done.
Qed.

Lemma keeps_committed_meter_ingest (E : driver) (p : meter_params)
    (r : MeterService.receipt) :
  keeps_committed
    (let! _ := client_query E (InsertMeterHistory [p]) in
     let! _ := client_query E (UpsertMeterStatus p) in
     ret r).
Proof.
  repeat (apply keeps_committed_bind;
          [by apply keeps_committed_client_query | intros _]).
  apply keeps_committed_ret.
Qed.

(** A failed [MeterService.ingest] leaves what is committed as it was. *)
Lemma meter_ingest_failure (E : driver) (data : jsval) (s s' : server)
    (e : error) :
  MeterService.ingest E data s = (inl e, s') ->
  committed s' = committed s.
Proof.
  unfold MeterService.ingest. unfold bind at 1, lift.
  destruct (meter_params_of data) as [e0|p]; [by intros [= _ <-]|].
  unfold bind at 1.
  destruct (validateMeterData_pure E (S := server) data) as (res & ->).
  destruct res as [e0|[]]; [by intros [= _ <-]|].
  apply transaction_failure, keeps_committed_meter_ingest.
Qed.

Lemma vehicle_history_in_key (E : driver) (now : Z) (p : vehicle_params)
    (row : vehicle_history_row) :
  vehicle_history_in E now p = inr row ->
  is_null (p_vehicleId p) = false
  /\ param_text E (p_vehicleId p) = vh_vehicle_id row.
Proof.
  unfold vehicle_history_in, varchar_in.
  destruct (is_null (p_vehicleId p)); [discriminate|].
  destruct (String.length (param_text E (p_vehicleId p)) <=? 100)%nat;
    [|discriminate].
  repeat match goal with
         | |- context [match ?x with inl _ => _ | inr _ => _ end] =>
             destruct x; [discriminate|]
         end.
  by intros [= <-].
Qed.

(** What a successful [VehicleService.ingest] leaves. *)
Lemma vehicle_ingest_success (E : driver) (data : jsval) (s s' : server)
    (r : VehicleService.receipt) :
  VehicleService.ingest E data s = (inr r, s') ->
  exists p row,
    vehicle_params_of data = inr p
    /\ vehicle_history_in E (clock s) p = inr row
    /\ let is_charging :=
         charging_against
           (vehicle_current_status (committed s) !! vh_vehicle_id row)
           (p_soc p) in
       r = {| VehicleService.vehicleId := p_vehicleId p;
              VehicleService.type := "vehicle";
              VehicleService.stored := true;
              VehicleService.timestamp := p_vehicle_timestamp p;
              VehicleService.isCharging := is_charging |}
       /\ committed s'
          = {| meter_telemetry_history :=
                 meter_telemetry_history (committed s);
               vehicle_telemetry_history :=
                 vehicle_telemetry_history (committed s) ++ [row];
               meter_current_status := meter_current_status (committed s);
               vehicle_current_status :=
                 <[vh_vehicle_id row :=
                     vehicle_status_of (clock s) row is_charging]>
                   (vehicle_current_status (committed s));
               vehicle_24h_performance :=
                 vehicle_24h_performance (committed s) |}.
Proof.
  unfold VehicleService.ingest. unfold bind at 1, lift.
  destruct (vehicle_params_of data) as [e|p]; [discriminate|].
  unfold bind at 1.
  destruct (validateVehicleData_pure E (S := server) data) as (res & ->).
  destruct res as [e|[]]; [discriminate|].
  intros Htx. apply transaction_success in Htx as (c2 & Hcb & ->).
  unfold bind at 1 in Hcb.
  destruct (client_query E (InsertVehicleHistory [p]) _) as [[e|r1] c1] eqn:Hq1;
    [discriminate|].
  apply (client_query_active E _ _ _ (committed s)) in Hq1
    as (w1 & Hexec1 & ->); [|done|done].
  unfold bind at 1 in Hcb.
  destruct (client_query E (SelectVehicleSoc (p_vehicleId p)) _)
    as [[e|prevStatus] c1'] eqn:Hq2; [discriminate|].
  apply (client_query_active E _ _ _ w1) in Hq2
    as (w1' & Hexec2 & ->); [|done|done].
  unfold bind at 1 in Hcb.
  destruct (client_query E (UpsertVehicleStatus p _) _)
    as [[e|r3] c3] eqn:Hq3; [discriminate|].
  apply (client_query_active E _ _ _ w1') in Hq3
    as (w3 & Hexec3 & ->); [|done|done].
  injection Hcb as <- <-. cbn [txn host] in *.
  unfold exchanged in Hexec1, Hexec2, Hexec3.
  cbn [clock] in Hexec1, Hexec2, Hexec3.
  unfold exec in Hexec1.
  rewrite ?bound_tuples_4_one, ?bound_tuples_5_one in Hexec1.
  unfold traverse in Hexec1.
  destruct (vehicle_history_in E (clock s) p) as [e|row] eqn:Hrow;
    [discriminate|].
  injection Hexec1 as <- <-.
  destruct (vehicle_history_in_key E _ _ _ Hrow) as [Hnull Hkey].
  unfold exec in Hexec2. rewrite Hnull, Hkey in Hexec2.
  cbn [vehicle_current_status] in Hexec2.
  injection Hexec2 as <- <-.
  unfold exec in Hexec3.
  rewrite (vehicle_status_in_history E _ _ row _ Hrow) in Hexec3.
  injection Hexec3 as <- <-.
  exists p, row. split; [done|]. split; [done|]. cbn zeta.
  unfold charging_against.
  by destruct (vehicle_current_status (committed s) !! vh_vehicle_id row).
Qed.

Lemma vehicle_ingest_failure (E : driver) (data : jsval) (s s' : server)
    (e : error) :
  VehicleService.ingest E data s = (inl e, s') ->
  committed s' = committed s.
Proof.
  unfold VehicleService.ingest. unfold bind at 1, lift.
  destruct (vehicle_params_of data) as [e0|p]; [by intros [= _ <-]|].
  unfold bind at 1.
  destruct (validateVehicleData_pure E (S := server) data) as (res & ->).
  destruct res as [e0|[]]; [by intros [= _ <-]|].
  apply transaction_failure.
  apply keeps_committed_bind;
    [by apply keeps_committed_client_query | intros _].
  apply keeps_committed_bind;
    [by apply keeps_committed_client_query | intros prevStatus].
  apply keeps_committed_bind;
    [by apply keeps_committed_client_query | intros _].
  apply keeps_committed_ret.
Qed.

(** C3.  A single ingest, of a meter or of a vehicle reading, is atomic.
    Whatever makes it fail (validation, the connection, the history
    insert, the status upsert, the commit), what is committed afterwards
    is what was committed before: neither the history nor the status table
    has changed.  When it succeeds, the history table has gained exactly
    the row of the reading, and the status row of the device is exactly
    the reading (with [is_charging] as the receipt reports it); nothing
    else has changed. *)
Theorem single_ingest_is_atomic (E : driver) (data : jsval) (s : server) :
  match MeterService.ingest E data s with
  | (inl _, s') => committed s' = committed s
  | (inr r, s') =>
      exists p row,
        meter_params_of data = inr p
        /\ meter_history_in E (clock s) p = inr row
        /\ committed s'
           = {| meter_telemetry_history :=
                  meter_telemetry_history (committed s) ++ [row];
                vehicle_telemetry_history :=
                  vehicle_telemetry_history (committed s);
                meter_current_status :=
                  <[mh_meter_id row := meter_status_of (clock s) row]>
                    (meter_current_status (committed s));
                vehicle_current_status := vehicle_current_status (committed s);
                vehicle_24h_performance :=
                  vehicle_24h_performance (committed s) |}
        /\ MeterService.getCurrentStatus (committed s') (mh_meter_id row)
           = Some (meter_status_of (clock s) row)
  end
  /\ match VehicleService.ingest E data s with
     | (inl _, s') => committed s' = committed s
     | (inr r, s') =>
         exists p row,
           vehicle_params_of data = inr p
           /\ vehicle_history_in E (clock s) p = inr row
           /\ committed s'
              = {| meter_telemetry_history :=
                     meter_telemetry_history (committed s);
                   vehicle_telemetry_history :=
                     vehicle_telemetry_history (committed s) ++ [row];
                   meter_current_status := meter_current_status (committed s);
                   vehicle_current_status :=
                     <[vh_vehicle_id row :=
                         vehicle_status_of (clock s) row
                           (VehicleService.isCharging r)]>
                       (vehicle_current_status (committed s));
                   vehicle_24h_performance :=
                     vehicle_24h_performance (committed s) |}
           /\ VehicleService.getCurrentStatus (committed s') (vh_vehicle_id row)
              = Some (vehicle_status_of (clock s) row
                        (VehicleService.isCharging r))
     end.
Proof.
  split.
  - destruct (MeterService.ingest E data s) as [[e|r] s'] eqn:Hingest.
    + by apply meter_ingest_failure in Hingest.
    + apply meter_ingest_success in Hingest as (p & row & Hp & Hrow & _ & Hdb).
      exists p, row. split; [done|]. split; [done|]. split; [done|].
      unfold MeterService.getCurrentStatus. rewrite Hdb. simpl.
      apply lookup_insert_eq.
  - destruct (VehicleService.ingest E data s) as [[e|r] s'] eqn:Hingest.
    + by apply vehicle_ingest_failure in Hingest.
    + apply vehicle_ingest_success in Hingest
        as (p & row & Hp & Hrow & Hr & Hdb).
      exists p, row. split; [done|]. split; [done|].
      rewrite Hr at 1 2. cbn [VehicleService.isCharging].
      split; [done|].
      unfold VehicleService.getCurrentStatus. rewrite Hdb. simpl.
      apply lookup_insert_eq.
Qed.

(** The status upsert of a meter ingest fails (the fourth exchange with
    the server, after the connection, [BEGIN] and the history insert):
    the insert that had gone through is rolled back with it. *)
Example upsert_failure_rolls_back_insert :
  let s := {| committed := example_db; clock := T0 + 180000;
              faults := [false; false; false; true]; issued := [] |} in
  let '(r, s') := MeterService.ingest example_driver
                    (meter_payload "V1" 13 231 "2024-01-01T00:01:00Z") s in
  r = inl (StoreError "connection failure")
  /\ committed s' = example_db
  /\ issued s'
     = [BEGIN;
        InsertMeterHistory
          [{| p_meterId := JStr "V1"; p_kwhConsumedAc := num 13;
              p_voltage := num 231;
              p_meter_timestamp := JStr "2024-01-01T00:01:00Z" |}];
        UpsertMeterStatus
          {| p_meterId := JStr "V1"; p_kwhConsumedAc := num 13;
             p_voltage := num 231;
             p_meter_timestamp := JStr "2024-01-01T00:01:00Z" |};
        ROLLBACK].
Proof. vm_compute. repeat split. Qed.

(** ** C4: the charging flag of a single ingest *)


(** What the validation of an accepted vehicle reading has checked of
    the identifier and of the state of charge. *)
Lemma validateVehicleData_ok (E : driver) {S} (data : jsval) (s s' : S) :
  VehicleService.validateVehicleData E data s = (inr tt, s') ->
  exists p id soc,
    vehicle_params_of data = inr p
    /\ p_vehicleId p = JStr id /\ id <> ""
    /\ p_soc p = JNum soc
    /\ js_lt soc (Fin 0) = false /\ js_gt soc (Fin 100) = false.
Proof.
  unfold VehicleService.validateVehicleData, bind, lift, throw.
  destruct (vehicle_params_of data) as [e|p]; [discriminate|].
  destruct (negb (truthy (p_vehicleId p)) || not_string (p_vehicleId p))
    eqn:Hid; [discriminate|].
  destruct (not_number_or _ (p_soc p)) eqn:Hsoc; [discriminate|].
  intros _. apply orb_false_iff in Hid as [Htruthy Hstring].
  destruct (p_vehicleId p) as [| | | |id| |] eqn:Hv; try discriminate.
  destruct (p_soc p) as [| | |soc| | |] eqn:Hs; try discriminate.
  simpl in Hsoc. apply orb_false_iff in Hsoc as [Hlo Hhi].
  exists p, id, soc. repeat split; try done.
  simpl in Htruthy. intros ->. discriminate.
Qed.

Lemma vehicle_ingest_validated (E : driver) (data : jsval) (s s' : server)
    (r : VehicleService.receipt) :
  VehicleService.ingest E data s = (inr r, s') ->
  VehicleService.validateVehicleData E data s = (inr tt, s).
Proof.
  unfold VehicleService.ingest. unfold bind at 1, lift.
  destruct (vehicle_params_of data) as [e|p]; [discriminate|].
  unfold bind at 1.
  destruct (validateVehicleData_pure E (S := server) data) as (res & Hres).
  rewrite Hres. destruct res as [e|[]]; [discriminate|]. done.
Qed.










(** ** C5 and C9: the batch path *)

(** The state a successful transaction leaves. *)
Lemma transaction_success_state (E : driver) {A} (callback : M client A)
    (s s' : server) (r : A) :
  transaction E callback s = (inr r, s') ->
  exists c2,
    callback {| host := exchanged (exchanged s []) [BEGIN];
                txn := Active (committed s) |} = (inr r, c2)
    /\ issued s' = issued (host c2) ++ [COMMIT]
    /\ committed s' = match txn c2 with
                      | Active w => w
                      | _ => committed (host c2)
                      end.
Proof.
  unfold transaction, pool_connect.
  destruct (next_fault s) eqn:Hconnect; [discriminate|].
  unfold bind at 1. unfold client_query at 1. cbn [host txn].
  destruct (next_fault (exchanged s [])) eqn:Hbegin.
  { unfold client_query. cbn [host txn].
    by destruct (next_fault (exchanged (exchanged s []) [BEGIN])). }
  unfold bind at 1.
  destruct (callback _) as [[e|a] c2] eqn:Hcb.
  { unfold client_query. by destruct (next_fault (host c2)). }
  unfold bind at 1. unfold client_query at 1.
  destruct (next_fault (host c2)) eqn:Hcommit.
  { unfold client_query. cbn [host txn].
    by destruct (next_fault (exchanged (host c2) [COMMIT])). }
  intros Hresult. exists c2.
  destruct (txn c2) as [|w|] eqn:Htxn; simpl in Hresult;
    injection Hresult as <- <-; done.
Qed.

Lemma written_not_charging_refl (m : gmap string vehicle_status_row) :
  written_not_charging m m.
Proof. intros k row Hk. exists row. by split; [|left]. Qed.

Lemma written_not_charging_trans (m1 m2 m3 : gmap string vehicle_status_row) :
  written_not_charging m1 m2 -> written_not_charging m2 m3 ->
  written_not_charging m1 m3.
Proof.
  intros H12 H23 k row Hk.
  destruct (H12 k row Hk) as (row2 & Hk2 & Hrow2).
  destruct (H23 k row2 Hk2) as (row3 & Hk3 & Hrow3).
  exists row3. split; [done|].
  destruct Hrow3 as [-> | Hfalse]; [done | by right].
Qed.

Lemma written_not_charging_insert (m : gmap string vehicle_status_row)
    (id : string) (st : vehicle_status_row) :
  vs_is_charging st = false -> written_not_charging m (<[id := st]> m).
Proof.
  intros Hst k row Hk. destruct (decide (id = k)) as [-> | Hne].
  - exists st. rewrite lookup_insert_eq. by split; [|right].
  - exists row. rewrite lookup_insert_ne by done. by split; [|left].
Qed.

(** The upserts of a vehicle batch, when all of them go through. *)
Lemma vehicle_batch_upserts (E : driver) (items : list jsval) :
  forall (c c' : client) (w : db),
    txn c = Active w ->
    for_of items
      (fun vehicle =>
         let! p := lift (vehicle_params_of vehicle) in
         let! _ := client_query E (UpsertVehicleStatus p false) in
         ret tt) c = (inr tt, c') ->
    exists ps w',
      traverse vehicle_params_of items = inr ps
      /\ txn c' = Active w'
      /\ vehicle_telemetry_history w' = vehicle_telemetry_history w
      /\ issued (host c')
         = issued (host c) ++ ((fun p => UpsertVehicleStatus p false) <$> ps)
      /\ written_not_charging (vehicle_current_status w)
                              (vehicle_current_status w')
      /\ forall p, p ∈ ps ->
           exists st,
             vehicle_current_status w' !! param_text E (p_vehicleId p) = Some st
             /\ vs_is_charging st = false.
Proof.
  induction items as [|vehicle items IH]; intros c c' w Htxn Hrun.
  - injection Hrun as <-. exists [], w. simpl. rewrite app_nil_r.
    repeat split; try done.
    + apply written_not_charging_refl.
    + intros p Hp. by apply not_elem_of_nil in Hp.
  - simpl in Hrun. unfold bind at 1 in Hrun. unfold bind at 1, lift in Hrun.
    destruct (vehicle_params_of vehicle) as [e|p] eqn:Hp; [discriminate|].
    unfold bind at 1 in Hrun.
    destruct (client_query E (UpsertVehicleStatus p false) c)
      as [[e|r1] c1] eqn:Hq; [discriminate|].
    apply (client_query_active E _ _ _ w) in Hq as (w1 & Hexec & ->);
      [|done|done].
    unfold ret at 1 in Hrun.
    apply (IH _ _ w1) in Hrun
      as (ps & w' & Hps & Htxn' & Hhistory & Hissued & Hw & Hall); [|done].
    unfold exec in Hexec.
    destruct (vehicle_status_in E (clock (host c)) p false)
      as [e|[id st]] eqn:Hst; [discriminate|].
    injection Hexec as <- _.
    unfold vehicle_status_in in Hst.
    destruct (vehicle_history_in E (clock (host c)) p) as [e|row] eqn:Hrow;
      [discriminate|].
    injection Hst as <- <-.
    destruct (vehicle_history_in_key E _ _ _ Hrow) as [_ Hkey].
    cbn [vehicle_current_status] in Hw.
    cbn [vehicle_telemetry_history] in Hhistory.
    exists (p :: ps), w'. simpl. rewrite Hp, Hps. repeat split; try done.
    + rewrite Hissued. cbn [host issued exchanged].
      by rewrite <- app_assoc.
    + eapply written_not_charging_trans; [|exact Hw].
      by apply written_not_charging_insert.
    + intros p0 Hp0. apply elem_of_cons in Hp0 as [-> | Hp0]; [|by apply Hall].
      rewrite Hkey.
      destruct (Hw (vh_vehicle_id row)
                  {| vs_soc := vh_soc row;
                     vs_kwh_delivered_dc := vh_kwh_delivered_dc row;
                     vs_battery_temp := vh_battery_temp row;
                     vs_last_updated := vh_recorded_at row;
                     vs_ingested_at := clock (host c);
                     vs_is_charging := false |})
        as (st' & Hst' & Hcase); [apply lookup_insert_eq|].
      exists st'. split; [done|]. by destruct Hcase as [-> | Hfalse].
Qed.

Lemma batch_length_not_zero (items : list jsval) :
  items <> [] ->
  strict_eq_zero (JNum (nat_number (length items))) = false.
Proof. destruct items as [|item items]; [done|]. intros _. reflexivity. Qed.

Lemma traverse_elem {A B} (f : A -> error + B) (l : list A) (l' : list B)
    (x : A) :
  traverse f l = inr l' -> x ∈ l -> exists y, f x = inr y /\ y ∈ l'.
Proof.
  revert l'. induction l as [|a l IH]; intros l' Hl Hx.
  - by apply not_elem_of_nil in Hx.
  - simpl in Hl. destruct (f a) as [e|b] eqn:Hb; [discriminate|].
    destruct (traverse f l) as [e|bs]; [discriminate|].
    injection Hl as <-. apply elem_of_cons in Hx as [-> | Hx].
    + exists b. split; [done | apply list_elem_of_here].
    + destruct (IH bs eq_refl Hx) as (y & Hy & Hin).
      exists y. split; [done | by apply list_elem_of_further].
Qed.

(** What a successful [VehicleService.ingestBatch] of a non-empty array
    has sent and left. *)
Lemma vehicle_batch_success (E : driver) (items : list jsval)
    (s s' : server) (n : nat) :
  items <> [] ->
  VehicleService.ingestBatch E (JArr items) s = (inr n, s') ->
  exists ps rows,
    traverse vehicle_params_of items = inr ps
    /\ n = length items
    /\ issued s' = issued s ++ vehicle_batch_statements ps
    /\ traverse (vehicle_history_in E (clock s)) ps = inr rows
    /\ vehicle_telemetry_history (committed s')
       = vehicle_telemetry_history (committed s) ++ rows
    /\ written_not_charging (vehicle_current_status (committed s))
                            (vehicle_current_status (committed s'))
    /\ forall p, p ∈ ps ->
         exists st,
           vehicle_current_status (committed s')
             !! param_text E (p_vehicleId p) = Some st
           /\ vs_is_charging st = false.
Proof.
  intros Hitems. unfold VehicleService.ingestBatch. cbn [truthy negb].
  unfold bind at 1, lift. cbn [prop String.eqb Ascii.eqb Bool.eqb].
  rewrite (batch_length_not_zero items Hitems).
  intros Htx. apply transaction_success_state in Htx
    as (c2 & Hcb & Hissued & Hcommitted).
  unfold bind at 1, lift in Hcb. cbn [iterable] in Hcb.
  unfold bind at 1 in Hcb.
  destruct (traverse vehicle_params_of items) as [e|ps] eqn:Hps;
    [discriminate|].
  unfold bind at 1 in Hcb.
  destruct (client_query E (InsertVehicleHistory ps) _)
    as [[e|r1] c1] eqn:Hq1; [discriminate|].
  apply (client_query_active E _ _ _ (committed s)) in Hq1
    as (w1 & Hexec1 & ->); [|done|done].
  unfold bind at 1 in Hcb.
  destruct (for_of items _ _) as [[e|[]] c3] eqn:Hloop; [discriminate|].
  injection Hcb as <- <-.
  apply (vehicle_batch_upserts E items _ _ w1) in Hloop
    as (ps' & w' & Hps' & Htxn & Hhistory & Hsent & Hw & Hall); [|done].
  assert (ps' = ps) by congruence. subst ps'.
  unfold exec in Hexec1. cbn [host exchanged clock] in Hexec1.
  destruct (bound_tuples 5 (vehicle_history_in E (clock s)) ps)
    as [e|rows] eqn:Hbound; [discriminate|].
  apply bound_tuples_inr in Hbound as [Hrows _].
  injection Hexec1 as <- _.
  rewrite Htxn in Hcommitted.
  exists ps, rows. repeat split; try done.
  - rewrite Hissued, Hsent. cbn [host issued exchanged].
    unfold vehicle_batch_statements. rewrite app_nil_r.
    by rewrite <- !app_assoc.
  - by rewrite Hcommitted, Hhistory.
  - by rewrite Hcommitted.
  - rewrite Hcommitted. by apply Hall.
Qed.

(** C5.  After a batch ingest of vehicle records that went through, the
    status row of every record of the batch has [is_charging = false],
    whatever status row (and soc) the vehicle had before: every upsert of
    the batch carries the constant [false], and the batch sends no read
    of the prior status. *)
Theorem batch_ingest_never_charging
    (E : driver) (items : list jsval) (s s' : server) (n : nat) :
  VehicleService.ingestBatch E (JArr items) s = (inr n, s') ->
  (forall vehicle,
      vehicle ∈ items ->
      exists p st,
        vehicle_params_of vehicle = inr p
        /\ vehicle_current_status (committed s')
             !! param_text E (p_vehicleId p) = Some st
        /\ vs_is_charging st = false
        /\ UpsertVehicleStatus p false ∈ issued s')
  /\ (forall id, SelectVehicleSoc id ∈ issued s' ->
                 SelectVehicleSoc id ∈ issued s).
Proof.
  intros Hbatch. destruct items as [|item items].
  { injection Hbatch as _ <-. split; [|done].
    intros vehicle Hin. by apply not_elem_of_nil in Hin. }
  apply vehicle_batch_success in Hbatch
    as (ps & rows & Hps & _ & Hissued & _ & _ & _ & Hall); [|done].
  split.
  - intros vehicle Hin.
    destruct (traverse_elem _ _ _ vehicle Hps Hin) as (p & Hp & Hpin).
    destruct (Hall p Hpin) as (st & Hst & Hfalse).
    exists p, st. repeat split; try done.
    rewrite Hissued. unfold vehicle_batch_statements.
    apply elem_of_app. right. apply elem_of_app. right.
    apply elem_of_app. left. apply list_elem_of_fmap. by exists p.
  - intros id. rewrite Hissued. unfold vehicle_batch_statements.
    rewrite !elem_of_app. intros [Hold | [Hhead | [Hupsert | Hcommit]]].
    + done.
    + apply elem_of_cons in Hhead as [Hq | Hhead]; [discriminate|].
      apply list_elem_of_singleton in Hhead. discriminate.
    + apply list_elem_of_fmap in Hupsert as (p & Hq & _). discriminate.
    + apply list_elem_of_singleton in Hcommit. discriminate.
Qed.

Lemma batch_ingest_never_charging_witness :
  let batch := [vehicle_payload "V1" 55 8 27 "2024-01-01T00:01:00Z"] in
  let s' := snd (VehicleService.ingestBatch example_driver (JArr batch)
                   charged_server) in
  (vs_soc <$> vehicle_current_status (committed charged_server) !! "V1")
  = Some (of_units 2 4000)
  /\ exists st, vehicle_current_status (committed s') !! "V1" = Some st
                /\ vs_is_charging st = false.
Proof.
  intros batch s'. split; [vm_compute; reflexivity|].
  destruct (batch_ingest_never_charging example_driver batch charged_server
              s' 1%nat) as [Hrows _].
  - vm_compute. reflexivity.
  - destruct (Hrows (vehicle_payload "V1" 55 8 27 "2024-01-01T00:01:00Z"))
      as (p & st & Hp & Hst & Hfalse & _).
    + apply list_elem_of_here.
    + vm_compute in Hp. injection Hp as <-.
      exists st. split; [exact Hst | exact Hfalse].
Defined.

(** *** What can go wrong in a batch *)

Lemma bind_error {S A B} (m : M S A) (k : A -> M S B) (s s' : S) (e : error) :
  bind m k s = (inl e, s') ->
  m s = (inl e, s') \/ exists a s1, m s = (inr a, s1) /\ k a s1 = (inl e, s').
Proof.
  unfold bind. destruct (m s) as [[e0|a] s1].
  - intros [= <- <-]. by left.
  - intros Hk. right. by exists a, s1.
Qed.

Lemma varchar_in_error (E : driver) (n : nat) (column : string) (v : jsval)
    (e : error) :
  varchar_in E n column v = inl e -> is_store_error e.
Proof.
  unfold varchar_in, not_null_violation.
  destruct (is_null v); [intros [= <-]; by eexists|].
  destruct (String.length (param_text E v) <=? n)%nat; [discriminate|].
  intros [= <-]. by eexists.
Qed.

Lemma decimal_in_error (E : driver) (p s : nat) (column : string) (v : jsval)
    (e : error) :
  decimal_in E p s column v = inl e -> is_store_error e.
Proof.
  unfold decimal_in, not_null_violation.
  destruct (is_null v); [intros [= <-]; by eexists|].
  destruct (match v with JNum (Fin q) => Some q | _ => numeric_of E v end)
    as [q|]; [|intros [= <-]; by eexists].
  destruct (Z.abs (ROUND_units s q) <? 10 ^ Z.of_nat p); [discriminate|].
  intros [= <-]. by eexists.
Qed.

Lemma timestamptz_in_error (E : driver) (column : string) (v : jsval)
    (e : error) :
  timestamptz_in E column v = inl e -> is_store_error e.
Proof.
  unfold timestamptz_in, not_null_violation.
  destruct (is_null v); [intros [= <-]; by eexists|].
  destruct (timestamptz_of E v); [discriminate|].
  intros [= <-]. by eexists.
Qed.

Lemma soc_check_error (soc : Q) (e : error) :
  soc_check soc = inl e -> is_store_error e.
Proof.
  unfold soc_check. destruct (Qle_bool 0 soc && Qle_bool soc 100);
    [discriminate|]. intros [= <-]. by eexists.
Qed.

Lemma meter_history_in_error (E : driver) (now : Z) (p : meter_params)
    (e : error) :
  meter_history_in E now p = inl e -> is_store_error e.
Proof.
  unfold meter_history_in.
  destruct (varchar_in E 100 "meter_id" (p_meterId p)) eqn:H1;
    [intros [= <-]; by eapply varchar_in_error|].
  destruct (decimal_in E 10 4 "kwh_consumed_ac" (p_kwhConsumedAc p)) eqn:H2;
    [intros [= <-]; by eapply decimal_in_error|].
  destruct (decimal_in E 8 2 "voltage" (p_voltage p)) eqn:H3;
    [intros [= <-]; by eapply decimal_in_error|].
  destruct (timestamptz_in E "recorded_at" (p_meter_timestamp p)) eqn:H4;
    [intros [= <-]; by eapply timestamptz_in_error|].
  discriminate.
Qed.

Lemma vehicle_history_in_error (E : driver) (now : Z) (p : vehicle_params)
    (e : error) :
  vehicle_history_in E now p = inl e -> is_store_error e.
Proof.
  unfold vehicle_history_in.
  destruct (varchar_in E 100 "vehicle_id" (p_vehicleId p)) eqn:H1;
    [intros [= <-]; by eapply varchar_in_error|].
  destruct (decimal_in E 5 2 "soc" (p_soc p)) eqn:H2;
    [intros [= <-]; by eapply decimal_in_error|].
  destruct (soc_check _) eqn:H3;
    [intros [= <-]; by eapply soc_check_error|].
  destruct (decimal_in E 10 4 "kwh_delivered_dc" (p_kwhDeliveredDc p)) eqn:H4;
    [intros [= <-]; by eapply decimal_in_error|].
  destruct (decimal_in E 5 2 "battery_temp" (p_batteryTemp p)) eqn:H5;
    [intros [= <-]; by eapply decimal_in_error|].
  destruct (timestamptz_in E "recorded_at" (p_vehicle_timestamp p)) eqn:H6;
    [intros [= <-]; by eapply timestamptz_in_error|].
  discriminate.
Qed.

Lemma traverse_error {A B} (P : error -> Prop) (f : A -> error + B)
    (l : list A) (e : error) :
  (forall x e0, x ∈ l -> f x = inl e0 -> P e0) ->
  traverse f l = inl e -> P e.
Proof.
  induction l as [|a l IH]; intros Hf; [discriminate|]. simpl.
  destruct (f a) as [e0|b] eqn:Ha.
  - intros [= <-]. apply (Hf a); [apply list_elem_of_here | done].
  - destruct (traverse f l) as [e0|bs]; [|discriminate].
    intros [= <-]. apply IH; [|done].
    intros x e1 Hx. apply Hf. by apply list_elem_of_further.
Qed.

Lemma bound_tuples_error {P A} (per : Z) (tuple_in : P -> error + A)
    (values : list P) (e : error) :
  (forall x err, tuple_in x = inl err -> is_store_error err) ->
  bound_tuples per tuple_in values = inl e -> is_store_error e.
Proof.
  intros Hf. unfold bound_tuples.
  destruct (per * Z.of_nat (length values) <=? max_parameters).
  - intros Hrows. eapply (traverse_error is_store_error); [|exact Hrows].
    intros x err _. apply Hf.
  - intros [= <-]. by eexists.
Qed.

Lemma exec_error (E : driver) (now : Z) (q : stmt) (d : db) (e : error) :
  exec E now q d = inl e -> is_store_error e.
Proof.
  destruct q; simpl; try discriminate.
  - destruct (bound_tuples 4 (meter_history_in E now) values) eqn:Hrows;
      [|discriminate]. intros [= <-].
    eapply bound_tuples_error; [|exact Hrows].
    intros x err. apply meter_history_in_error.
  - unfold meter_status_in.
    destruct (meter_history_in E now p) eqn:Hrow; [|discriminate].
    intros [= <-]. by eapply meter_history_in_error.
  - destruct (bound_tuples 5 (vehicle_history_in E now) values) eqn:Hrows;
      [|discriminate]. intros [= <-].
    eapply bound_tuples_error; [|exact Hrows].
    intros x err. apply vehicle_history_in_error.
  - by destruct (is_null vehicle_id).
  - unfold vehicle_status_in.
    destruct (vehicle_history_in E now p) eqn:Hrow; [|discriminate].
    intros [= <-]. by eapply vehicle_history_in_error.
Qed.

Lemma client_query_error (E : driver) (q : stmt) (c c' : client) (e : error) :
  client_query E q c = (inl e, c') -> is_store_error e.
Proof.
  unfold client_query.
  destruct (next_fault (host c)); [intros [= <- _]; by eexists|].
  destruct q, (txn c) as [|w|]; try discriminate;
    try (intros [= <- _]; by eexists); cbv zeta;
    match goal with
    | |- context [exec ?E0 ?n ?q0 ?w0] =>
        destruct (exec E0 n q0 w0) as [e0|[w' r']] eqn:Hexec
    end; try discriminate; intros [= <- _]; by eapply exec_error.
Qed.

(** A transaction fails with an error of its callback or with an error
    of the store. *)
Lemma transaction_error (E : driver) {A} (P : error -> Prop)
    (callback : M client A) (s s' : server) (e : error) :
  (forall e0, is_store_error e0 -> P e0) ->
  (forall c e0 c', callback c = (inl e0, c') -> P e0) ->
  transaction E callback s = (inl e, s') -> P e.
Proof.
  intros Hstore Hcb. unfold transaction, pool_connect.
  destruct (next_fault s); [intros [= <- _]; apply Hstore; by eexists|].
  match goal with
  | |- context [bind ?m ?k ?c] => destruct (bind m k c) as [[e0|r] c1] eqn:Hbody
  end; [|discriminate].
  assert (He0 : P e0).
  { apply bind_error in Hbody as [Hbegin | (r0 & c0 & _ & Hbody)].
    - apply Hstore. by eapply client_query_error.
    - apply bind_error in Hbody as [Hrun | (r1 & c2 & _ & Hbody)].
      + by eapply Hcb.
      + apply bind_error in Hbody as [Hcommit | (r2 & c3 & _ & Hret)].
        * apply Hstore. by eapply client_query_error.
        * discriminate. }
  destruct (client_query E ROLLBACK c1) as [[e1|r1] c2] eqn:Hrollback.
  - intros [= <- _]. apply Hstore. by eapply client_query_error.
  - by intros [= <- _].
Qed.

Lemma prop_error (v : jsval) (k : string) (e : error) :
  prop v k = inl e -> is_null v = true /\ exists m, e = TypeError m.
Proof.
  destruct v; simpl; try discriminate; intros [= <-]; split; try done;
    by eexists.
Qed.

Lemma meter_params_of_error (item : jsval) (e : error) :
  meter_params_of item = inl e ->
  is_null item = true /\ exists m, e = TypeError m.
Proof.
  unfold meter_params_of.
  repeat match goal with
         | |- context [match prop ?v ?k with inl _ => _ | inr _ => _ end] =>
             let H := fresh "Hprop" in
             destruct (prop v k) eqn:H;
             [intros [= <-]; by eapply prop_error|]
         end.
  discriminate.
Qed.

Lemma vehicle_params_of_error (item : jsval) (e : error) :
  vehicle_params_of item = inl e ->
  is_null item = true /\ exists m, e = TypeError m.
Proof.
  unfold vehicle_params_of.
  repeat match goal with
         | |- context [match prop ?v ?k with inl _ => _ | inr _ => _ end] =>
             let H := fresh "Hprop" in
             destruct (prop v k) eqn:H;
             [intros [= <-]; by eapply prop_error|]
         end.
  discriminate.
Qed.



Lemma traverse_Forall2 {A B} (f : A -> error + B) (l : list A) (l' : list B) :
  traverse f l = inr l' -> Forall2 (fun x y => f x = inr y) l l'.
Proof.
  revert l'. induction l as [|a l IH]; intros l'; simpl.
  - intros [= <-]. constructor.
  - destruct (f a) as [e|b] eqn:Hb; [discriminate|].
    destruct (traverse f l) as [e|bs]; [discriminate|].
    intros [= <-]. constructor; [done | by apply IH].
Qed.

Lemma traverse_length {A B} (f : A -> error + B) (l : list A) (l' : list B) :
  traverse f l = inr l' -> length l' = length l.
Proof.
  intros Hl. apply traverse_Forall2 in Hl. symmetry.
  by eapply Forall2_length.
Qed.

Lemma batch_failure_store (items : list jsval) (e : error) :
  is_store_error e -> batch_failure items e.
Proof. by intros (m & ->). Qed.

Lemma batch_failure_null (items : list jsval) (item : jsval) (e : error) :
  item ∈ items -> is_null item = true /\ (exists m, e = TypeError m) ->
  batch_failure items e.
Proof. intros Hin (Hnull & m & ->). by exists item. Qed.

Lemma for_of_error {S A} (P : error -> Prop) (l : list A)
    (body : A -> M S unit) :
  (forall x s e s', x ∈ l -> body x s = (inl e, s') -> P e) ->
  forall s e s', for_of l body s = (inl e, s') -> P e.
Proof.
  induction l as [|x l IH]; intros Hbody s e s'; [discriminate|]. simpl.
  intros Hrun. apply bind_error in Hrun as [Hx | (u & s1 & _ & Hrest)].
  - eapply Hbody; [apply list_elem_of_here | exact Hx].
  - eapply IH; [|exact Hrest].
    intros y s0 e0 s0' Hy. apply Hbody. by apply list_elem_of_further.
Qed.

(** The callbacks of the two batch paths. *)
Lemma vehicle_batch_callback_error (E : driver) (items : list jsval)
    (c c' : client) (e : error) :
  (let! items0 := lift (iterable "vehicleBatch.forEach" (JArr items)) in
   let! historyParams := lift (traverse vehicle_params_of items0) in
   let! _ := client_query E (InsertVehicleHistory historyParams) in
   let! _ := for_of items0 (fun vehicle =>
               let! p := lift (vehicle_params_of vehicle) in
               let! _ := client_query E (UpsertVehicleStatus p false) in
               ret tt) in
   ret (length items0)) c = (inl e, c') ->
  batch_failure items e.
Proof.
  intros Hrun. apply bind_error in Hrun as [Hiter | (l & c1 & Hiter & Hrun)];
    [discriminate|].
  injection Hiter as <- <-.
  apply bind_error in Hrun as [Hparams | (ps & c1 & _ & Hrun)].
  { unfold lift in Hparams. injection Hparams as Hparams _.
    eapply (traverse_error (batch_failure items)); [|exact Hparams].
    intros item e0 Hin Hitem.
    eapply batch_failure_null; [exact Hin|].
    by apply vehicle_params_of_error. }
  apply bind_error in Hrun as [Hinsert | (r & c2 & _ & Hrun)].
  { apply batch_failure_store. by eapply client_query_error. }
  apply bind_error in Hrun as [Hloop | (u & c3 & _ & Hret)]; [|discriminate].
  eapply (for_of_error (batch_failure items)); [|exact Hloop].
  intros item c0 e0 c0' Hin Hbody.
  apply bind_error in Hbody as [Hitem | (p & c4 & _ & Hbody)].
  { unfold lift in Hitem. injection Hitem as Hitem _.
    eapply batch_failure_null; [exact Hin|].
    by apply vehicle_params_of_error. }
  apply bind_error in Hbody as [Hupsert | (r0 & c5 & _ & Hret)];
    [|discriminate].
  apply batch_failure_store. by eapply client_query_error.
Qed.

Lemma meter_batch_callback_error (E : driver) (items : list jsval)
    (c c' : client) (e : error) :
  (let! items0 := lift (iterable "meterBatch.forEach" (JArr items)) in
   let! historyParams := lift (traverse meter_params_of items0) in
   let! _ := client_query E (InsertMeterHistory historyParams) in
   let! _ := for_of items0 (fun meter =>
               let! p := lift (meter_params_of meter) in
               let! _ := client_query E (UpsertMeterStatus p) in
               ret tt) in
   ret (length items0)) c = (inl e, c') ->
  batch_failure items e.
Proof.
  intros Hrun. apply bind_error in Hrun as [Hiter | (l & c1 & Hiter & Hrun)];
    [discriminate|].
  injection Hiter as <- <-.
  apply bind_error in Hrun as [Hparams | (ps & c1 & _ & Hrun)].
  { unfold lift in Hparams. injection Hparams as Hparams _.
    eapply (traverse_error (batch_failure items)); [|exact Hparams].
    intros item e0 Hin Hitem.
    eapply batch_failure_null; [exact Hin|].
    by apply meter_params_of_error. }
  apply bind_error in Hrun as [Hinsert | (r & c2 & _ & Hrun)].
  { apply batch_failure_store. by eapply client_query_error. }
  apply bind_error in Hrun as [Hloop | (u & c3 & _ & Hret)]; [|discriminate].
  eapply (for_of_error (batch_failure items)); [|exact Hloop].
  intros item c0 e0 c0' Hin Hbody.
  apply bind_error in Hbody as [Hitem | (p & c4 & _ & Hbody)].
  { unfold lift in Hitem. injection Hitem as Hitem _.
    eapply batch_failure_null; [exact Hin|].
    by apply meter_params_of_error. }
  apply bind_error in Hbody as [Hupsert | (r0 & c5 & _ & Hret)];
    [|discriminate].
  apply batch_failure_store. by eapply client_query_error.
Qed.



(** A batch that fails: by the store, or on an item that is [null] or
    [undefined]; and nothing of it is committed. *)
Lemma vehicle_batch_failure (E : driver) (items : list jsval)
    (s s' : server) (e : error) :
  items <> [] ->
  VehicleService.ingestBatch E (JArr items) s = (inl e, s') ->
  batch_failure items e /\ committed s' = committed s.
Proof.
  intros Hitems. unfold VehicleService.ingestBatch. cbn [truthy negb].
  unfold bind at 1, lift. cbn [prop String.eqb Ascii.eqb Bool.eqb].
  rewrite (batch_length_not_zero items Hitems).
  intros Htx. split.
  - eapply (transaction_error E (batch_failure items)); [| |exact Htx].
    + apply batch_failure_store.
    + intros c e0 c'. apply vehicle_batch_callback_error.
  - eapply transaction_failure; [|exact Htx].
    apply keeps_committed_bind; [apply keeps_committed_lift | intros items0].
    apply keeps_committed_bind; [apply keeps_committed_lift | intros ps].
    apply keeps_committed_bind;
      [by apply keeps_committed_client_query | intros _].
    apply keeps_committed_bind; [|intros _; apply keeps_committed_ret].
    apply keeps_committed_for_of. intros vehicle.
    apply keeps_committed_bind; [apply keeps_committed_lift | intros p].
    apply keeps_committed_bind;
      [by apply keeps_committed_client_query | intros _].
    apply keeps_committed_ret.
Qed.

Lemma meter_batch_failure (E : driver) (items : list jsval)
    (s s' : server) (e : error) :
  items <> [] ->
  MeterService.ingestBatch E (JArr items) s = (inl e, s') ->
  batch_failure items e /\ committed s' = committed s.
Proof.
  intros Hitems. unfold MeterService.ingestBatch. cbn [truthy negb].
  unfold bind at 1, lift. cbn [prop String.eqb Ascii.eqb Bool.eqb].
  rewrite (batch_length_not_zero items Hitems).
  intros Htx. split.
  - eapply (transaction_error E (batch_failure items)); [| |exact Htx].
    + apply batch_failure_store.
    + intros c e0 c'. apply meter_batch_callback_error.
  - eapply transaction_failure; [|exact Htx].
    apply keeps_committed_bind; [apply keeps_committed_lift | intros items0].
    apply keeps_committed_bind; [apply keeps_committed_lift | intros ps].
    apply keeps_committed_bind;
      [by apply keeps_committed_client_query | intros _].
    apply keeps_committed_bind; [|intros _; apply keeps_committed_ret].
    apply keeps_committed_for_of. intros meter.
    apply keeps_committed_bind; [apply keeps_committed_lift | intros p].
    apply keeps_committed_bind;
      [by apply keeps_committed_client_query | intros _].
    apply keeps_committed_ret.
Qed.




(** The single ingest rejects a negative [kwhConsumedAc] and a state of
    charge of 150 with a validation error; the batch path stores the
    first, and for the second it is the [CHECK] of the store that
    fails. *)
Example batch_takes_what_single_ingest_rejects :
  fst (MeterService.ingest example_driver negative_meter_record example_server)
  = inl (ValidationError "Invalid kwhConsumedAc: must be a positive number")
  /\ fst (MeterService.ingestBatch example_driver
            (JArr [negative_meter_record]) example_server) = inr 1%nat
  /\ (mh_kwh_consumed_ac
        <$> meter_telemetry_history
              (committed
                 (snd (MeterService.ingestBatch example_driver
                         (JArr [negative_meter_record]) example_server))))
     = [of_units 4 (-10000)]
  /\ fst (VehicleService.ingest example_driver overcharged_record
            example_server)
     = inl (ValidationError "Invalid soc: must be a number between 0 and 100")
  /\ fst (VehicleService.ingestBatch example_driver
            (JArr [overcharged_record]) example_server)
     = inl (StoreError "violates check constraint on soc").
Proof. vm_compute. repeat split. Qed.

(** * Further properties of the code *)

(** ** What a transaction may change *)

Lemma works_within_ret (R : db -> db -> Prop) {A} (a : A) :
  (forall w, R w w) -> works_within R (ret a).
Proof. intros Hrefl c w a' c' Htxn [= _ <-]. by exists w. Qed.

Lemma works_within_lift (R : db -> db -> Prop) {A} (r : error + A) :
  (forall w, R w w) -> works_within R (lift r).
Proof. intros Hrefl c w a' c' Htxn [= _ <-]. by exists w. Qed.

Lemma works_within_bind (R : db -> db -> Prop) {A B} (m : M client A)
    (k : A -> M client B) :
  (forall w1 w2 w3, R w1 w2 -> R w2 w3 -> R w1 w3) ->
  works_within R m -> (forall a, works_within R (k a)) ->
  works_within R (bind m k).
Proof.
  intros Htrans Hm Hk c w b c' Htxn. unfold bind.
  destruct (m c) as [[e|a] c1] eqn:Hmc; [discriminate|].
  destruct (Hm c w a c1 Htxn Hmc) as (w1 & Htxn1 & HR1).
  intros Hkc. destruct (Hk a c1 w1 b c' Htxn1 Hkc) as (w2 & Htxn2 & HR2).
  exists w2. eauto.
Qed.

Lemma works_within_for_of (R : db -> db -> Prop) {A} (l : list A)
    (body : A -> M client unit) :
  (forall w, R w w) ->
  (forall w1 w2 w3, R w1 w2 -> R w2 w3 -> R w1 w3) ->
  (forall x, works_within R (body x)) -> works_within R (for_of l body).
Proof.
  intros Hrefl Htrans Hbody. induction l as [|x l IH]; simpl.
  - by apply works_within_ret.
  - apply works_within_bind; [done | apply Hbody | intros _; exact IH].
Qed.

Lemma works_within_client_query (E : driver) (R : db -> db -> Prop)
    (q : stmt) :
  statement_within E R q -> works_within R (client_query E q).
Proof.
  intros [Hq HR] c w r c' Htxn Hrun.
  apply (client_query_active E q c c' w r Hq Htxn) in Hrun
    as (w' & Hexec & ->).
  exists w'. split; [done|]. by eapply HR.
Qed.

(** Whatever a transaction does, what is committed afterwards is related
    by [R] to what was committed before, when every step its callback
    takes is. *)
Lemma transaction_within (E : driver) (R : db -> db -> Prop) {A}
    (callback : M client A) (s : server) :
  (forall w, R w w) ->
  keeps_committed callback -> works_within R callback ->
  R (committed s) (committed (transaction E callback s).2).
Proof.
  intros Hrefl Hkeeps Hworks.
  destruct (transaction E callback s) as [[e|r] s'] eqn:Htx; simpl.
  - rewrite (transaction_failure E callback s s' e Hkeeps Htx). apply Hrefl.
  - apply transaction_success in Htx as (c2 & Hcb & ->).
    eapply Hworks in Hcb as (w' & -> & HR); [|done]. done.
Qed.

Lemma grows_refl (d : db) : grows d d.
Proof. by repeat split. Qed.

Lemma grows_trans (d1 d2 d3 : db) : grows d1 d2 -> grows d2 d3 -> grows d1 d3.
Proof.
  intros (H1 & H2 & H3 & H4 & H5) (G1 & G2 & G3 & G4 & G5).
  repeat split; [by etrans | by etrans | auto | auto | congruence].
Qed.

Lemma exec_grows (E : driver) (now : Z) (q : stmt) (w w' : db) (r : result) :
  exec E now q w = inr (w', r) -> grows w w'.
Proof.
  destruct q; simpl.
  - intros [= <- _]. apply grows_refl.
  - intros [= <- _]. apply grows_refl.
  - intros [= <- _]. apply grows_refl.
  - destruct (bound_tuples _ _ values) as [e|rows]; [discriminate|].
    intros [= <- _]. repeat split; simpl; try done. by apply prefix_app_r.
  - destruct (meter_status_in E now p) as [e|[id row]]; [discriminate|].
    intros [= <- _]. repeat split; simpl; try done.
    intros k Hk. destruct (decide (id = k)) as [->|Hne].
    + by rewrite lookup_insert_eq.
    + by rewrite lookup_insert_ne.
  - destruct (bound_tuples _ _ values) as [e|rows]; [discriminate|].
    intros [= <- _]. repeat split; simpl; try done. by apply prefix_app_r.
  - destruct (is_null vehicle_id); intros [= <- _]; apply grows_refl.
  - destruct (vehicle_status_in E now p is_charging) as [e|[id row]];
      [discriminate|].
    intros [= <- _]. repeat split; simpl; try done.
    intros k Hk. destruct (decide (id = k)) as [->|Hne].
    + by rewrite lookup_insert_eq.
    + by rewrite lookup_insert_ne.
Qed.

Lemma statement_within_grows (E : driver) (q : stmt) :
  data_statement q -> statement_within E grows q.
Proof. intros Hq. split; [done|]. intros now w w' r. apply exec_grows. Qed.

Ltac keeps_committed_steps :=
  cbv zeta;
  repeat first
    [ apply keeps_committed_ret
    | apply keeps_committed_lift
    | apply keeps_committed_client_query; done
    | apply keeps_committed_for_of; intros ?
    | apply keeps_committed_bind; [|intros ?]; cbv zeta ].

Lemma keeps_committed_vehicle_ingest (E : driver) (p : vehicle_params) :
  keeps_committed
    (let! _ := client_query E (InsertVehicleHistory [p]) in
     let! prevStatus := client_query E (SelectVehicleSoc (p_vehicleId p)) in
     let isCharging :=
       match prevStatus with
       | SocRows (prev :: _) => VehicleService.soc_gt (p_soc p) prev
       | _ => false
       end in
     let! _ := client_query E (UpsertVehicleStatus p isCharging) in
     ret {| VehicleService.vehicleId := p_vehicleId p;
            VehicleService.type := "vehicle";
            VehicleService.stored := true;
            VehicleService.timestamp := p_vehicle_timestamp p;
            VehicleService.isCharging := isCharging |}).
Proof. keeps_committed_steps. Qed.

Lemma keeps_committed_meter_batch (E : driver) (meterBatch : jsval) :
  keeps_committed
    (let! items := lift (iterable "meterBatch.forEach" meterBatch) in
     let! historyParams := lift (traverse meter_params_of items) in
     let! _ := client_query E (InsertMeterHistory historyParams) in
     let! _ := for_of items (fun meter =>
                 let! p := lift (meter_params_of meter) in
                 let! _ := client_query E (UpsertMeterStatus p) in
                 ret tt) in
     ret (length items)).
Proof. keeps_committed_steps. Qed.

Lemma keeps_committed_vehicle_batch (E : driver) (vehicleBatch : jsval) :
  keeps_committed
    (let! items := lift (iterable "vehicleBatch.forEach" vehicleBatch) in
     let! historyParams := lift (traverse vehicle_params_of items) in
     let! _ := client_query E (InsertVehicleHistory historyParams) in
     let! _ := for_of items (fun vehicle =>
                 let! p := lift (vehicle_params_of vehicle) in
                 let! _ := client_query E (UpsertVehicleStatus p false) in
                 ret tt) in
     ret (length items)).
Proof. keeps_committed_steps. Qed.

Section Within.

Variable E : driver.
Variable R : db -> db -> Prop.
Hypothesis R_refl : forall w, R w w.
Hypothesis R_trans : forall w1 w2 w3, R w1 w2 -> R w2 w3 -> R w1 w3.

Ltac works_within_steps H :=
  cbv zeta;
  repeat first
    [ apply works_within_ret; exact R_refl
    | apply works_within_lift; exact R_refl
    | apply works_within_client_query; apply H; done
    | apply works_within_for_of; [exact R_refl | exact R_trans | intros ?]
    | apply works_within_bind; [exact R_trans | | intros ?]; cbv zeta ].

Lemma meter_ingest_within (data : jsval) (s : server) :
  (forall q, meter_statement q -> statement_within E R q) ->
  R (committed s) (committed (MeterService.ingest E data s).2).
Proof.
  intros H. unfold MeterService.ingest. unfold bind at 1, lift.
  destruct (meter_params_of data) as [e|p]; [apply R_refl|].
  unfold bind at 1.
  destruct (validateMeterData_pure E (S := server) data) as (res & ->).
  destruct res as [e|[]]; [apply R_refl|].
  apply transaction_within; [exact R_refl | |].
  - apply keeps_committed_meter_ingest.
  - works_within_steps H.
Qed.

Lemma meter_batch_within (meterBatch : jsval) (s : server) :
  (forall q, meter_statement q -> statement_within E R q) ->
  R (committed s) (committed (MeterService.ingestBatch E meterBatch s).2).
Proof.
  intros H. unfold MeterService.ingestBatch.
  destruct (negb (truthy meterBatch)); [apply R_refl|].
  unfold bind at 1, lift.
  destruct (prop meterBatch "length") as [e|len]; [apply R_refl|].
  destruct (strict_eq_zero len); [apply R_refl|].
  apply transaction_within; [exact R_refl | |].
  - apply keeps_committed_meter_batch.
  - works_within_steps H.
Qed.

Lemma vehicle_ingest_within (data : jsval) (s : server) :
  (forall q, vehicle_statement q -> statement_within E R q) ->
  R (committed s) (committed (VehicleService.ingest E data s).2).
Proof.
  intros H. unfold VehicleService.ingest. unfold bind at 1, lift.
  destruct (vehicle_params_of data) as [e|p]; [apply R_refl|].
  unfold bind at 1.
  destruct (validateVehicleData_pure E (S := server) data) as (res & ->).
  destruct res as [e|[]]; [apply R_refl|].
  apply transaction_within; [exact R_refl | |].
  - apply keeps_committed_vehicle_ingest.
  - works_within_steps H.
Qed.

Lemma vehicle_batch_within (vehicleBatch : jsval) (s : server) :
  (forall q, vehicle_statement q -> statement_within E R q) ->
  R (committed s) (committed (VehicleService.ingestBatch E vehicleBatch s).2).
Proof.
  intros H. unfold VehicleService.ingestBatch.
  destruct (negb (truthy vehicleBatch)); [apply R_refl|].
  unfold bind at 1, lift.
  destruct (prop vehicleBatch "length") as [e|len]; [apply R_refl|].
  destruct (strict_eq_zero len); [apply R_refl|].
  apply transaction_within; [exact R_refl | |].
  - apply keeps_committed_vehicle_batch.
  - works_within_steps H.
Qed.

End Within.

Lemma statement_within_vehicle_tables (E : driver) (q : stmt) :
  meter_statement q -> statement_within E vehicle_tables_kept q.
Proof.
  intros Hq. split; [by destruct q|]. intros now w w' r.
  destruct q; try done; simpl.
  - destruct (bound_tuples _ _ values) as [e|rows]; [discriminate|].
    by intros [= <- _].
  - destruct (meter_status_in E now p) as [e|[id row]]; [discriminate|].
    by intros [= <- _].
Qed.

Lemma statement_within_meter_tables (E : driver) (q : stmt) :
  vehicle_statement q -> statement_within E meter_tables_kept q.
Proof.
  intros Hq. split; [by destruct q|]. intros now w w' r.
  destruct q; try done; simpl.
  - destruct (bound_tuples _ _ values) as [e|rows]; [discriminate|].
    by intros [= <- _].
  - by destruct (is_null vehicle_id); intros [= <- _].
  - destruct (vehicle_status_in E now p is_charging) as [e|[id row]];
      [discriminate|].
    by intros [= <- _].
Qed.

Lemma vehicle_tables_kept_trans (d1 d2 d3 : db) :
  vehicle_tables_kept d1 d2 -> vehicle_tables_kept d2 d3 ->
  vehicle_tables_kept d1 d3.
Proof. intros [H1 H2] [G1 G2]. split; congruence. Qed.

Lemma meter_tables_kept_trans (d1 d2 d3 : db) :
  meter_tables_kept d1 d2 -> meter_tables_kept d2 d3 ->
  meter_tables_kept d1 d3.
Proof. intros [H1 H2] [G1 G2]. split; congruence. Qed.

(** ** The ingestion paths only add *)

(** X1.  Whatever [POST /v1/ingest] receives and however it ends (stored,
    rejected, failed by the store), what is committed afterwards only
    extends what was committed before: each history table still starts
    with the rows it had, in their order; no status row has disappeared;
    the materialized view [vehicle_24h_performance] is untouched. *)
Theorem ingestTelemetry_only_grows (E : driver) (telemetryData : jsval)
    (s : server) :
  grows (committed s)
        (committed (IngestionController.ingestTelemetry E telemetryData s).2).
Proof.
  unfold IngestionController.ingestTelemetry.
  destruct (negb (truthy telemetryData) || _); [apply grows_refl|].
  destruct (identifyTelemetryType telemetryData) as [e|[| |]];
    try apply grows_refl.
  - pose proof (meter_ingest_within E grows grows_refl grows_trans
                  telemetryData s) as H.
    destruct (MeterService.ingest E telemetryData s) as [[e|r] s'];
      apply H; intros q Hq; apply statement_within_grows; by destruct q.
  - pose proof (vehicle_ingest_within E grows grows_refl grows_trans
                  telemetryData s) as H.
    destruct (VehicleService.ingest E telemetryData s) as [[e|r] s'];
      apply H; intros q Hq; apply statement_within_grows; by destruct q.
Qed.

(** X2.  The same for [POST /v1/ingest/batch], whatever the body and
    whichever of its two groups fails: history rows are only appended,
    status rows only added or overwritten, the view is untouched. *)
Theorem ingestBatch_only_grows (E : driver) (batchData : jsval) (s : server) :
  grows (committed s)
        (committed (IngestionController.ingestBatch E batchData s).2).
Proof.
  unfold IngestionController.ingestBatch.
  destruct batchData as [| | | | |[|item items]|]; try apply grows_refl.
  destruct (IngestionController.separate (item :: items))
    as [e|[meterBatch vehicleBatch]]; [apply grows_refl|].
  assert (Hm : forall q, meter_statement q -> statement_within E grows q).
  { intros q Hq. apply statement_within_grows. by destruct q. }
  assert (Hv : forall q, vehicle_statement q -> statement_within E grows q).
  { intros q Hq. apply statement_within_grows. by destruct q. }
  set (m := match meterBatch with
            | [] => (inr 0%nat, s)
            | _ => MeterService.ingestBatch E (JArr meterBatch) s
            end).
  assert (H1 : grows (committed s) (committed m.2)).
  { subst m. destruct meterBatch; [apply grows_refl|].
    by apply meter_batch_within; [apply grows_refl | apply grows_trans |]. }
  destruct m as [meterResult s1]. simpl in H1.
  set (v := match vehicleBatch with
            | [] => (inr 0%nat, s1)
            | _ => VehicleService.ingestBatch E (JArr vehicleBatch) s1
            end).
  assert (H2 : grows (committed s1) (committed v.2)).
  { subst v. destruct vehicleBatch; [apply grows_refl|].
    by apply vehicle_batch_within; [apply grows_refl | apply grows_trans |]. }
  destruct v as [vehicleResult s2]. simpl in *. by eapply grows_trans.
Qed.

(** X3.  The meter service never writes a vehicle table, and the vehicle
    service never writes a meter table: after a single ingest or a batch
    of one service, successful or not, the history and the status table
    of the other kind of device are exactly what they were. *)
Theorem services_keep_the_other_tables (E : driver) (data : jsval)
    (s : server) :
  vehicle_tables_kept (committed s)
                      (committed (MeterService.ingest E data s).2)
  /\ vehicle_tables_kept (committed s)
                         (committed (MeterService.ingestBatch E data s).2)
  /\ meter_tables_kept (committed s)
                       (committed (VehicleService.ingest E data s).2)
  /\ meter_tables_kept (committed s)
                       (committed (VehicleService.ingestBatch E data s).2).
Proof.
  split; [|split; [|split]].
  - by apply (meter_ingest_within E vehicle_tables_kept);
      [| apply vehicle_tables_kept_trans
       | apply statement_within_vehicle_tables].
  - by apply (meter_batch_within E vehicle_tables_kept);
      [| apply vehicle_tables_kept_trans
       | apply statement_within_vehicle_tables].
  - by apply (vehicle_ingest_within E meter_tables_kept);
      [| apply meter_tables_kept_trans
       | apply statement_within_meter_tables].
  - by apply (vehicle_batch_within E meter_tables_kept);
      [| apply meter_tables_kept_trans
       | apply statement_within_meter_tables].
Qed.

(** ** [POST /v1/ingest] *)

(** X4.  [POST /v1/ingest] answers 201 or 400 and nothing else: every
    failure, also one of the store or of the connection, is answered with
    400 (never 500), and then nothing of the reading is committed. *)
Theorem ingestTelemetry_answers_201_or_400 (E : driver) (telemetryData : jsval)
    (s : server) :
  match IngestionController.ingestTelemetry E telemetryData s with
  | (Reply st _, _) => st = 201%nat
  | (Failure st _, s') => st = 400%nat /\ committed s' = committed s
  end.
Proof.
  unfold IngestionController.ingestTelemetry.
  destruct (negb (truthy telemetryData) || _); [done|].
  destruct (identifyTelemetryType telemetryData) as [e|[| |]]; try done.
  - destruct (MeterService.ingest E telemetryData s) as [[e|r] s'] eqn:Hrun;
      [|done].
    split; [done|]. by eapply meter_ingest_failure.
  - destruct (VehicleService.ingest E telemetryData s) as [[e|r] s'] eqn:Hrun;
      [|done].
    split; [done|]. by eapply vehicle_ingest_failure.
Qed.

(** X5.  How [POST /v1/ingest] dispatches a JSON object.  With the three
    meter fields it goes to the meter service, also when the vehicle
    fields are there as well; with the three vehicle fields and a meter
    field missing, to the vehicle service; otherwise it is answered 400
    without any exchange with the store: the server is exactly as it
    was. *)
Theorem ingestTelemetry_dispatch (E : driver) (o : gmap string jsval)
    (s : server) :
  (meter_fields o ->
   IngestionController.ingestTelemetry E (JObj o) s
   = match MeterService.ingest E (JObj o) s with
     | (inr r, s') => (Reply 201 (IngestionController.MeterStored r), s')
     | (inl e, s') => (Failure 400 (error_message e), s')
     end)
  /\ (~ meter_fields o -> vehicle_fields o ->
      IngestionController.ingestTelemetry E (JObj o) s
      = match VehicleService.ingest E (JObj o) s with
        | (inr r, s') => (Reply 201 (IngestionController.VehicleStored r), s')
        | (inl e, s') => (Failure 400 (error_message e), s')
        end)
  /\ (~ meter_fields o -> ~ vehicle_fields o ->
      IngestionController.ingestTelemetry E (JObj o) s
      = (Failure 400
           "Unknown telemetry type. Expected meter or vehicle format.", s)).
Proof.
  unfold IngestionController.ingestTelemetry, identifyTelemetryType.
  cbn [truthy typeof js_type_eqb negb orb].
  destruct (all_defined_meter o) as (bm & -> & Hm).
  destruct (all_defined_vehicle o) as (bv & -> & Hv).
  split; [|split].
  - intros H. apply Hm in H as ->. done.
  - intros Hnm H. apply Hv in H as ->.
    destruct bm; [by destruct Hnm; apply Hm | done].
  - intros Hnm Hnv.
    destruct bm; [by destruct Hnm; apply Hm|].
    destruct bv; [by destruct Hnv; apply Hv | done].
Qed.

Lemma ingestTelemetry_dispatch_witness :
  IngestionController.ingestTelemetry example_driver
    (JObj (<["voltage" := JNum (Fin 230)]> ∅)) example_server
  = (Failure 400 "Unknown telemetry type. Expected meter or vehicle format.",
     example_server).
Proof.
  apply (ingestTelemetry_dispatch example_driver
           (<["voltage" := JNum (Fin 230)]> ∅) example_server).
  - intros (H & _ & _). by apply H.
  - intros (H & _ & _). by apply H.
Defined.

(** ** Validation comes first *)

Lemma invalid_meter_reading_not_sent (E : driver) (meterData : jsval)
    (s s0 : server) (e : error) :
  MeterService.validateMeterData E meterData s = (inl e, s0) ->
  MeterService.ingest E meterData s = (inl e, s).
Proof.
  intros Hv. unfold MeterService.ingest. unfold bind at 1, lift.
  destruct (meter_params_of meterData) as [e0|p] eqn:Hp.
  - unfold MeterService.validateMeterData, bind, lift in Hv.
    rewrite Hp in Hv. by injection Hv as -> _.
  - unfold bind at 1.
    destruct (validateMeterData_pure E (S := server) meterData)
      as (res & Hres).
    rewrite Hres in Hv |- *. by injection Hv as -> _.
Qed.

Lemma invalid_vehicle_reading_not_sent (E : driver) (vehicleData : jsval)
    (s s0 : server) (e : error) :
  VehicleService.validateVehicleData E vehicleData s = (inl e, s0) ->
  VehicleService.ingest E vehicleData s = (inl e, s).
Proof.
  intros Hv. unfold VehicleService.ingest. unfold bind at 1, lift.
  destruct (vehicle_params_of vehicleData) as [e0|p] eqn:Hp.
  - unfold VehicleService.validateVehicleData, bind, lift in Hv.
    rewrite Hp in Hv. by injection Hv as -> _.
  - unfold bind at 1.
    destruct (validateVehicleData_pure E (S := server) vehicleData)
      as (res & Hres).
    rewrite Hres in Hv |- *. by injection Hv as -> _.
Qed.

(** X6.  A reading that validation rejects never reaches the store.  When
    [validateMeterData], or [validateVehicleData], throws, the [ingest] of
    that service throws the same error, and the server is exactly as it
    was: no connection taken, no statement sent. *)
Theorem invalid_reading_never_sent (E : driver) (data : jsval)
    (s s0 : server) (e : error) :
  (MeterService.validateMeterData E data s = (inl e, s0) ->
   MeterService.ingest E data s = (inl e, s))
  /\ (VehicleService.validateVehicleData E data s = (inl e, s0) ->
      VehicleService.ingest E data s = (inl e, s)).
Proof.
  split.
  - apply invalid_meter_reading_not_sent.
  - apply invalid_vehicle_reading_not_sent.
Qed.

Lemma invalid_reading_never_sent_witness :
  MeterService.ingest example_driver negative_meter_record example_server
  = (inl (ValidationError
            "Invalid kwhConsumedAc: must be a positive number"),
     example_server)
  /\ VehicleService.ingest example_driver overcharged_record example_server
     = (inl (ValidationError
               "Invalid soc: must be a number between 0 and 100"),
        example_server).
Proof.
  split.
  - apply (invalid_reading_never_sent example_driver negative_meter_record
             example_server example_server).
    vm_compute. reflexivity.
  - apply (invalid_reading_never_sent example_driver overcharged_record
             example_server example_server).
    vm_compute. reflexivity.
Defined.

(** ** When an ingest goes through *)

Lemma client_query_runs (E : driver) (q : stmt) (c : client) (w w' : db)
    (r : result) :
  faults (host c) = [] -> txn c = Active w -> data_statement q ->
  exec E (clock (host c)) q w = inr (w', r) ->
  client_query E q c
  = (inr r, {| host := exchanged (host c) [q]; txn := Active w' |}).
Proof.
  intros Hf Htxn Hq Hexec. unfold client_query, next_fault.
  rewrite Hf, Htxn. cbn [hd]. rewrite clock_exchanged.
  destruct q; try done; cbv zeta; by rewrite Hexec.
Qed.

Lemma client_query_rejected (E : driver) (q : stmt) (c : client) (w : db)
    (e : error) :
  txn c = Active w -> data_statement q ->
  exec E (clock (host c)) q w = inl e ->
  exists e' c', client_query E q c = (inl e', c').
Proof.
  intros Htxn Hq Hexec. unfold client_query.
  destruct (next_fault (host c)); [by eexists _, _|].
  rewrite Htxn, clock_exchanged.
  destruct q; try done; cbv zeta; rewrite Hexec; by eexists _, _.
Qed.

Lemma transaction_runs (E : driver) {A} (callback : M client A) (s : server)
    (r : A) (c2 : client) (w' : db) :
  faults s = [] ->
  callback {| host := exchanged (exchanged s []) [BEGIN];
              txn := Active (committed s) |} = (inr r, c2) ->
  faults (host c2) = [] -> txn c2 = Active w' ->
  transaction E callback s
  = (inr r, with_committed (exchanged (host c2) [COMMIT]) w').
Proof.
  intros Hf Hcb Hf2 Htxn2. destruct s as [d clk f i]. simpl in Hf. subst f.
  unfold transaction, pool_connect, next_fault, exchanged in *.
  cbn [hd tl faults committed clock issued] in *.
  unfold bind at 1. unfold client_query at 1, next_fault.
  cbn [host txn hd tl faults committed clock issued].
  unfold bind at 1. unfold exchanged at 1 2.
  cbn [hd tl faults committed clock issued]. rewrite Hcb.
  unfold bind at 1. unfold client_query at 1. unfold next_fault.
  rewrite Hf2, Htxn2. cbn [hd]. unfold release, ret, exchanged, with_committed.
  cbn [host]. by rewrite ?Hf2.
Qed.

(** A transaction whose callback throws, throws. *)
Lemma transaction_throws (E : driver) {A} (callback : M client A)
    (s : server) :
  (forall c, txn c = Active (committed s) -> clock (host c) = clock s ->
             exists e c', callback c = (inl e, c')) ->
  exists e s', transaction E callback s = (inl e, s').
Proof.
  intros Hcb. unfold transaction, pool_connect.
  destruct (next_fault s); [by eexists _, _|].
  unfold bind at 1. unfold client_query at 1. cbn [host txn].
  destruct (next_fault (exchanged s [])).
  { destruct (client_query E ROLLBACK _) as [[e|r] c]; by eexists _, _. }
  unfold bind at 1.
  destruct (Hcb {| host := exchanged (exchanged s []) [BEGIN];
                   txn := Active (committed (exchanged (exchanged s []) [BEGIN])) |})
    as (e & c' & ->); [done | done |].
  destruct (client_query E ROLLBACK _) as [[e'|r] c]; by eexists _, _.
Qed.

Lemma vehicle_ingest_runs (E : driver) (data : jsval) (s : server)
    (p : vehicle_params) (row : vehicle_history_row) :
  faults s = [] ->
  vehicle_params_of data = inr p ->
  VehicleService.validateVehicleData E data s = (inr tt, s) ->
  vehicle_history_in E (clock s) p = inr row ->
  exists r s', VehicleService.ingest E data s = (inr r, s').
Proof.
  intros Hf Hp Hv Hrow.
  destruct (vehicle_history_in_key E _ _ _ Hrow) as [Hnull _].
  unfold VehicleService.ingest. unfold bind at 1, lift. rewrite Hp.
  unfold bind at 1. rewrite Hv.
  eexists _, _. eapply transaction_runs; [exact Hf | | |].
  - unfold bind at 1.
    erewrite client_query_runs;
      [| by simpl; rewrite Hf | reflexivity | done
       | cbn [host exchanged clock]; unfold exec;
         rewrite ?bound_tuples_4_one, ?bound_tuples_5_one;
         unfold traverse; rewrite Hrow;
         reflexivity].
    unfold bind at 1.
    erewrite client_query_runs;
      [| by simpl; rewrite Hf | reflexivity | done
       | cbn [host exchanged clock]; unfold exec; rewrite Hnull;
         reflexivity].
    unfold bind at 1.
    erewrite client_query_runs;
      [| by simpl; rewrite Hf | reflexivity | done
       | cbn [host exchanged clock]; unfold exec;
         rewrite (vehicle_status_in_history E _ _ row _ Hrow); reflexivity].
    reflexivity.
  - simpl. by rewrite Hf.
  - reflexivity.
Qed.

Lemma meter_ingest_runs (E : driver) (data : jsval) (s : server)
    (p : meter_params) (row : meter_history_row) :
  faults s = [] ->
  meter_params_of data = inr p ->
  MeterService.validateMeterData E data s = (inr tt, s) ->
  meter_history_in E (clock s) p = inr row ->
  exists r s', MeterService.ingest E data s = (inr r, s').
Proof.
  intros Hf Hp Hv Hrow.
  unfold MeterService.ingest. unfold bind at 1, lift. rewrite Hp.
  unfold bind at 1. rewrite Hv.
  eexists _, _. eapply transaction_runs; [exact Hf | | |].
  - unfold bind at 1.
    erewrite client_query_runs;
      [| by simpl; rewrite Hf | reflexivity | done
       | cbn [host exchanged clock]; unfold exec;
         rewrite ?bound_tuples_4_one, ?bound_tuples_5_one;
         unfold traverse; rewrite Hrow;
         reflexivity].
    unfold bind at 1.
    erewrite client_query_runs;
      [| by simpl; rewrite Hf | reflexivity | done
       | cbn [host exchanged clock]; unfold exec;
         rewrite (meter_status_in_history E _ _ row Hrow); reflexivity].
    reflexivity.
  - simpl. by rewrite Hf.
  - reflexivity.
Qed.

(** With a store that fails for no reason other than the data, a single
    ingest goes through exactly when the reading passes validation and
    [vehicle_history_in], or [meter_history_in], takes its tuple; the
    status upsert and the commit then cannot fail. *)
Lemma vehicle_ingest_succeeds_when (E : driver) (vehicleData : jsval)
    (s : server) :
  faults s = [] ->
  succeeded (VehicleService.ingest E vehicleData s).1
  <-> exists p row,
        vehicle_params_of vehicleData = inr p
        /\ VehicleService.validateVehicleData E vehicleData s = (inr tt, s)
        /\ vehicle_history_in E (clock s) p = inr row.
Proof.
  intros Hf. split.
  - destruct (VehicleService.ingest E vehicleData s) as [[e|r] s'] eqn:Hrun;
      [done|]. intros _.
    pose proof (vehicle_ingest_validated E _ _ _ _ Hrun) as Hv.
    apply vehicle_ingest_success in Hrun as (p & row & Hp & Hrow & _).
    by exists p, row.
  - intros (p & row & Hp & Hv & Hrow).
    destruct (vehicle_ingest_runs E _ _ _ _ Hf Hp Hv Hrow) as (r & s' & ->).
    done.
Qed.


Lemma meter_ingest_succeeds_when (E : driver) (meterData : jsval)
    (s : server) :
  faults s = [] ->
  succeeded (MeterService.ingest E meterData s).1
  <-> exists p row,
        meter_params_of meterData = inr p
        /\ MeterService.validateMeterData E meterData s = (inr tt, s)
        /\ meter_history_in E (clock s) p = inr row.
Proof.
  intros Hf. split.
  - destruct (MeterService.ingest E meterData s) as [[e|r] s'] eqn:Hrun;
      [done|]. intros _.
    assert (Hv : MeterService.validateMeterData E meterData s = (inr tt, s)).
    { revert Hrun. unfold MeterService.ingest. unfold bind at 1, lift.
      destruct (meter_params_of meterData) as [e|p]; [discriminate|].
      unfold bind at 1.
      destruct (validateMeterData_pure E (S := server) meterData)
        as (res & Hres).
      rewrite Hres. by destruct res as [e|[]]. }
    apply meter_ingest_success in Hrun as (p & row & Hp & Hrow & _).
    by exists p, row.
  - intros (p & row & Hp & Hv & Hrow).
    destruct (meter_ingest_runs E _ _ _ _ Hf Hp Hv Hrow) as (r & s' & ->).
    done.
Qed.


(** ** What validation leaves to the store *)

Lemma ROUND_units_percent (q : Q) :
  (0 <= q)%Q -> (q <= 100)%Q -> 0 <= ROUND_units 2 q <= 10000.
Proof.
  intros Hlo Hhi. rewrite <- toFixed_units_ROUND_units. unfold toFixed_units.
  assert (Hneg : Qlt_bool q 0 = false) by by apply Qlt_bool_false.
  rewrite Hneg. rewrite (Qabs_pos q Hlo).
  split.
  - change 0 with (Qfloor 0). apply Qfloor_resp_le.
    change (pow10 2) with (inject_Z 100).
    change (inject_Z 100) with 100%Q. lra.
  - change 10000 with (Qfloor (10000 + (1 # 2))). apply Qfloor_resp_le.
    change (pow10 2) with (inject_Z 100).
    change (inject_Z 100) with 100%Q. lra.
Qed.

Lemma validateVehicleData_checked (E : driver) {S} (data : jsval) (s s' : S)
    (p : vehicle_params) :
  vehicle_params_of data = inr p ->
  VehicleService.validateVehicleData E data s = (inr tt, s') ->
  is_null (p_vehicleId p) = false
  /\ is_null (p_vehicle_timestamp p) = false
  /\ forall q, p_soc p = JNum (Fin q) -> (0 <= q)%Q /\ (q <= 100)%Q.
Proof.
  intros Hp. unfold VehicleService.validateVehicleData, bind, lift, throw.
  rewrite Hp.
  destruct (negb (truthy (p_vehicleId p)) || not_string (p_vehicleId p))
    eqn:Hid; [discriminate|].
  destruct (not_number_or _ (p_soc p)) eqn:Hsoc; [discriminate|].
  destruct (not_number_or _ (p_kwhDeliveredDc p)); [discriminate|].
  destruct (not_number_or _ (p_batteryTemp p)); [discriminate|].
  destruct (negb (truthy (p_vehicle_timestamp p))) eqn:Hts; [discriminate|].
  intros _. apply orb_false_iff in Hid as [Htruthy _].
  split; [by destruct (p_vehicleId p)|].
  split; [by destruct (p_vehicle_timestamp p)|].
  intros q Hq. rewrite Hq in Hsoc. simpl in Hsoc.
  apply orb_false_iff in Hsoc as [Hlo Hhi].
  unfold js_gt in Hhi. simpl in Hhi.
  by split; apply Qlt_bool_false.
Qed.

Lemma validated_vehicle_tuple_accepted (E : driver) (data : jsval)
    (s : server) (p : vehicle_params) (q k t : Q) (now : Z) :
  vehicle_params_of data = inr p ->
  VehicleService.validateVehicleData E data s = (inr tt, s) ->
  p_soc p = JNum (Fin q) ->
  p_kwhDeliveredDc p = JNum (Fin k) ->
  p_batteryTemp p = JNum (Fin t) ->
  succeeded (vehicle_history_in E now p)
  <-> (String.length (param_text E (p_vehicleId p)) <= 100)%nat
      /\ Z.abs (ROUND_units 4 k) < 10 ^ 10
      /\ Z.abs (ROUND_units 2 t) < 10 ^ 5
      /\ is_Some (timestamptz_of E (p_vehicle_timestamp p)).
Proof.
  intros Hp Hv Hq Hk Ht.
  destruct (validateVehicleData_checked E data s s p Hp Hv)
    as (Hid & Hts & Hsoc).
  destruct (Hsoc q Hq) as [Hlo Hhi].
  pose proof (ROUND_units_percent q Hlo Hhi) as Hround.
  unfold vehicle_history_in, varchar_in, decimal_in, timestamptz_in.
  rewrite Hid, Hts, Hq, Hk, Ht. cbn [is_null].
  assert (Hfit : (Z.abs (ROUND_units 2 q) <? 10 ^ Z.of_nat 5) = true).
  { apply Z.ltb_lt. change (10 ^ Z.of_nat 5) with 100000. lia. }
  rewrite Hfit.
  assert (Hcheck : soc_check (of_units 2 (ROUND_units 2 q))
                   = inr (of_units 2 (ROUND_units 2 q))).
  { unfold soc_check.
    assert (H0 : Qle_bool 0 (of_units 2 (ROUND_units 2 q)) = true).
    { apply Qle_bool_iff. rewrite of_units_2.
      apply Qle_shift_div_l; [reflexivity|]. rewrite Qmult_0_l.
      change 0%Q with (inject_Z 0). rewrite <- Zle_Qle. lia. }
    assert (H100 : Qle_bool (of_units 2 (ROUND_units 2 q)) 100 = true).
    { apply Qle_bool_iff. rewrite of_units_2.
      apply Qle_shift_div_r; [reflexivity|].
      change (100 * 100)%Q with (inject_Z 10000). rewrite <- Zle_Qle. lia. }
    by rewrite H0, H100. }
  rewrite Hcheck.
  change (10 ^ Z.of_nat 10) with (10 ^ 10).
  change (10 ^ Z.of_nat 5) with (10 ^ 5).
  destruct (Nat.leb (String.length (param_text E (p_vehicleId p))) 100)
    eqn:Hlen.
  2: { apply Nat.leb_gt in Hlen. split; [done|]. intros (H & _). lia. }
  apply Nat.leb_le in Hlen.
  destruct (Z.abs (ROUND_units 4 k) <? 10 ^ 10) eqn:Hkfit.
  2: { apply Z.ltb_ge in Hkfit. split; [done|]. intros (_ & H & _). lia. }
  apply Z.ltb_lt in Hkfit.
  destruct (Z.abs (ROUND_units 2 t) <? 10 ^ 5) eqn:Htfit.
  2: { apply Z.ltb_ge in Htfit. split; [done|]. intros (_ & _ & H & _). lia. }
  apply Z.ltb_lt in Htfit.
  destruct (timestamptz_of E (p_vehicle_timestamp p)) as [ts|].
  - split; [|done]. intros _. by repeat split.
  - split; [done|]. intros (_ & _ & _ & H). by destruct H.
Qed.


Lemma validateVehicleData_finite (E : driver) {S} (data : jsval) (s : S)
    (p : vehicle_params) (id : string) (q k t : Q) :
  vehicle_params_of data = inr p ->
  p_vehicleId p = JStr id ->
  p_soc p = JNum (Fin q) ->
  p_kwhDeliveredDc p = JNum (Fin k) ->
  p_batteryTemp p = JNum (Fin t) ->
  VehicleService.validateVehicleData E data s = (inr tt, s)
  <-> id <> ""
      /\ (0 <= q)%Q /\ (q <= 100)%Q
      /\ (0 <= k)%Q
      /\ truthy (p_vehicle_timestamp p) = true
      /\ is_Some (Date_getTime E (p_vehicle_timestamp p)).
Proof.
  intros Hp Hid Hq Hk Ht.
  unfold VehicleService.validateVehicleData, bind, lift, throw, ret.
  rewrite Hp, Hid, Hq, Hk, Ht.
  cbn [truthy not_string typeof js_type_eqb negb orb not_number_or js_lt js_gt].
  destruct (String.eqb id "") eqn:Hne; cbn [negb orb].
  { apply String.eqb_eq in Hne. split; [discriminate|]. by intros [H _]. }
  apply String.eqb_neq in Hne.
  destruct (Qlt_bool q 0) eqn:Hq0; cbn [orb].
  { apply Qlt_bool_iff in Hq0. split; [discriminate|].
    intros (_ & H & _). exfalso. exact (Qlt_not_le _ _ Hq0 H). }
  apply Qlt_bool_false in Hq0.
  destruct (Qlt_bool 100 q) eqn:Hq100.
  { apply Qlt_bool_iff in Hq100. split; [discriminate|].
    intros (_ & _ & H & _). exfalso. exact (Qlt_not_le _ _ Hq100 H). }
  apply Qlt_bool_false in Hq100.
  destruct (Qlt_bool k 0) eqn:Hk0.
  { apply Qlt_bool_iff in Hk0. split; [discriminate|].
    intros (_ & _ & _ & H & _). exfalso. exact (Qlt_not_le _ _ Hk0 H). }
  apply Qlt_bool_false in Hk0.
  destruct (truthy (p_vehicle_timestamp p)) eqn:Hts; cbn [negb].
  2: { split; [discriminate|]. by intros (_ & _ & _ & _ & H & _). }
  destruct (Date_getTime E (p_vehicle_timestamp p)) as [ms|].
  - split; [|done]. intros _. by repeat split.
  - split; [discriminate|]. intros (_ & _ & _ & _ & _ & H). by destruct H.
Qed.

Lemma validateMeterData_finite (E : driver) {S} (data : jsval) (s : S)
    (p : meter_params) (id : string) (k v : Q) :
  meter_params_of data = inr p ->
  p_meterId p = JStr id ->
  p_kwhConsumedAc p = JNum (Fin k) ->
  p_voltage p = JNum (Fin v) ->
  MeterService.validateMeterData E data s = (inr tt, s)
  <-> id <> ""
      /\ (0 <= k)%Q
      /\ (0 <= v)%Q
      /\ truthy (p_meter_timestamp p) = true
      /\ is_Some (Date_getTime E (p_meter_timestamp p)).
Proof.
  intros Hp Hid Hk Hv.
  unfold MeterService.validateMeterData, bind, lift, throw, ret.
  rewrite Hp, Hid, Hk, Hv.
  cbn [truthy not_string typeof js_type_eqb negb orb not_number_or js_lt].
  destruct (String.eqb id "") eqn:Hne; cbn [negb orb].
  { apply String.eqb_eq in Hne. split; [discriminate|]. by intros [H _]. }
  apply String.eqb_neq in Hne.
  destruct (Qlt_bool k 0) eqn:Hk0.
  { apply Qlt_bool_iff in Hk0. split; [discriminate|].
    intros (_ & H & _). exfalso. exact (Qlt_not_le _ _ Hk0 H). }
  apply Qlt_bool_false in Hk0.
  destruct (Qlt_bool v 0) eqn:Hv0.
  { apply Qlt_bool_iff in Hv0. split; [discriminate|].
    intros (_ & _ & H & _). exfalso. exact (Qlt_not_le _ _ Hv0 H). }
  apply Qlt_bool_false in Hv0.
  destruct (truthy (p_meter_timestamp p)) eqn:Hts; cbn [negb].
  2: { split; [discriminate|]. by intros (_ & _ & _ & H & _). }
  destruct (Date_getTime E (p_meter_timestamp p)) as [ms|].
  - split; [|done]. intros _. by repeat split.
  - split; [discriminate|]. intros (_ & _ & _ & _ & H). by destruct H.
Qed.

Lemma meter_tuple_accepted (E : driver) (p : meter_params) (id : string)
    (k v : Q) (now : Z) :
  p_meterId p = JStr id ->
  p_kwhConsumedAc p = JNum (Fin k) ->
  p_voltage p = JNum (Fin v) ->
  is_null (p_meter_timestamp p) = false ->
  succeeded (meter_history_in E now p)
  <-> (String.length id <= 100)%nat
      /\ Z.abs (ROUND_units 4 k) < 10 ^ 10
      /\ Z.abs (ROUND_units 2 v) < 10 ^ 8
      /\ is_Some (timestamptz_of E (p_meter_timestamp p)).
Proof.
  intros Hid Hk Hv Hts.
  unfold meter_history_in, varchar_in, decimal_in, timestamptz_in.
  rewrite Hid, Hk, Hv, Hts. cbn [is_null param_text].
  change (10 ^ Z.of_nat 10) with (10 ^ 10).
  change (10 ^ Z.of_nat 8) with (10 ^ 8).
  destruct (Nat.leb (String.length id) 100) eqn:Hlen.
  2: { apply Nat.leb_gt in Hlen. split; [done|]. intros (H & _). lia. }
  apply Nat.leb_le in Hlen.
  destruct (Z.abs (ROUND_units 4 k) <? 10 ^ 10) eqn:Hkfit.
  2: { apply Z.ltb_ge in Hkfit. split; [done|]. intros (_ & H & _). lia. }
  apply Z.ltb_lt in Hkfit.
  destruct (Z.abs (ROUND_units 2 v) <? 10 ^ 8) eqn:Hvfit.
  2: { apply Z.ltb_ge in Hvfit. split; [done|]. intros (_ & _ & H & _). lia. }
  apply Z.ltb_lt in Hvfit.
  destruct (timestamptz_of E (p_meter_timestamp p)) as [ts|].
  - split; [|done]. intros _. by repeat split.
  - split; [done|]. intros (_ & _ & _ & H). by destruct H.
Qed.

Lemma truthy_not_null (v : jsval) : truthy v = true -> is_null v = false.
Proof. by destruct v. Qed.

(** X7.  When a single vehicle ingest goes through.  Take a reading whose
    identifier is plain text (ASCII characters, none of them NUL, the
    last one not a space) and whose state of charge, energy and
    temperature are finite numbers, and a store that fails for no reason
    other than the data.  The ingest goes through exactly when the
    identifier is not empty and has at most 100 characters, the state of
    charge lies in 0..100, the energy is not negative and, rounded to 4
    decimals, stays below 1000000, the temperature rounded to 2 decimals
    stays below 1000 in magnitude, the timestamp is truthy, the runtime
    reads it as a date and the store reads it as an instant. *)
Theorem vehicle_ingest_succeeds_iff (E : driver) (vehicleData : jsval)
    (s : server) (p : vehicle_params) (id : string) (q k t : Q) :
  faults s = [] ->
  vehicle_params_of vehicleData = inr p ->
  p_vehicleId p = JStr id ->
  plain_text id = true ->
  p_soc p = JNum (Fin q) ->
  p_kwhDeliveredDc p = JNum (Fin k) ->
  p_batteryTemp p = JNum (Fin t) ->
  succeeded (VehicleService.ingest E vehicleData s).1
  <-> id <> ""
      /\ (String.length id <= 100)%nat
      /\ (0 <= q)%Q /\ (q <= 100)%Q
      /\ (0 <= k)%Q /\ Z.abs (ROUND_units 4 k) < 10 ^ 10
      /\ Z.abs (ROUND_units 2 t) < 10 ^ 5
      /\ truthy (p_vehicle_timestamp p) = true
      /\ is_Some (Date_getTime E (p_vehicle_timestamp p))
      /\ is_Some (timestamptz_of E (p_vehicle_timestamp p)).
Proof.
  intros Hf Hp Hid _ Hq Hk Ht.
  rewrite (vehicle_ingest_succeeds_when E vehicleData s Hf).
  pose proof (validateVehicleData_finite E vehicleData s p id q k t
                Hp Hid Hq Hk Ht) as Hvalid.
  split.
  - intros (p' & row & Hp' & Hv & Hrow).
    assert (p' = p) by congruence. subst p'.
    pose proof (validated_vehicle_tuple_accepted E vehicleData s p q k t
                  (clock s) Hp Hv Hq Hk Ht) as Htuple.
    rewrite Hid in Htuple. cbn [param_text] in Htuple.
    destruct Htuple as [Htuple _]. rewrite Hrow in Htuple.
    destruct (Htuple I) as (Hlen & Hkfit & Htfit & Hts).
    apply Hvalid in Hv as (Hne & Hq0 & Hq100 & Hk0 & Htruthy & Hdate).
    by repeat split.
  - intros (Hne & Hlen & Hq0 & Hq100 & Hk0 & Hkfit & Htfit & Htruthy
            & Hdate & Hts).
    assert (Hv : VehicleService.validateVehicleData E vehicleData s
                 = (inr tt, s)) by (apply Hvalid; by repeat split).
    pose proof (validated_vehicle_tuple_accepted E vehicleData s p q k t
                  (clock s) Hp Hv Hq Hk Ht) as Htuple.
    rewrite Hid in Htuple. cbn [param_text] in Htuple.
    destruct Htuple as [_ Htuple].
    destruct (vehicle_history_in E (clock s) p) as [e|row] eqn:Hrow.
    + exfalso. apply Htuple. by repeat split.
    + by exists p, row.
Qed.

Lemma vehicle_ingest_succeeds_iff_witness :
  succeeded
    (VehicleService.ingest example_driver
       (vehicle_payload "V1" 40 5 25 "2024-01-01T00:00:00Z")
       example_server).1
  <-> "V1" <> ""
      /\ (String.length "V1" <= 100)%nat
      /\ (0 <= 40)%Q /\ (40 <= 100)%Q
      /\ (0 <= 5)%Q /\ Z.abs (ROUND_units 4 5) < 10 ^ 10
      /\ Z.abs (ROUND_units 2 25) < 10 ^ 5
      /\ truthy (JStr "2024-01-01T00:00:00Z") = true
      /\ is_Some (Date_getTime example_driver (JStr "2024-01-01T00:00:00Z"))
      /\ is_Some (timestamptz_of example_driver
                    (JStr "2024-01-01T00:00:00Z")).
Proof.
  apply (vehicle_ingest_succeeds_iff example_driver
           (vehicle_payload "V1" 40 5 25 "2024-01-01T00:00:00Z")
           example_server
           {| p_vehicleId := JStr "V1"; p_soc := JNum (Fin 40);
              p_kwhDeliveredDc := JNum (Fin 5);
              p_batteryTemp := JNum (Fin 25);
              p_vehicle_timestamp := JStr "2024-01-01T00:00:00Z" |}
           "V1" 40 5 25); reflexivity.
Defined.

(** X8.  When a single meter ingest goes through.  Take a reading whose
    identifier is plain text and whose energy and voltage are finite
    numbers, and a store that fails for no reason other than the data.
    The ingest goes through exactly when the identifier is not empty and
    has at most 100 characters, the energy is not negative and, rounded
    to 4 decimals, stays below 1000000, the voltage is not negative and,
    rounded to 2 decimals, stays below 1000000, the timestamp is truthy,
    the runtime reads it as a date and the store reads it as an
    instant. *)
Theorem meter_ingest_succeeds_iff (E : driver) (meterData : jsval)
    (s : server) (p : meter_params) (id : string) (k v : Q) :
  faults s = [] ->
  meter_params_of meterData = inr p ->
  p_meterId p = JStr id ->
  plain_text id = true ->
  p_kwhConsumedAc p = JNum (Fin k) ->
  p_voltage p = JNum (Fin v) ->
  succeeded (MeterService.ingest E meterData s).1
  <-> id <> ""
      /\ (String.length id <= 100)%nat
      /\ (0 <= k)%Q /\ Z.abs (ROUND_units 4 k) < 10 ^ 10
      /\ (0 <= v)%Q /\ Z.abs (ROUND_units 2 v) < 10 ^ 8
      /\ truthy (p_meter_timestamp p) = true
      /\ is_Some (Date_getTime E (p_meter_timestamp p))
      /\ is_Some (timestamptz_of E (p_meter_timestamp p)).
Proof.
  intros Hf Hp Hid _ Hk Hv.
  rewrite (meter_ingest_succeeds_when E meterData s Hf).
  pose proof (validateMeterData_finite E meterData s p id k v Hp Hid Hk Hv)
    as Hvalid.
  split.
  - intros (p' & row & Hp' & Hok & Hrow).
    assert (p' = p) by congruence. subst p'.
    apply Hvalid in Hok as (Hne & Hk0 & Hv0 & Htruthy & Hdate).
    pose proof (meter_tuple_accepted E p id k v (clock s) Hid Hk Hv
                  (truthy_not_null _ Htruthy)) as [Htuple _].
    rewrite Hrow in Htuple.
    destruct (Htuple I) as (Hlen & Hkfit & Hvfit & Hts).
    by repeat split.
  - intros (Hne & Hlen & Hk0 & Hkfit & Hv0 & Hvfit & Htruthy & Hdate & Hts).
    assert (Hok : MeterService.validateMeterData E meterData s = (inr tt, s))
      by (apply Hvalid; by repeat split).
    pose proof (meter_tuple_accepted E p id k v (clock s) Hid Hk Hv
                  (truthy_not_null _ Htruthy)) as [_ Htuple].
    destruct (meter_history_in E (clock s) p) as [e|row] eqn:Hrow.
    + exfalso. apply Htuple. by repeat split.
    + by exists p, row.
Qed.

Lemma meter_ingest_succeeds_iff_witness :
  succeeded
    (MeterService.ingest example_driver
       (meter_payload "M1" 5 230 "2024-01-01T00:00:00Z") example_server).1
  <-> "M1" <> ""
      /\ (String.length "M1" <= 100)%nat
      /\ (0 <= 5)%Q /\ Z.abs (ROUND_units 4 5) < 10 ^ 10
      /\ (0 <= 230)%Q /\ Z.abs (ROUND_units 2 230) < 10 ^ 8
      /\ truthy (JStr "2024-01-01T00:00:00Z") = true
      /\ is_Some (Date_getTime example_driver (JStr "2024-01-01T00:00:00Z"))
      /\ is_Some (timestamptz_of example_driver
                    (JStr "2024-01-01T00:00:00Z")).
Proof.
  apply (meter_ingest_succeeds_iff example_driver
           (meter_payload "M1" 5 230 "2024-01-01T00:00:00Z") example_server
           {| p_meterId := JStr "M1"; p_kwhConsumedAc := JNum (Fin 5);
              p_voltage := JNum (Fin 230);
              p_meter_timestamp := JStr "2024-01-01T00:00:00Z" |}
           "M1" 5 230); reflexivity.
Defined.

(** X9.  What [validateVehicleData] leaves to the store.  For a reading
    that has passed validation, with an identifier of plain text (ASCII
    characters, none of them NUL, the last one not a space) and finite
    numbers, the state of charge is never what the history table
    rejects: after rounding it fits [DECIMAL(5,2)] and satisfies the
    [CHECK] on [0..100].  The tuple is accepted exactly when the
    identifier has at most 100 characters, the energy rounded to 4
    decimals has at most 10 digits, the temperature rounded to 2 decimals
    is below 1000 in magnitude, and the server reads the timestamp. *)
Theorem validated_vehicle_reading_accepted_iff (E : driver) (data : jsval)
    (s : server) (p : vehicle_params) (id : string) (q k t : Q) (now : Z) :
  vehicle_params_of data = inr p ->
  VehicleService.validateVehicleData E data s = (inr tt, s) ->
  p_vehicleId p = JStr id ->
  plain_text id = true ->
  p_soc p = JNum (Fin q) ->
  p_kwhDeliveredDc p = JNum (Fin k) ->
  p_batteryTemp p = JNum (Fin t) ->
  succeeded (vehicle_history_in E now p)
  <-> (String.length id <= 100)%nat
      /\ Z.abs (ROUND_units 4 k) < 10 ^ 10
      /\ Z.abs (ROUND_units 2 t) < 10 ^ 5
      /\ is_Some (timestamptz_of E (p_vehicle_timestamp p)).
Proof.
  intros Hp Hv Hid _ Hq Hk Ht.
  pose proof (validated_vehicle_tuple_accepted E data s p q k t now
                Hp Hv Hq Hk Ht) as Htuple.
  rewrite Hid in Htuple. exact Htuple.
Qed.

Lemma validated_vehicle_reading_accepted_iff_witness :
  succeeded
    (vehicle_history_in example_driver 0
       {| p_vehicleId := JStr "V1"; p_soc := JNum (Fin 40);
          p_kwhDeliveredDc := JNum (Fin 5);
          p_batteryTemp := JNum (Fin 2500);
          p_vehicle_timestamp := JStr "2024-01-01T00:00:00Z" |})
  <-> (String.length "V1" <= 100)%nat
      /\ Z.abs (ROUND_units 4 5) < 10 ^ 10
      /\ Z.abs (ROUND_units 2 2500) < 10 ^ 5
      /\ is_Some (timestamptz_of example_driver
                    (JStr "2024-01-01T00:00:00Z")).
Proof.
  apply (validated_vehicle_reading_accepted_iff example_driver
           (vehicle_payload "V1" 40 5 2500 "2024-01-01T00:00:00Z")
           example_server
           {| p_vehicleId := JStr "V1"; p_soc := JNum (Fin 40);
              p_kwhDeliveredDc := JNum (Fin 5);
              p_batteryTemp := JNum (Fin 2500);
              p_vehicle_timestamp := JStr "2024-01-01T00:00:00Z" |}
           "V1" 40 5 2500 0); vm_compute; reflexivity.
Defined.

(** ** Batches *)

Lemma upserts_lookup {A V} (key : A -> string) (val : A -> V)
    (rows : list A) (m : gmap string V) (k : string) :
  foldl (fun m r => <[key r := val r]> m) m rows !! k
  = match latest key k rows with
    | Some r => Some (val r)
    | None => m !! k
    end.
Proof.
  revert m. induction rows as [|r rows IH]; intros m; [done|].
  simpl. rewrite IH. unfold latest. rewrite filter_cons.
  destruct (decide (key r = k)) as [Hk|Hk].
  - rewrite last_cons.
    destruct (last (filter (fun r0 => key r0 = k) rows)); [done|].
    by rewrite Hk, lookup_insert_eq.
  - destruct (last (filter (fun r0 => key r0 = k) rows)); [done|].
    by rewrite lookup_insert_ne.
Qed.

Lemma vehicle_batch_upserts_state (E : driver) (items : list jsval) :
  forall (c c' : client) (w : db),
    txn c = Active w ->
    for_of items
      (fun vehicle =>
         let! p := lift (vehicle_params_of vehicle) in
         let! _ := client_query E (UpsertVehicleStatus p false) in
         ret tt) c = (inr tt, c') ->
    exists ps rows,
      traverse vehicle_params_of items = inr ps
      /\ traverse (vehicle_history_in E (clock (host c))) ps = inr rows
      /\ txn c'
         = Active
             {| meter_telemetry_history := meter_telemetry_history w;
                vehicle_telemetry_history := vehicle_telemetry_history w;
                meter_current_status := meter_current_status w;
                vehicle_current_status :=
                  vehicle_upserts (clock (host c)) false rows
                                  (vehicle_current_status w);
                vehicle_24h_performance := vehicle_24h_performance w |}.
Proof.
  induction items as [|vehicle items IH]; intros c c' w Htxn Hrun.
  - injection Hrun as <-. exists [], []. simpl. rewrite Htxn.
    by destruct w.
  - simpl in Hrun. unfold bind at 1 in Hrun. unfold bind at 1, lift in Hrun.
    destruct (vehicle_params_of vehicle) as [e|p] eqn:Hp; [discriminate|].
    unfold bind at 1 in Hrun.
    destruct (client_query E (UpsertVehicleStatus p false) c)
      as [[e|r1] c1] eqn:Hq; [discriminate|].
    apply (client_query_active E _ _ _ w) in Hq as (w1 & Hexec & ->);
      [|done|done].
    unfold ret at 1 in Hrun.
    apply (IH _ _ w1) in Hrun as (ps & rows & Hps & Hrows & Htxn');
      [|done].
    cbn [host clock exchanged] in Hrows, Htxn'.
    unfold exec, vehicle_status_in in Hexec.
    destruct (vehicle_history_in E (clock (host c)) p) as [e|row] eqn:Hrow;
      [discriminate|].
    injection Hexec as <- _.
    exists (p :: ps), (row :: rows). simpl. rewrite Hp, Hps, Hrow, Hrows.
    by repeat split.
Qed.

Lemma meter_batch_upserts_state (E : driver) (items : list jsval) :
  forall (c c' : client) (w : db),
    txn c = Active w ->
    for_of items
      (fun meter =>
         let! p := lift (meter_params_of meter) in
         let! _ := client_query E (UpsertMeterStatus p) in
         ret tt) c = (inr tt, c') ->
    exists ps rows,
      traverse meter_params_of items = inr ps
      /\ traverse (meter_history_in E (clock (host c))) ps = inr rows
      /\ txn c'
         = Active
             {| meter_telemetry_history := meter_telemetry_history w;
                vehicle_telemetry_history := vehicle_telemetry_history w;
                meter_current_status :=
                  meter_upserts (clock (host c)) rows
                                (meter_current_status w);
                vehicle_current_status := vehicle_current_status w;
                vehicle_24h_performance := vehicle_24h_performance w |}.
Proof.
  induction items as [|meter items IH]; intros c c' w Htxn Hrun.
  - injection Hrun as <-. exists [], []. simpl. rewrite Htxn.
    by destruct w.
  - simpl in Hrun. unfold bind at 1 in Hrun. unfold bind at 1, lift in Hrun.
    destruct (meter_params_of meter) as [e|p] eqn:Hp; [discriminate|].
    unfold bind at 1 in Hrun.
    destruct (client_query E (UpsertMeterStatus p) c)
      as [[e|r1] c1] eqn:Hq; [discriminate|].
    apply (client_query_active E _ _ _ w) in Hq as (w1 & Hexec & ->);
      [|done|done].
    unfold ret at 1 in Hrun.
    apply (IH _ _ w1) in Hrun as (ps & rows & Hps & Hrows & Htxn');
      [|done].
    cbn [host clock exchanged] in Hrows, Htxn'.
    unfold exec, meter_status_in in Hexec.
    destruct (meter_history_in E (clock (host c)) p) as [e|row] eqn:Hrow;
      [discriminate|].
    injection Hexec as <- _.
    exists (p :: ps), (row :: rows). simpl. rewrite Hp, Hps, Hrow, Hrows.
    by repeat split.
Qed.

Lemma vehicle_batch_state (E : driver) (items : list jsval)
    (s s' : server) (n : nat) :
  items <> [] ->
  VehicleService.ingestBatch E (JArr items) s = (inr n, s') ->
  exists ps rows,
    traverse vehicle_params_of items = inr ps
    /\ traverse (vehicle_history_in E (clock s)) ps = inr rows
    /\ n = length items
    /\ vehicle_telemetry_history (committed s')
       = vehicle_telemetry_history (committed s) ++ rows
    /\ vehicle_current_status (committed s')
       = vehicle_upserts (clock s) false rows
                         (vehicle_current_status (committed s)).
Proof.
  intros Hitems. unfold VehicleService.ingestBatch. cbn [truthy negb].
  unfold bind at 1, lift. cbn [prop String.eqb Ascii.eqb Bool.eqb].
  rewrite (batch_length_not_zero items Hitems).
  intros Htx. apply transaction_success in Htx as (c2 & Hcb & ->).
  unfold bind at 1, lift in Hcb. cbn [iterable] in Hcb.
  unfold bind at 1 in Hcb.
  destruct (traverse vehicle_params_of items) as [e|ps] eqn:Hps;
    [discriminate|].
  unfold bind at 1 in Hcb.
  destruct (client_query E (InsertVehicleHistory ps) _)
    as [[e|r1] c1] eqn:Hq1; [discriminate|].
  apply (client_query_active E _ _ _ (committed s)) in Hq1
    as (w1 & Hexec1 & ->); [|done|done].
  unfold bind at 1 in Hcb.
  destruct (for_of items _ _) as [[e|[]] c3] eqn:Hloop; [discriminate|].
  injection Hcb as <- <-.
  apply (vehicle_batch_upserts_state E items _ _ w1) in Hloop
    as (ps' & rows & Hps' & Hrows & ->); [|done].
  assert (ps' = ps) by congruence. subst ps'.
  cbn [host clock exchanged] in Hexec1, Hrows.
  unfold exec in Hexec1.
  destruct (bound_tuples 5 (vehicle_history_in E (clock s)) ps)
    as [e|rows'] eqn:Hbound; [discriminate|].
  apply bound_tuples_inr in Hbound as [Hrows' _].
  assert (rows' = rows) by congruence. subst rows'.
  injection Hexec1 as <-.
  by exists ps, rows.
Qed.

(** X10.  What a vehicle batch that went through has left.  Every item
    was turned into a tuple and every tuple accepted by the history
    table; the history has gained their rows, in the order of the batch;
    and the status row of each vehicle of the batch is the one of its
    last record in the batch, whatever its timestamp, with
    [is_charging = false].  The status rows of the other vehicles are
    what they were. *)
Theorem vehicle_batch_last_record_wins (E : driver) (items : list jsval)
    (s s' : server) (n : nat) :
  items <> [] ->
  VehicleService.ingestBatch E (JArr items) s = (inr n, s') ->
  exists ps rows,
    traverse vehicle_params_of items = inr ps
    /\ traverse (vehicle_history_in E (clock s)) ps = inr rows
    /\ n = length items
    /\ vehicle_telemetry_history (committed s')
       = vehicle_telemetry_history (committed s) ++ rows
    /\ forall k,
         vehicle_current_status (committed s') !! k
         = match latest vh_vehicle_id k rows with
           | Some row => Some (vehicle_status_of (clock s) row false)
           | None => vehicle_current_status (committed s) !! k
           end.
Proof.
  intros Hitems Hrun.
  apply vehicle_batch_state in Hrun
    as (ps & rows & Hps & Hrows & Hn & Hhistory & Hstatus); [|done].
  exists ps, rows. repeat split; try done.
  intros k. rewrite Hstatus. unfold vehicle_upserts.
  apply (upserts_lookup vh_vehicle_id
           (fun row => vehicle_status_of (clock s) row false)).
Qed.

Lemma vehicle_batch_last_record_wins_witness :
  exists ps rows,
    traverse vehicle_params_of charging_readings = inr ps
    /\ traverse (vehicle_history_in example_driver (clock example_server)) ps
       = inr rows
    /\ 2%nat = length charging_readings
    /\ vehicle_telemetry_history
         (committed
            (VehicleService.ingestBatch example_driver
               (JArr charging_readings) example_server).2)
       = vehicle_telemetry_history (committed example_server) ++ rows
    /\ forall k,
         vehicle_current_status
           (committed
              (VehicleService.ingestBatch example_driver
                 (JArr charging_readings) example_server).2) !! k
         = match latest vh_vehicle_id k rows with
           | Some row =>
               Some (vehicle_status_of (clock example_server) row false)
           | None => vehicle_current_status (committed example_server) !! k
           end.
Proof.
  apply (vehicle_batch_last_record_wins example_driver charging_readings
           example_server).
  - discriminate.
  - vm_compute. reflexivity.
Defined.

Lemma meter_batch_state (E : driver) (items : list jsval)
    (s s' : server) (n : nat) :
  items <> [] ->
  MeterService.ingestBatch E (JArr items) s = (inr n, s') ->
  exists ps rows,
    traverse meter_params_of items = inr ps
    /\ traverse (meter_history_in E (clock s)) ps = inr rows
    /\ n = length items
    /\ meter_telemetry_history (committed s')
       = meter_telemetry_history (committed s) ++ rows
    /\ meter_current_status (committed s')
       = meter_upserts (clock s) rows (meter_current_status (committed s)).
Proof.
  intros Hitems. unfold MeterService.ingestBatch. cbn [truthy negb].
  unfold bind at 1, lift. cbn [prop String.eqb Ascii.eqb Bool.eqb].
  rewrite (batch_length_not_zero items Hitems).
  intros Htx. apply transaction_success in Htx as (c2 & Hcb & ->).
  unfold bind at 1, lift in Hcb. cbn [iterable] in Hcb.
  unfold bind at 1 in Hcb.
  destruct (traverse meter_params_of items) as [e|ps] eqn:Hps;
    [discriminate|].
  unfold bind at 1 in Hcb.
  destruct (client_query E (InsertMeterHistory ps) _)
    as [[e|r1] c1] eqn:Hq1; [discriminate|].
  apply (client_query_active E _ _ _ (committed s)) in Hq1
    as (w1 & Hexec1 & ->); [|done|done].
  unfold bind at 1 in Hcb.
  destruct (for_of items _ _) as [[e|[]] c3] eqn:Hloop; [discriminate|].
  injection Hcb as <- <-.
  apply (meter_batch_upserts_state E items _ _ w1) in Hloop
    as (ps' & rows & Hps' & Hrows & ->); [|done].
  assert (ps' = ps) by congruence. subst ps'.
  cbn [host clock exchanged] in Hexec1, Hrows.
  unfold exec in Hexec1.
  destruct (bound_tuples 4 (meter_history_in E (clock s)) ps)
    as [e|rows'] eqn:Hbound; [discriminate|].
  apply bound_tuples_inr in Hbound as [Hrows' _].
  assert (rows' = rows) by congruence. subst rows'.
  injection Hexec1 as <-.
  by exists ps, rows.
Qed.

(** X11.  What a meter batch that went through has left: the history has
    gained the rows of its records, in the order of the batch, and the
    status row of each meter of the batch is the one of its last record
    in the batch, whatever its timestamp. *)
Theorem meter_batch_last_record_wins (E : driver) (items : list jsval)
    (s s' : server) (n : nat) :
  items <> [] ->
  MeterService.ingestBatch E (JArr items) s = (inr n, s') ->
  exists ps rows,
    traverse meter_params_of items = inr ps
    /\ traverse (meter_history_in E (clock s)) ps = inr rows
    /\ n = length items
    /\ meter_telemetry_history (committed s')
       = meter_telemetry_history (committed s) ++ rows
    /\ forall k,
         meter_current_status (committed s') !! k
         = match latest mh_meter_id k rows with
           | Some row => Some (meter_status_of (clock s) row)
           | None => meter_current_status (committed s) !! k
           end.
Proof.
  intros Hitems Hrun.
  apply meter_batch_state in Hrun
    as (ps & rows & Hps & Hrows & Hn & Hhistory & Hstatus); [|done].
  exists ps, rows. repeat split; try done.
  intros k. rewrite Hstatus. unfold meter_upserts.
  apply (upserts_lookup mh_meter_id
           (fun row => meter_status_of (clock s) row)).
Qed.

Lemma meter_batch_last_record_wins_witness :
  exists ps rows,
    traverse meter_params_of
      [meter_payload "M1" 5 230 "2024-01-01T00:01:00Z";
       meter_payload "M1" 3 229 "2024-01-01T00:00:00Z"] = inr ps
    /\ traverse (meter_history_in example_driver (clock example_server)) ps
       = inr rows
    /\ 2%nat = 2%nat
    /\ meter_telemetry_history
         (committed
            (MeterService.ingestBatch example_driver
               (JArr [meter_payload "M1" 5 230 "2024-01-01T00:01:00Z";
                      meter_payload "M1" 3 229 "2024-01-01T00:00:00Z"])
               example_server).2)
       = meter_telemetry_history (committed example_server) ++ rows
    /\ forall k,
         meter_current_status
           (committed
              (MeterService.ingestBatch example_driver
                 (JArr [meter_payload "M1" 5 230 "2024-01-01T00:01:00Z";
                        meter_payload "M1" 3 229 "2024-01-01T00:00:00Z"])
                 example_server).2) !! k
         = match latest mh_meter_id k rows with
           | Some row => Some (meter_status_of (clock example_server) row)
           | None => meter_current_status (committed example_server) !! k
           end.
Proof.
  apply (meter_batch_last_record_wins example_driver
           [meter_payload "M1" 5 230 "2024-01-01T00:01:00Z";
            meter_payload "M1" 3 229 "2024-01-01T00:00:00Z"]
           example_server).
  - discriminate.
  - vm_compute. reflexivity.
Defined.

Lemma vehicle_batch_upserts_run (E : driver) (items : list jsval) :
  forall (c : client) (w : db) (ps : list vehicle_params)
         (rows : list vehicle_history_row),
    faults (host c) = [] -> txn c = Active w ->
    traverse vehicle_params_of items = inr ps ->
    traverse (vehicle_history_in E (clock (host c))) ps = inr rows ->
    exists c' w',
      for_of items
        (fun vehicle =>
           let! p := lift (vehicle_params_of vehicle) in
           let! _ := client_query E (UpsertVehicleStatus p false) in
           ret tt) c = (inr tt, c')
      /\ faults (host c') = [] /\ txn c' = Active w'.
Proof.
  induction items as [|vehicle items IH]; intros c w ps rows Hf Htxn Hps Hrows.
  - exists c, w. by repeat split.
  - simpl in Hps.
    destruct (vehicle_params_of vehicle) as [e|p] eqn:Hp; [discriminate|].
    destruct (traverse vehicle_params_of items) as [e|ps0] eqn:Hps0;
      [discriminate|].
    injection Hps as <-. simpl in Hrows.
    destruct (vehicle_history_in E (clock (host c)) p) as [e|row] eqn:Hrow;
      [discriminate|].
    destruct (traverse _ ps0) as [e|rows0] eqn:Hrows0; [discriminate|].
    simpl. unfold bind at 1. unfold bind at 1, lift. rewrite Hp.
    unfold bind at 1.
    erewrite client_query_runs;
      [| exact Hf | exact Htxn | done
       | unfold exec;
         rewrite (vehicle_status_in_history E _ _ row false Hrow);
         reflexivity].
    unfold ret at 1.
    eapply IH; [by simpl; rewrite Hf | reflexivity | reflexivity
               | exact Hrows0].
Qed.

Lemma meter_batch_upserts_run (E : driver) (items : list jsval) :
  forall (c : client) (w : db) (ps : list meter_params)
         (rows : list meter_history_row),
    faults (host c) = [] -> txn c = Active w ->
    traverse meter_params_of items = inr ps ->
    traverse (meter_history_in E (clock (host c))) ps = inr rows ->
    exists c' w',
      for_of items
        (fun meter =>
           let! p := lift (meter_params_of meter) in
           let! _ := client_query E (UpsertMeterStatus p) in
           ret tt) c = (inr tt, c')
      /\ faults (host c') = [] /\ txn c' = Active w'.
Proof.
  induction items as [|meter items IH]; intros c w ps rows Hf Htxn Hps Hrows.
  - exists c, w. by repeat split.
  - simpl in Hps.
    destruct (meter_params_of meter) as [e|p] eqn:Hp; [discriminate|].
    destruct (traverse meter_params_of items) as [e|ps0] eqn:Hps0;
      [discriminate|].
    injection Hps as <-. simpl in Hrows.
    destruct (meter_history_in E (clock (host c)) p) as [e|row] eqn:Hrow;
      [discriminate|].
    destruct (traverse _ ps0) as [e|rows0] eqn:Hrows0; [discriminate|].
    simpl. unfold bind at 1. unfold bind at 1, lift. rewrite Hp.
    unfold bind at 1.
    erewrite client_query_runs;
      [| exact Hf | exact Htxn | done
       | unfold exec;
         rewrite (meter_status_in_history E _ _ row Hrow);
         reflexivity].
    unfold ret at 1.
    eapply IH; [by simpl; rewrite Hf | reflexivity | reflexivity
               | exact Hrows0].
Qed.

Lemma vehicle_batch_runs (E : driver) (items : list jsval) (s : server)
    (ps : list vehicle_params) (rows : list vehicle_history_row) :
  items <> [] -> faults s = [] ->
  5 * Z.of_nat (length items) <= max_parameters ->
  traverse vehicle_params_of items = inr ps ->
  traverse (vehicle_history_in E (clock s)) ps = inr rows ->
  exists n s', VehicleService.ingestBatch E (JArr items) s = (inr n, s').
Proof.
  intros Hitems Hf Hfits Hps Hrows.
  rewrite <- (traverse_length _ _ _ Hps) in Hfits.
  unfold VehicleService.ingestBatch. cbn [truthy negb].
  unfold bind at 1. unfold lift at 1.
  cbn [prop String.eqb Ascii.eqb Bool.eqb].
  rewrite (batch_length_not_zero items Hitems).
  set (c1 := {| host := exchanged (exchanged s []) [BEGIN];
                txn := Active (committed s) |}).
  set (w1 := {| meter_telemetry_history :=
                  meter_telemetry_history (committed s);
                vehicle_telemetry_history :=
                  vehicle_telemetry_history (committed s) ++ rows;
                meter_current_status := meter_current_status (committed s);
                vehicle_current_status := vehicle_current_status (committed s);
                vehicle_24h_performance :=
                  vehicle_24h_performance (committed s) |}).
  set (c2 := {| host := exchanged (host c1) [InsertVehicleHistory ps];
                txn := Active w1 |}).
  destruct (vehicle_batch_upserts_run E items c2 w1 ps rows)
    as (c3 & w3 & Hloop & Hf3 & Htxn3);
    [by simpl; rewrite Hf | reflexivity | exact Hps | exact Hrows|].
  eexists _, _. eapply (transaction_runs E _ s _ c3 w3); [exact Hf | | done..].
  unfold bind at 1. unfold lift at 1. cbn [iterable].
  unfold bind at 1. unfold lift at 1. rewrite Hps.
  unfold bind at 1.
  erewrite (client_query_runs E _ c1);
    [| by simpl; rewrite Hf | reflexivity | done
     | cbn [host exchanged clock c1]; unfold exec;
       rewrite (bound_tuples_fits _ _ _ Hfits), Hrows; reflexivity].
  unfold bind at 1. unfold c2, w1 in Hloop. rewrite Hloop. reflexivity.
Qed.

Lemma meter_batch_runs (E : driver) (items : list jsval) (s : server)
    (ps : list meter_params) (rows : list meter_history_row) :
  items <> [] -> faults s = [] ->
  4 * Z.of_nat (length items) <= max_parameters ->
  traverse meter_params_of items = inr ps ->
  traverse (meter_history_in E (clock s)) ps = inr rows ->
  exists n s', MeterService.ingestBatch E (JArr items) s = (inr n, s').
Proof.
  intros Hitems Hf Hfits Hps Hrows.
  rewrite <- (traverse_length _ _ _ Hps) in Hfits.
  unfold MeterService.ingestBatch. cbn [truthy negb].
  unfold bind at 1. unfold lift at 1.
  cbn [prop String.eqb Ascii.eqb Bool.eqb].
  rewrite (batch_length_not_zero items Hitems).
  set (c1 := {| host := exchanged (exchanged s []) [BEGIN];
                txn := Active (committed s) |}).
  set (w1 := {| meter_telemetry_history :=
                  meter_telemetry_history (committed s) ++ rows;
                vehicle_telemetry_history :=
                  vehicle_telemetry_history (committed s);
                meter_current_status := meter_current_status (committed s);
                vehicle_current_status := vehicle_current_status (committed s);
                vehicle_24h_performance :=
                  vehicle_24h_performance (committed s) |}).
  set (c2 := {| host := exchanged (host c1) [InsertMeterHistory ps];
                txn := Active w1 |}).
  destruct (meter_batch_upserts_run E items c2 w1 ps rows)
    as (c3 & w3 & Hloop & Hf3 & Htxn3);
    [by simpl; rewrite Hf | reflexivity | exact Hps | exact Hrows|].
  eexists _, _. eapply (transaction_runs E _ s _ c3 w3); [exact Hf | | done..].
  unfold bind at 1. unfold lift at 1. cbn [iterable].
  unfold bind at 1. unfold lift at 1. rewrite Hps.
  unfold bind at 1.
  erewrite (client_query_runs E _ c1);
    [| by simpl; rewrite Hf | reflexivity | done
     | cbn [host exchanged clock c1]; unfold exec;
       rewrite (bound_tuples_fits _ _ _ Hfits), Hrows; reflexivity].
  unfold bind at 1. unfold c2, w1 in Hloop. rewrite Hloop. reflexivity.
Qed.

(** X12.  A vehicle batch is stored in full or not at all.  Take a
    non-empty batch small enough for one statement (5 parameters a
    record, 65535 at most), whose records have plain identifiers and
    finite numbers where they have any, and a store that fails for no
    reason other than the data.  The batch goes through, with a count of
    all its items, exactly when every item can be turned into a tuple
    and the history table accepts every tuple; one item that is [null],
    or one tuple the history table rejects, and nothing of the batch is
    committed. *)
Theorem vehicle_batch_all_or_nothing (E : driver) (items : list jsval)
    (s : server) :
  items <> [] -> faults s = [] ->
  5 * Z.of_nat (length items) <= max_parameters ->
  Forall (fun item => plain_vehicle_record item = true) items ->
  let accepted :=
    exists ps rows,
      traverse vehicle_params_of items = inr ps
      /\ traverse (vehicle_history_in E (clock s)) ps = inr rows in
  match VehicleService.ingestBatch E (JArr items) s with
  | (inr n, s') => n = length items /\ accepted
  | (inl e, s') => committed s' = committed s /\ ~ accepted
  end.
Proof.
  intros Hitems Hf Hfits _ accepted.
  destruct (VehicleService.ingestBatch E (JArr items) s) as [[e|n] s']
    eqn:Hrun.
  - split; [by eapply vehicle_batch_failure|].
    intros (ps & rows & Hps & Hrows).
    destruct (vehicle_batch_runs E items s ps rows Hitems Hf Hfits Hps Hrows)
      as (n & s'' & Hok).
    congruence.
  - apply vehicle_batch_state in Hrun
      as (ps & rows & Hps & Hrows & Hn & _); [|done].
    split; [done|]. by exists ps, rows.
Qed.

Lemma vehicle_batch_all_or_nothing_witness :
  let accepted :=
    exists ps rows,
      traverse vehicle_params_of
        [vehicle_payload "V1" 40 5 25 "2024-01-01T00:00:00Z";
         vehicle_payload "V2" 40 5 2500 "2024-01-01T00:00:00Z"] = inr ps
      /\ traverse (vehicle_history_in example_driver (clock example_server))
                  ps = inr rows in
  match VehicleService.ingestBatch example_driver
          (JArr [vehicle_payload "V1" 40 5 25 "2024-01-01T00:00:00Z";
                 vehicle_payload "V2" 40 5 2500 "2024-01-01T00:00:00Z"])
          example_server with
  | (inr n, s') => n = 2%nat /\ accepted
  | (inl e, s') => committed s' = committed example_server /\ ~ accepted
  end.
Proof.
  apply (vehicle_batch_all_or_nothing example_driver
           [vehicle_payload "V1" 40 5 25 "2024-01-01T00:00:00Z";
            vehicle_payload "V2" 40 5 2500 "2024-01-01T00:00:00Z"]
           example_server).
  - discriminate.
  - reflexivity.
  - unfold max_parameters. simpl. lia.
  - repeat constructor.
Defined.

(** X13.  A meter batch is stored in full or not at all.  Take a
    non-empty batch small enough for one statement (4 parameters a
    record, 65535 at most), whose records have plain identifiers and
    finite numbers where they have any, and a store that fails for no
    reason other than the data.  The batch goes through, with a count of
    all its items, exactly when every item can be turned into a tuple
    and the history table accepts every tuple; otherwise nothing of the
    batch is committed. *)
Theorem meter_batch_all_or_nothing (E : driver) (items : list jsval)
    (s : server) :
  items <> [] -> faults s = [] ->
  4 * Z.of_nat (length items) <= max_parameters ->
  Forall (fun item => plain_meter_record item = true) items ->
  let accepted :=
    exists ps rows,
      traverse meter_params_of items = inr ps
      /\ traverse (meter_history_in E (clock s)) ps = inr rows in
  match MeterService.ingestBatch E (JArr items) s with
  | (inr n, s') => n = length items /\ accepted
  | (inl e, s') => committed s' = committed s /\ ~ accepted
  end.
Proof.
  intros Hitems Hf Hfits _ accepted.
  destruct (MeterService.ingestBatch E (JArr items) s) as [[e|n] s']
    eqn:Hrun.
  - split; [by eapply meter_batch_failure|].
    intros (ps & rows & Hps & Hrows).
    destruct (meter_batch_runs E items s ps rows Hitems Hf Hfits Hps Hrows)
      as (n & s'' & Hok).
    congruence.
  - apply meter_batch_state in Hrun
      as (ps & rows & Hps & Hrows & Hn & _); [|done].
    split; [done|]. by exists ps, rows.
Qed.

Lemma meter_batch_all_or_nothing_witness :
  let accepted :=
    exists ps rows,
      traverse meter_params_of
        [meter_payload "M1" 5 230 "2024-01-01T00:00:00Z";
         meter_payload "M2" 5 10000000 "2024-01-01T00:00:00Z"] = inr ps
      /\ traverse (meter_history_in example_driver (clock example_server))
                  ps = inr rows in
  match MeterService.ingestBatch example_driver
          (JArr [meter_payload "M1" 5 230 "2024-01-01T00:00:00Z";
                 meter_payload "M2" 5 10000000 "2024-01-01T00:00:00Z"])
          example_server with
  | (inr n, s') => n = 2%nat /\ accepted
  | (inl e, s') => committed s' = committed example_server /\ ~ accepted
  end.
Proof.
  apply (meter_batch_all_or_nothing example_driver
           [meter_payload "M1" 5 230 "2024-01-01T00:00:00Z";
            meter_payload "M2" 5 10000000 "2024-01-01T00:00:00Z"]
           example_server).
  - discriminate.
  - reflexivity.
  - unfold max_parameters. simpl. lia.
  - repeat constructor.
Defined.

(** ** The transaction wrapper *)

Lemma client_query_issued (E : driver) (q : stmt) (c : client) :
  issued (host (client_query E q c).2) = issued (host c) ++ [q].
Proof.
  unfold client_query. destruct (next_fault (host c)); [done|].
  destruct q; destruct (txn c) as [|w|]; try done; cbv zeta;
    match goal with
    | |- context [exec ?E0 ?n ?q0 ?w0] =>
        destruct (exec E0 n q0 w0) as [e|[w' r']]
    end; done.
Qed.

(** X14.  [transaction(callback)] never gives a connection back with a
    transaction left open.  Whatever the callback does, the last
    statement sent is [COMMIT] when [transaction] returns and [ROLLBACK]
    when it throws; and when no connection could be had, it throws
    without having sent anything. *)
Theorem transaction_ends_with_commit_or_rollback (E : driver) {A}
    (callback : M client A) (s : server) :
  match transaction E callback s with
  | (inr _, s') => next_fault s = false /\ last (issued s') = Some COMMIT
  | (inl _, s') =>
      (next_fault s = true /\ issued s' = issued s)
      \/ (next_fault s = false /\ last (issued s') = Some ROLLBACK)
  end.
Proof.
  unfold transaction, pool_connect.
  destruct (next_fault s) eqn:Hconnect.
  { left. split; [done|]. simpl. apply app_nil_r. }
  assert (Hrollback : forall (e : error) (c : client),
             match (match client_query E ROLLBACK c with
                    | (inr _, c'') => (inl e, release c'')
                    | (inl e', c'') => (inl e', release c'')
                    end : (error + A) * server) with
             | (inr _, s') => False
             | (inl _, s') => last (issued s') = Some ROLLBACK
             end).
  { intros e c. pose proof (client_query_issued E ROLLBACK c) as Hi.
    destruct (client_query E ROLLBACK c) as [[e'|r] c'']; simpl in Hi;
      unfold release; rewrite Hi; apply last_snoc. }
  match goal with
  | |- context [bind (client_query E BEGIN) ?k ?c] =>
      destruct (bind (client_query E BEGIN) k c) as [[e|r] c'] eqn:Hrun
  end.
  - specialize (Hrollback e c').
    destruct (client_query E ROLLBACK c') as [[e'|r'] c'']; right; done.
  - split; [done|]. unfold release.
    unfold bind at 1 in Hrun.
    destruct (client_query E BEGIN _) as [[e|r0] c1]; [discriminate|].
    unfold bind at 1 in Hrun.
    destruct (callback c1) as [[e|a] c2]; [discriminate|].
    unfold bind at 1 in Hrun.
    pose proof (client_query_issued E COMMIT c2) as Hi.
    destruct (client_query E COMMIT c2) as [[e|r1] c3]; [discriminate|].
    injection Hrun as _ <-. simpl in Hi. rewrite Hi. apply last_snoc.
Qed.

(** ** Retention: [cleanup_old_data] *)

Lemma filter_length_split {A} (P : A -> Prop) `{!forall x, Decision (P x)}
    (l : list A) :
  length l = (length (filter P l) + length (filter (fun x => ~ P x) l))%nat.
Proof.
  induction l as [|x l IH]; [done|].
  rewrite !filter_cons. destruct (decide (P x)) as [HP|HP].
  - rewrite decide_False by tauto. simpl. lia.
  - rewrite decide_True by done. simpl. lia.
Qed.

Lemma filter_filter_implied {A} (P Q : A -> Prop)
    `{!forall x, Decision (P x)} `{!forall x, Decision (Q x)} (l : list A) :
  (forall x, P x -> Q x) -> filter P (filter Q l) = filter P l.
Proof.
  intros HPQ. induction l as [|x l IH]; [done|].
  rewrite !filter_cons. destruct (decide (Q x)) as [HQ|HQ].
  - rewrite filter_cons. destruct (decide (P x)); by rewrite IH.
  - rewrite decide_False by (intros HP; by apply HQ, HPQ). done.
Qed.

(** X15.  What retention removes.  [cleanup_old_data] reports, for each
    history table, exactly the number of rows by which it has shrunk; the
    rows that remain are those recorded at the cutoff or later, in the
    order they had; the status tables and the materialized view are
    untouched, so a device keeps its current status when all its history
    is gone. *)
Theorem cleanup_old_data_counts (now : Z) (retention_days : option Z)
    (d : db) :
  let cutoff := now - default 90 retention_days * day_ms in
  let d' := (cleanup_old_data now retention_days d).1 in
  let deleted := (cleanup_old_data now retention_days d).2 in
  COUNT (meter_telemetry_history d)
  = deleted.1 + COUNT (meter_telemetry_history d')
  /\ COUNT (vehicle_telemetry_history d)
     = deleted.2 + COUNT (vehicle_telemetry_history d')
  /\ (forall r, r ∈ meter_telemetry_history d'
                <-> r ∈ meter_telemetry_history d /\ cutoff <= mh_recorded_at r)
  /\ (forall r, r ∈ vehicle_telemetry_history d'
                <-> r ∈ vehicle_telemetry_history d
                    /\ cutoff <= vh_recorded_at r)
  /\ meter_telemetry_history d' `sublist_of` meter_telemetry_history d
  /\ vehicle_telemetry_history d' `sublist_of` vehicle_telemetry_history d
  /\ meter_current_status d' = meter_current_status d
  /\ vehicle_current_status d' = vehicle_current_status d
  /\ vehicle_24h_performance d' = vehicle_24h_performance d.
Proof.
  intros cutoff d' deleted. subst d' deleted. unfold cleanup_old_data.
  cbn [fst snd meter_telemetry_history vehicle_telemetry_history
       meter_current_status vehicle_current_status vehicle_24h_performance].
  fold cutoff. unfold COUNT.
  split; [|split; [|split; [|split; [|split; [|split]]]]].
  - rewrite (filter_length_split (fun r => mh_recorded_at r < cutoff)). lia.
  - rewrite (filter_length_split (fun r => vh_recorded_at r < cutoff)). lia.
  - intros r. rewrite list_elem_of_filter. split; intros [H1 H2]; split;
      try done; lia.
  - intros r. rewrite list_elem_of_filter. split; intros [H1 H2]; split;
      try done; lia.
  - apply sublist_filter.
  - apply sublist_filter.
  - done.
Qed.

(** X16.  Retention is idempotent, and monotone in the cutoff: after a
    clean-up, a clean-up with the same or an earlier cutoff deletes no
    row and changes nothing. *)
Theorem cleanup_old_data_idempotent (now now' : Z)
    (retention_days retention_days' : option Z) (d : db) :
  now' - default 90 retention_days' * day_ms
  <= now - default 90 retention_days * day_ms ->
  cleanup_old_data now' retention_days'
    (cleanup_old_data now retention_days d).1
  = ((cleanup_old_data now retention_days d).1, (0, 0)).
Proof.
  intros Hcut. unfold cleanup_old_data.
  cbn [fst meter_telemetry_history vehicle_telemetry_history
       meter_current_status vehicle_current_status vehicle_24h_performance].
  set (cutoff := now - default 90 retention_days * day_ms) in *.
  set (cutoff' := now' - default 90 retention_days' * day_ms) in *.
  assert (Hm1 : filter (fun r => mh_recorded_at r < cutoff')
                  (filter (fun r => ~ mh_recorded_at r < cutoff)
                          (meter_telemetry_history d)) = []).
  { apply filter_none. apply Forall_forall. intros r Hr.
    apply list_elem_of_filter in Hr as [Hr _]. lia. }
  assert (Hv1 : filter (fun r => vh_recorded_at r < cutoff')
                  (filter (fun r => ~ vh_recorded_at r < cutoff)
                          (vehicle_telemetry_history d)) = []).
  { apply filter_none. apply Forall_forall. intros r Hr.
    apply list_elem_of_filter in Hr as [Hr _]. lia. }
  assert (Hm2 : filter (fun r => ~ mh_recorded_at r < cutoff')
                  (filter (fun r => ~ mh_recorded_at r < cutoff)
                          (meter_telemetry_history d))
                = filter (fun r => ~ mh_recorded_at r < cutoff)
                         (meter_telemetry_history d)).
  { apply filter_all. apply Forall_forall. intros r Hr.
    apply list_elem_of_filter in Hr as [Hr _]. lia. }
  assert (Hv2 : filter (fun r => ~ vh_recorded_at r < cutoff')
                  (filter (fun r => ~ vh_recorded_at r < cutoff)
                          (vehicle_telemetry_history d))
                = filter (fun r => ~ vh_recorded_at r < cutoff)
                         (vehicle_telemetry_history d)).
  { apply filter_all. apply Forall_forall. intros r Hr.
    apply list_elem_of_filter in Hr as [Hr _]. lia. }
  by rewrite Hm1, Hv1, Hm2, Hv2.
Qed.

Lemma cleanup_old_data_idempotent_witness :
  cleanup_old_data (T0 + 120000) None
    (cleanup_old_data (T0 + 120000) (Some 0) example_db).1
  = ((cleanup_old_data (T0 + 120000) (Some 0) example_db).1, (0, 0)).
Proof.
  apply (cleanup_old_data_idempotent (T0 + 120000) (T0 + 120000)
           (Some 0) None example_db).
  vm_compute. discriminate.
Defined.

(** X17.  Retention of a day or more does not change the analytics.
    After [cleanup_old_data] with [retention_days >= 1] (the default is
    90), the query that defines [vehicle_24h_performance], evaluated at
    the time of the clean-up or later, gives the rows it gave before, and
    [getVehiclePerformance] answers as before for every vehicle, on the
    summary path and on the fallback. *)
Theorem cleanup_keeps_the_24h_window (now now' : Z)
    (retention_days : option Z) (d : db) :
  1 <= default 90 retention_days -> now <= now' ->
  let d' := (cleanup_old_data now retention_days d).1 in
  vehicle_24h_performance_def now' d' = vehicle_24h_performance_def now' d
  /\ forall vehicleId,
       AnalyticsService.getVehiclePerformance now' d' vehicleId
       = AnalyticsService.getVehiclePerformance now' d vehicleId.
Proof.
  intros Hdays Hnow d'. subst d'. unfold cleanup_old_data. cbn [fst].
  set (cutoff := now - default 90 retention_days * day_ms).
  assert (Hcut : cutoff <= now' - day_ms).
  { subst cutoff. unfold day_ms. lia. }
  split.
  - unfold vehicle_24h_performance_def, vehicle_dc_totals, meter_ac_totals.
    cbn [meter_telemetry_history vehicle_telemetry_history].
    rewrite (filter_filter_implied
               (fun r => now' - day_ms <= vh_recorded_at r)
               (fun r => ~ vh_recorded_at r < cutoff)) by (intros r; lia).
    rewrite (filter_filter_implied
               (fun r => now' - day_ms <= mh_recorded_at r)
               (fun r => ~ mh_recorded_at r < cutoff)) by (intros r; lia).
    done.
  - intros vehicleId.
    unfold AnalyticsService.getVehiclePerformance,
      AnalyticsService.select_performance,
      AnalyticsService.computePerformanceOnDemand,
      AnalyticsService.computePerformanceOnDemand_with.
    cbn [meter_telemetry_history vehicle_telemetry_history
         vehicle_24h_performance].
    rewrite (filter_filter_implied
               (fun r => vh_vehicle_id r = vehicleId
                         /\ now' - day_ms <= vh_recorded_at r)
               (fun r => ~ vh_recorded_at r < cutoff)) by (intros r; lia).
    rewrite (filter_filter_implied
               (fun r => mh_meter_id r = vehicleId
                         /\ now' - day_ms <= mh_recorded_at r)
               (fun r => ~ mh_recorded_at r < cutoff)) by (intros r; lia).
    done.
Qed.

Lemma cleanup_keeps_the_24h_window_witness :
  let d' := (cleanup_old_data (T0 + 120000) (Some 1) example_db).1 in
  vehicle_24h_performance_def (T0 + 120000) d'
  = vehicle_24h_performance_def (T0 + 120000) example_db
  /\ forall vehicleId,
       AnalyticsService.getVehiclePerformance (T0 + 120000) d' vehicleId
       = AnalyticsService.getVehiclePerformance (T0 + 120000) example_db
           vehicleId.
Proof.
  apply (cleanup_keeps_the_24h_window (T0 + 120000) (T0 + 120000) (Some 1)
           example_db).
  - vm_compute. discriminate.
  - vm_compute. discriminate.
Defined.

(** ** System statistics *)

(** X18.  The figures of [getSystemStats] are whole numbers, none of them
    negative and none [NaN]: the number of status rows of each kind, the
    number of history rows of each kind, their sum as [totalRecords], and
    1440 times the number of devices as [estimatedDailyRecords]. *)
Theorem getSystemStats_figures (d : db) :
  exists m v mh vh : Z,
    0 <= m /\ 0 <= v /\ 0 <= mh /\ 0 <= vh
    /\ m = Z.of_nat (size (meter_current_status d))
    /\ v = Z.of_nat (size (vehicle_current_status d))
    /\ mh = Z.of_nat (length (meter_telemetry_history d))
    /\ vh = Z.of_nat (length (vehicle_telemetry_history d))
    /\ AnalyticsService.getSystemStats d
       = {| AnalyticsService.totalMeters := Fin (inject_Z m);
            AnalyticsService.totalVehicles := Fin (inject_Z v);
            AnalyticsService.meterHistoryCount := Fin (inject_Z mh);
            AnalyticsService.vehicleHistoryCount := Fin (inject_Z vh);
            AnalyticsService.totalRecords := Fin (inject_Z (mh + vh));
            AnalyticsService.estimatedDailyRecords :=
              Fin (inject_Z ((m + v) * 1440)) |}.
Proof.
  eexists _, _, _, _.
  split; [apply Nat2Z.is_nonneg|]. split; [apply Nat2Z.is_nonneg|].
  split; [apply Nat2Z.is_nonneg|]. split; [apply Nat2Z.is_nonneg|].
  split; [reflexivity|]. split; [reflexivity|].
  split; [reflexivity|]. split; [reflexivity|].
  unfold AnalyticsService.getSystemStats, get_system_stats, COUNT.
  cbn [total_meters total_vehicles meter_history_count vehicle_history_count
       total_records].
  unfold parseInt, bigint_datum. rewrite !Qtrunc_inject_Z.
  unfold js_add, js_mul. do 2 f_equal.
  unfold Qplus, Qmult, inject_Z. cbn [Qnum Qden]. f_equal. lia.
Qed.

Lemma ingestTelemetry_failure_keeps (E : driver) (telemetryData : jsval)
    (s : server) :
  match IngestionController.ingestTelemetry E telemetryData s with
  | (Reply _ _, _) => True
  | (Failure _ _, s') => committed s' = committed s
  end.
Proof.
  unfold IngestionController.ingestTelemetry.
  destruct (negb (truthy telemetryData) || _); [done|].
  destruct (identifyTelemetryType telemetryData) as [e|[| |]]; try done.
  - destruct (MeterService.ingest E telemetryData s) as [[e|r] s'] eqn:Hrun;
      [|done].
    by eapply meter_ingest_failure.
  - destruct (VehicleService.ingest E telemetryData s) as [[e|r] s'] eqn:Hrun;
      [|done].
    by eapply vehicle_ingest_failure.
Qed.

Lemma validateMeterData_id (E : driver) {S} (data : jsval) (s s' : S)
    (p : meter_params) :
  meter_params_of data = inr p ->
  MeterService.validateMeterData E data s = (inr tt, s') ->
  exists id, p_meterId p = JStr id /\ id <> "".
Proof.
  intros Hp. unfold MeterService.validateMeterData, bind, lift, throw.
  rewrite Hp.
  destruct (negb (truthy (p_meterId p)) || not_string (p_meterId p))
    eqn:Hid; [discriminate|].
  intros _. apply orb_false_iff in Hid as [Htruthy Hstring].
  destruct (p_meterId p) as [| | | |id| |]; try discriminate.
  exists id. split; [done|]. simpl in Htruthy. intros ->. discriminate.
Qed.

Lemma meter_ingest_validated (E : driver) (data : jsval) (s s' : server)
    (r : MeterService.receipt) :
  MeterService.ingest E data s = (inr r, s') ->
  MeterService.validateMeterData E data s = (inr tt, s).
Proof.
  unfold MeterService.ingest. unfold bind at 1, lift.
  destruct (meter_params_of data) as [e|p]; [discriminate|].
  unfold bind at 1.
  destruct (validateMeterData_pure E (S := server) data) as (res & Hres).
  rewrite Hres. destruct res as [e|[]]; [discriminate|]. done.
Qed.

Lemma meter_history_in_key (E : driver) (now : Z) (p : meter_params)
    (row : meter_history_row) :
  meter_history_in E now p = inr row ->
  mh_meter_id row = param_text E (p_meterId p).
Proof.
  unfold meter_history_in, varchar_in.
  destruct (is_null (p_meterId p)); [discriminate|].
  destruct (Nat.leb (String.length (param_text E (p_meterId p))) 100);
    [|discriminate].
  repeat match goal with
         | |- context [match ?x with inl _ => _ | inr _ => _ end] =>
             destruct x; [discriminate|]
         end.
  by intros [= <-].
Qed.

(** X19.  The statistics follow the ingestion.  A reading that
    [POST /v1/ingest] answers with 201 raises the history count of its
    kind and [total_records] by exactly one; the number of devices of its
    kind goes up by one when the status table of that kind had no row
    under the identifier of the reading, and stays as it was when it had
    one (for an identifier within the 100 characters of the column); the
    figures of the other kind do not move.  A request answered with 400
    leaves every figure as it was. *)
Theorem stats_follow_ingestTelemetry (E : driver) (telemetryData : jsval)
    (s : server) :
  let before := get_system_stats (committed s) in
  let after :=
    get_system_stats
      (committed (IngestionController.ingestTelemetry E telemetryData s).2) in
  match (IngestionController.ingestTelemetry E telemetryData s).1 with
  | Reply _ (IngestionController.MeterStored r) =>
      meter_history_count after = meter_history_count before + 1
      /\ vehicle_history_count after = vehicle_history_count before
      /\ total_records after = total_records before + 1
      /\ total_vehicles after = total_vehicles before
      /\ exists id,
           MeterService.meterId r = JStr id
           /\ ((String.length id <= 100)%nat ->
               total_meters after
               = total_meters before
                 + match meter_current_status (committed s) !! id with
                   | Some _ => 0
                   | None => 1
                   end)
  | Reply _ (IngestionController.VehicleStored r) =>
      vehicle_history_count after = vehicle_history_count before + 1
      /\ meter_history_count after = meter_history_count before
      /\ total_records after = total_records before + 1
      /\ total_meters after = total_meters before
      /\ exists id,
           VehicleService.vehicleId r = JStr id
           /\ ((String.length id <= 100)%nat ->
               total_vehicles after
               = total_vehicles before
                 + match vehicle_current_status (committed s) !! id with
                   | Some _ => 0
                   | None => 1
                   end)
  | Failure _ _ => after = before
  end.
Proof.
  intros before after. subst before after.
  pose proof (ingestTelemetry_failure_keeps E telemetryData s) as Hfail.
  unfold IngestionController.ingestTelemetry in *.
  destruct (negb (truthy telemetryData) || _); [done|].
  destruct (identifyTelemetryType telemetryData) as [e|[| |]]; try done.
  - destruct (MeterService.ingest E telemetryData s) as [[e|r] s'] eqn:Hrun;
      simpl in *; [by rewrite Hfail|].
    pose proof (meter_ingest_validated E _ _ _ _ Hrun) as Hv.
    apply meter_ingest_success in Hrun as (p & row & Hp & Hrow & -> & ->).
    destruct (validateMeterData_id E _ _ _ p Hp Hv) as (id & Hid & _).
    pose proof (meter_history_in_key E _ _ _ Hrow) as Hkey.
    rewrite Hid in Hkey. simpl in Hkey.
    unfold get_system_stats, COUNT. simpl. rewrite length_app. simpl.
    repeat (split; [lia|]).
    exists id. split; [done|]. intros _.
    pose proof (map_size_insert (mh_meter_id row)
                  (meter_status_of (clock s) row)
                  (meter_current_status (committed s))) as Hsize.
    rewrite Hkey in Hsize |- *.
    destruct (meter_current_status (committed s) !! id);
      simpl in Hsize; rewrite Hsize; lia.
  - destruct (VehicleService.ingest E telemetryData s) as [[e|r] s'] eqn:Hrun;
      simpl in *; [by rewrite Hfail|].
    pose proof (vehicle_ingest_validated E _ _ _ _ Hrun) as Hv.
    apply vehicle_ingest_success in Hrun as (p & row & Hp & Hrow & -> & ->).
    destruct (validateVehicleData_ok E _ _ _ Hv)
      as (p' & id & soc & Hp' & Hid & _).
    assert (p' = p) by congruence. subst p'.
    destruct (vehicle_history_in_key E _ _ _ Hrow) as [_ Hkey].
    rewrite Hid in Hkey. simpl in Hkey.
    unfold get_system_stats, COUNT. simpl. rewrite length_app. simpl.
    repeat (split; [lia|]).
    exists id. split; [done|]. intros _. rewrite <- Hkey.
    match goal with
    | |- context [size (<[?k := ?v]> ?m)] =>
        pose proof (map_size_insert k v m) as Hsize; revert Hsize;
        generalize v; intros v0 Hsize;
        destruct (m !! k); simpl in Hsize; rewrite Hsize; lia
    end.
Qed.

(** ** Reading back: [getHistory] and [getStatus] *)

#[local] Instance meter_later_first_transitive :
  Transitive MeterService.later_first.
Proof. intros r1 r2 r3. unfold MeterService.later_first. lia. Qed.

#[local] Instance meter_later_first_total : Total MeterService.later_first.
Proof. intros r1 r2. unfold MeterService.later_first. lia. Qed.

#[local] Instance vehicle_later_first_transitive :
  Transitive VehicleService.later_first.
Proof. intros r1 r2 r3. unfold VehicleService.later_first. lia. Qed.

#[local] Instance vehicle_later_first_total : Total VehicleService.later_first.
Proof. intros r1 r2. unfold VehicleService.later_first. lia. Qed.

(** X20.  [MeterService.getHistory] returns exactly the history rows of
    the meter recorded between the two bounds, both bounds included: each
    such row as many times as the table holds it, no other row, the
    latest first.  With the bounds the wrong way round it returns
    nothing. *)
Theorem meter_getHistory_exact (d : db) (meterId : string)
    (startTime endTime : Z) :
  let rows := MeterService.getHistory d meterId startTime endTime in
  rows ≡ₚ filter (fun r => mh_meter_id r = meterId
                           /\ startTime <= mh_recorded_at r <= endTime)
                 (meter_telemetry_history d)
  /\ (forall r, r ∈ rows
                <-> r ∈ meter_telemetry_history d
                    /\ mh_meter_id r = meterId
                    /\ startTime <= mh_recorded_at r <= endTime)
  /\ StronglySorted (fun r1 r2 => mh_recorded_at r2 <= mh_recorded_at r1) rows
  /\ (endTime < startTime -> rows = []).
Proof.
  intros rows. subst rows. unfold MeterService.getHistory.
  set (selected := filter _ (meter_telemetry_history d)).
  assert (Hperm : merge_sort MeterService.later_first selected ≡ₚ selected)
    by apply merge_sort_Permutation.
  split; [done|]. split; [|split].
  - intros r. rewrite Hperm. unfold selected.
    rewrite list_elem_of_filter. tauto.
  - apply (StronglySorted_merge_sort MeterService.later_first).
  - intros Hwrong. apply Permutation_nil_r. rewrite Hperm. unfold selected.
    rewrite filter_none; [done|]. apply Forall_forall. intros r _. lia.
Qed.

(** X21.  [VehicleService.getHistory] returns exactly the history rows of
    the vehicle recorded between the two bounds, both bounds included:
    each such row as many times as the table holds it, no other row, the
    latest first.  With the bounds the wrong way round it returns
    nothing. *)
Theorem vehicle_getHistory_exact (d : db) (vehicleId : string)
    (startTime endTime : Z) :
  let rows := VehicleService.getHistory d vehicleId startTime endTime in
  rows ≡ₚ filter (fun r => vh_vehicle_id r = vehicleId
                           /\ startTime <= vh_recorded_at r <= endTime)
                 (vehicle_telemetry_history d)
  /\ (forall r, r ∈ rows
                <-> r ∈ vehicle_telemetry_history d
                    /\ vh_vehicle_id r = vehicleId
                    /\ startTime <= vh_recorded_at r <= endTime)
  /\ StronglySorted (fun r1 r2 => vh_recorded_at r2 <= vh_recorded_at r1) rows
  /\ (endTime < startTime -> rows = []).
Proof.
  intros rows. subst rows. unfold VehicleService.getHistory.
  set (selected := filter _ (vehicle_telemetry_history d)).
  assert (Hperm : merge_sort VehicleService.later_first selected ≡ₚ selected)
    by apply merge_sort_Permutation.
  split; [done|]. split; [|split].
  - intros r. rewrite Hperm. unfold selected.
    rewrite list_elem_of_filter. tauto.
  - apply (StronglySorted_merge_sort VehicleService.later_first).
  - intros Hwrong. apply Permutation_nil_r. rewrite Hperm. unfold selected.
    rewrite filter_none; [done|]. apply Forall_forall. intros r _. lia.
Qed.

Lemma meter_history_in_finite (E : driver) (now : Z) (p : meter_params)
    (id : string) (k v : Q) (row : meter_history_row) :
  p_meterId p = JStr id ->
  p_kwhConsumedAc p = JNum (Fin k) ->
  p_voltage p = JNum (Fin v) ->
  meter_history_in E now p = inr row ->
  exists t,
    timestamptz_of E (p_meter_timestamp p) = Some t
    /\ row = {| mh_meter_id := id;
                mh_kwh_consumed_ac := ROUND k 4;
                mh_voltage := ROUND v 2;
                mh_recorded_at := t;
                mh_ingested_at := now |}.
Proof.
  intros Hid Hk Hv.
  unfold meter_history_in, varchar_in, decimal_in, timestamptz_in.
  rewrite Hid, Hk, Hv. cbn [is_null param_text].
  destruct (Nat.leb (String.length id) 100); [|discriminate].
  destruct (Z.abs (ROUND_units 4 k) <? 10 ^ Z.of_nat 10); [|discriminate].
  destruct (Z.abs (ROUND_units 2 v) <? 10 ^ Z.of_nat 8); [|discriminate].
  destruct (is_null (p_meter_timestamp p)); [discriminate|].
  destruct (timestamptz_of E (p_meter_timestamp p)) as [t|]; [|discriminate].
  intros [= <-]. by exists t.
Qed.

Lemma vehicle_history_in_finite (E : driver) (now : Z) (p : vehicle_params)
    (id : string) (q k t : Q) (row : vehicle_history_row) :
  p_vehicleId p = JStr id ->
  p_soc p = JNum (Fin q) ->
  p_kwhDeliveredDc p = JNum (Fin k) ->
  p_batteryTemp p = JNum (Fin t) ->
  vehicle_history_in E now p = inr row ->
  exists ts,
    timestamptz_of E (p_vehicle_timestamp p) = Some ts
    /\ row = {| vh_vehicle_id := id;
                vh_soc := ROUND q 2;
                vh_kwh_delivered_dc := ROUND k 4;
                vh_battery_temp := ROUND t 2;
                vh_recorded_at := ts;
                vh_ingested_at := now |}.
Proof.
  intros Hid Hq Hk Ht.
  unfold vehicle_history_in, varchar_in, decimal_in, timestamptz_in,
    soc_check.
  rewrite Hid, Hq, Hk, Ht. cbn [is_null param_text].
  destruct (Nat.leb (String.length id) 100); [|discriminate].
  destruct (Z.abs (ROUND_units 2 q) <? 10 ^ Z.of_nat 5); [|discriminate].
  destruct (Qle_bool 0 (of_units 2 (ROUND_units 2 q))
            && Qle_bool (of_units 2 (ROUND_units 2 q)) 100); [|discriminate].
  destruct (Z.abs (ROUND_units 4 k) <? 10 ^ Z.of_nat 10); [|discriminate].
  destruct (Z.abs (ROUND_units 2 t) <? 10 ^ Z.of_nat 5); [|discriminate].
  destruct (is_null (p_vehicle_timestamp p)); [discriminate|].
  destruct (timestamptz_of E (p_vehicle_timestamp p)) as [ts|];
    [|discriminate].
  intros [= <-]. by exists ts.
Qed.

(** X22.  A reading that [POST /v1/ingest] has answered with 201 can be
    read back.  The identifier of the payload is a string, and the
    receipt carries it.  When it has at most 100 characters and the
    measurements are finite numbers, the store has read the timestamp as
    an instant, [GET /v1/ingest/status] answers 200 under that identifier
    with the reading as the current status (each measurement rounded to
    the scale of its column, the instant of the reading, the time of the
    ingest, and for a vehicle the flag of the receipt), and [getHistory]
    returns the row of the reading for every interval that holds its
    instant. *)
Theorem stored_reading_is_read_back (E : driver) (telemetryData : jsval)
    (s : server) :
  match IngestionController.ingestTelemetry E telemetryData s with
  | (Reply _ (IngestionController.MeterStored r), s') =>
      exists p id,
        meter_params_of telemetryData = inr p
        /\ p_meterId p = JStr id
        /\ MeterService.meterId r = JStr id
        /\ forall k v,
             p_kwhConsumedAc p = JNum (Fin k) ->
             p_voltage p = JNum (Fin v) ->
             (String.length id <= 100)%nat ->
             exists t,
               timestamptz_of E (p_meter_timestamp p) = Some t
               /\ let row := {| mh_meter_id := id;
                                mh_kwh_consumed_ac := ROUND k 4;
                                mh_voltage := ROUND v 2;
                                mh_recorded_at := t;
                                mh_ingested_at := clock s |} in
                  IngestionController.getStatus (committed s') "meter" id
                  = Reply 200
                      (IngestionController.MeterStatus
                         {| ms_kwh_consumed_ac := ROUND k 4;
                            ms_voltage := ROUND v 2;
                            ms_last_updated := t;
                            ms_ingested_at := clock s |})
                  /\ forall startTime endTime,
                       startTime <= t <= endTime ->
                       row ∈ MeterService.getHistory (committed s') id
                               startTime endTime
  | (Reply _ (IngestionController.VehicleStored r), s') =>
      exists p id,
        vehicle_params_of telemetryData = inr p
        /\ p_vehicleId p = JStr id
        /\ VehicleService.vehicleId r = JStr id
        /\ forall q k t,
             p_soc p = JNum (Fin q) ->
             p_kwhDeliveredDc p = JNum (Fin k) ->
             p_batteryTemp p = JNum (Fin t) ->
             (String.length id <= 100)%nat ->
             exists ts,
               timestamptz_of E (p_vehicle_timestamp p) = Some ts
               /\ let row := {| vh_vehicle_id := id;
                                vh_soc := ROUND q 2;
                                vh_kwh_delivered_dc := ROUND k 4;
                                vh_battery_temp := ROUND t 2;
                                vh_recorded_at := ts;
                                vh_ingested_at := clock s |} in
                  IngestionController.getStatus (committed s') "vehicle" id
                  = Reply 200
                      (IngestionController.VehicleStatus
                         {| vs_soc := ROUND q 2;
                            vs_kwh_delivered_dc := ROUND k 4;
                            vs_battery_temp := ROUND t 2;
                            vs_last_updated := ts;
                            vs_ingested_at := clock s;
                            vs_is_charging := VehicleService.isCharging r |})
                  /\ forall startTime endTime,
                       startTime <= ts <= endTime ->
                       row ∈ VehicleService.getHistory (committed s') id
                               startTime endTime
  | (Failure _ _, _) => True
  end.
Proof.
  unfold IngestionController.ingestTelemetry.
  destruct (negb (truthy telemetryData) || _); [done|].
  destruct (identifyTelemetryType telemetryData) as [e|[| |]]; try done.
  - destruct (MeterService.ingest E telemetryData s) as [[e|r] s'] eqn:Hrun;
      [done|].
    pose proof (meter_ingest_validated E _ _ _ _ Hrun) as Hv.
    apply meter_ingest_success in Hrun as (p & row & Hp & Hrow & -> & ->).
    destruct (validateMeterData_id E _ _ _ p Hp Hv) as (id & Hid & _).
    exists p, id. split; [done|]. split; [done|]. split; [done|].
    intros k v Hk Hvolt _.
    destruct (meter_history_in_finite E _ _ id k v row Hid Hk Hvolt Hrow)
      as (t & Ht & ->).
    exists t. split; [done|]. cbv zeta. split.
    + unfold IngestionController.getStatus, MeterService.getCurrentStatus.
      simpl. by rewrite lookup_insert_eq.
    + intros t0 t1 Hin. unfold MeterService.getHistory.
      rewrite merge_sort_Permutation. apply list_elem_of_filter.
      split; [done|]. simpl. apply elem_of_app. right.
      apply list_elem_of_here.
  - destruct (VehicleService.ingest E telemetryData s) as [[e|r] s'] eqn:Hrun;
      [done|].
    pose proof (vehicle_ingest_validated E _ _ _ _ Hrun) as Hv.
    apply vehicle_ingest_success in Hrun as (p & row & Hp & Hrow & -> & ->).
    destruct (validateVehicleData_ok E _ _ _ Hv)
      as (p' & id & soc & Hp' & Hid & _).
    assert (p' = p) by congruence. subst p'.
    exists p, id. split; [done|]. split; [done|]. split; [done|].
    intros q k t Hq Hk Ht _.
    destruct (vehicle_history_in_finite E _ _ id q k t row Hid Hq Hk Ht Hrow)
      as (ts & Hts & ->).
    exists ts. split; [done|]. cbv zeta. split.
    + unfold IngestionController.getStatus, VehicleService.getCurrentStatus.
      simpl. by rewrite lookup_insert_eq.
    + intros t0 t1 Hin. unfold VehicleService.getHistory.
      rewrite merge_sort_Permutation. apply list_elem_of_filter.
      split; [done|]. simpl. apply elem_of_app. right.
      apply list_elem_of_here.
Qed.

(** X23.  What [GET /v1/ingest/status/:type/:id] answers.  It is 200 with
    the status row exactly when the type is [meter] or [vehicle] and the
    status table of that type has a row under the identifier; 404 when
    the type is one of the two and there is no such row; and 400 for any
    other type, whatever the identifier. *)
Theorem getStatus_answers (d : db) (type id : string) :
  match IngestionController.getStatus d type id with
  | Reply st (IngestionController.MeterStatus row) =>
      st = 200%nat /\ type = "meter"
      /\ meter_current_status d !! id = Some row
  | Reply st (IngestionController.VehicleStatus row) =>
      st = 200%nat /\ type = "vehicle"
      /\ vehicle_current_status d !! id = Some row
  | Failure st _ =>
      (st = 404%nat
       /\ ((type = "meter" /\ meter_current_status d !! id = None)
           \/ (type = "vehicle" /\ vehicle_current_status d !! id = None)))
      \/ (st = 400%nat /\ type <> "meter" /\ type <> "vehicle")
  end.
Proof.
  unfold IngestionController.getStatus, MeterService.getCurrentStatus,
    VehicleService.getCurrentStatus.
  destruct (String.eqb_spec type "meter") as [->|Hm].
  { destruct (meter_current_status d !! id) as [row|] eqn:Hrow; [done|].
    left. split; [done|]. by left. }
  destruct (String.eqb_spec type "vehicle") as [->|Hv].
  { destruct (vehicle_current_status d !! id) as [row|] eqn:Hrow; [done|].
    left. split; [done|]. by right. }
  by right.
Qed.

(** ** The materialized view and its readers *)

Lemma NoDup_fmap_filter {A} (key : A -> string) (l : list A) :
  (forall k, (length (filter (fun r => key r = k) l) <= 1)%nat) ->
  NoDup (key <$> l).
Proof.
  induction l as [|x l IH]; intros Hone; [constructor|].
  simpl. constructor.
  - intros Hin. apply list_elem_of_fmap in Hin as (y & Hy & Hyl).
    specialize (Hone (key x)). rewrite filter_cons_True in Hone by done.
    assert (Hyf : y ∈ filter (fun r => key r = key x) l)
      by (apply list_elem_of_filter; split; [by symmetry | done]).
    destruct (filter (fun r => key r = key x) l) as [|z l'].
    + by apply not_elem_of_nil in Hyf.
    + simpl in Hone. lia.
  - apply IH. intros k. specialize (Hone k). rewrite filter_cons in Hone.
    destruct (decide (key x = k)); simpl in Hone; lia.
Qed.

(** X24.  The view as a refresh computes it has one row per vehicle: no
    two rows have the same [vehicle_id] (the unique index
    [idx_vehicle_24h_perf] cannot be violated), and a device has a row
    exactly when the vehicle history holds a reading of it from the last
    24 hours.  A device with meter readings only has none. *)
Theorem view_has_one_row_per_vehicle (now : Z) (d : db) :
  NoDup (perf_vehicle_id <$> vehicle_24h_performance_def now d)
  /\ forall k,
       k ∈ perf_vehicle_id <$> vehicle_24h_performance_def now d
       <-> exists r, r ∈ vehicle_telemetry_history d
                     /\ vh_vehicle_id r = k
                     /\ now - day_ms <= vh_recorded_at r.
Proof.
  assert (Hsel : forall k,
             filter (fun r => perf_vehicle_id r = k)
                    (vehicle_24h_performance_def now d)
             = AnalyticsService.select_performance (refresh_analytics now d) k)
    by done.
  split.
  - apply NoDup_fmap_filter. intros k. rewrite Hsel.
    rewrite select_performance_refreshed. cbv zeta.
    destruct (filter _ (vehicle_telemetry_history d)); simpl; lia.
  - intros k. split.
    + intros Hin. apply list_elem_of_fmap in Hin as (row & Hk & Hrow).
      assert (Hf : row ∈ filter (fun r => perf_vehicle_id r = k)
                                (vehicle_24h_performance_def now d))
        by (apply list_elem_of_filter; split; [by symmetry | done]).
      rewrite Hsel, select_performance_refreshed in Hf. cbv zeta in Hf.
      destruct (filter (fun r => vh_vehicle_id r = k
                                 /\ now - day_ms <= vh_recorded_at r)
                       (vehicle_telemetry_history d)) as [|r rest] eqn:Hg.
      { by apply not_elem_of_nil in Hf. }
      assert (Hr : r ∈ r :: rest) by apply list_elem_of_here.
      rewrite <- Hg in Hr. apply list_elem_of_filter in Hr as [[H1 H2] H3].
      by exists r.
    + intros (r & Hr & Hk & Hwin).
      assert (Hg : r ∈ filter (fun r => vh_vehicle_id r = k
                                        /\ now - day_ms <= vh_recorded_at r)
                              (vehicle_telemetry_history d))
        by (by apply list_elem_of_filter).
      pose proof (select_performance_refreshed now d k) as Hrow.
      cbv zeta in Hrow. rewrite <- Hsel in Hrow.
      destruct (filter (fun r => vh_vehicle_id r = k
                                 /\ now - day_ms <= vh_recorded_at r)
                       (vehicle_telemetry_history d)) as [|r0 rest].
      { by apply not_elem_of_nil in Hg. }
      match type of Hrow with
      | _ = [?row] =>
          assert (Hin : row ∈ filter (fun r => perf_vehicle_id r = k)
                                     (vehicle_24h_performance_def now d))
            by (rewrite Hrow; apply list_elem_of_here)
      end.
      apply list_elem_of_filter in Hin as [Hid Hin].
      apply list_elem_of_fmap. eexists. split; [|exact Hin]. by symmetry.
Qed.

Lemma formatPerformanceData_health_Fin (data : AnalyticsService.performance_data)
    (x : Q) :
  parseFloat (AnalyticsService.efficiency_ratio data) = Fin x ->
  health_agrees (AnalyticsService.formatPerformanceData data).
Proof.
  intros Hx. unfold health_agrees, AnalyticsService.formatPerformanceData.
  cbn [AnalyticsService.view_performance AnalyticsService.efficiencyRatio
       AnalyticsService.view_healthCheck].
  rewrite Hx. unfold js_ge, js_lt.
  destruct (js_or_Fin_0 x) as (y & Hy & Hyx & _). rewrite Hy.
  exists y. split; [done|].
  destruct (Qlt_bool x 85) eqn:Hlt; simpl.
  - right. split; [|done]. apply Qlt_bool_iff in Hlt. by rewrite Hyx.
  - left. split; [|done]. apply Qlt_bool_false in Hlt. by rewrite Hyx.
Qed.

Lemma parseFloat_numeric_or_zero (x : option Q) :
  exists q, js_or (parseFloat (numeric_datum x)) (Fin 0) = Fin q.
Proof.
  destruct x as [q|]; simpl.
  - destruct (js_or_Fin_0 q) as (q' & Hq & _). by exists q'.
  - by exists 0%Q.
Qed.

Lemma computePerformanceOnDemand_health (now : Z) (d : db)
    (vehicleId : string) :
  health_agrees
    (AnalyticsService.computePerformanceOnDemand now d vehicleId).
Proof.
  unfold AnalyticsService.computePerformanceOnDemand,
    AnalyticsService.computePerformanceOnDemand_with,
    AnalyticsService.percent_toFixed, vehicle_aggregates,
    meter_aggregates.
  set (vgroup := filter _ (vehicle_telemetry_history d)).
  set (mgroup := filter _ (meter_telemetry_history d)).
  destruct (parseFloat_numeric_or_zero (SUM (vh_kwh_delivered_dc <$> vgroup)))
    as (dc & ->).
  destruct (parseFloat_numeric_or_zero (SUM (mh_kwh_consumed_ac <$> mgroup)))
    as (ac & ->).
  destruct (js_gt (Fin ac) (Fin 0)) eqn:Hgt.
  - unfold js_gt, js_lt in Hgt. apply Qlt_bool_iff in Hgt.
    unfold js_div.
    assert (Hne : Qeq_bool ac 0 = false).
    { destruct (Qeq_bool ac 0) eqn:Heq; [|done].
      apply Qeq_bool_eq in Heq. rewrite Heq in Hgt.
      by apply Qlt_irrefl in Hgt. }
    rewrite Hne. cbn [js_mul toFixed].
    by eapply formatPerformanceData_health_Fin.
  - by eapply formatPerformanceData_health_Fin.
Qed.

Lemma refreshed_ratio_readable (refreshed_at : Z) (d0 : db)
    (row : performance_row) :
  row ∈ vehicle_24h_performance_def refreshed_at d0 ->
  is_Some (perf_efficiency_ratio row).
Proof.
  intros Hrow.
  assert (Hsel : row ∈ AnalyticsService.select_performance
                         (refresh_analytics refreshed_at d0)
                         (perf_vehicle_id row)).
  { unfold AnalyticsService.select_performance.
    apply list_elem_of_filter. split; [done|]. exact Hrow. }
  rewrite select_performance_refreshed in Hsel. cbv zeta in Hsel.
  destruct (filter (fun r => vh_vehicle_id r = perf_vehicle_id row
                             /\ refreshed_at - day_ms <= vh_recorded_at r)
                   (vehicle_telemetry_history d0)) as [|r rest] eqn:Hg.
  { by apply not_elem_of_nil in Hsel. }
  apply list_elem_of_singleton in Hsel.
  rewrite Hsel. unfold performance_select.
  cbn [perf_efficiency_ratio fst snd v_total_dc_delivered].
  set (m := match filter _ (meter_telemetry_history d0) with
            | [] => None
            | _ => _
            end).
  set (ac := m ≫= m_total_ac_consumed).
  destruct (Qlt_bool 0 (COALESCE ac 0%Q)) eqn:Hlt; [|done].
  destruct ac as [a|]; [|discriminate Hlt]. done.
Qed.

(** X25.  The health check never contradicts the figures.  Whenever the
    summary row of the vehicle, if the view has one, holds an efficiency
    ratio that reads as a number (not [NULL]; the NaN that a [numeric]
    column of the store can take from an unvalidated batch does not read
    as a number either, and no row of [db] holds it),
    [getVehiclePerformance] reports a finite efficiency ratio, and its
    health check is [healthy] with normal operation exactly when that
    ratio is 85 or more, and a warning about low efficiency exactly when
    it is below 85; on the summary path and on the fallback.  Every row
    of a view that a refresh has computed from a history of numbers
    holds such a ratio. *)
Theorem getVehiclePerformance_health_agrees (now : Z) (d : db)
    (vehicleId : string) :
  (forall row, row ∈ AnalyticsService.select_performance d vehicleId ->
               is_Some (perf_efficiency_ratio row)) ->
  health_agrees (AnalyticsService.getVehiclePerformance now d vehicleId)
  /\ (forall (refreshed_at : Z) (d0 : db) (row : performance_row),
        row ∈ vehicle_24h_performance (refresh_analytics refreshed_at d0) ->
        is_Some (perf_efficiency_ratio row)).
Proof.
  intros Hreadable. split.
  - unfold AnalyticsService.getVehiclePerformance.
    destruct (AnalyticsService.select_performance d vehicleId)
      as [|row rest] eqn:Hsel.
    { apply computePerformanceOnDemand_health. }
    destruct (Hreadable row) as [x Hx]; [apply list_elem_of_here|].
    apply (formatPerformanceData_health_Fin _ x).
    unfold AnalyticsService.row_data. simpl. by rewrite Hx.
  - intros refreshed_at d0 row. apply refreshed_ratio_readable.
Qed.

Lemma getVehiclePerformance_health_agrees_witness :
  health_agrees
    (AnalyticsService.getVehiclePerformance (T0 + 180000)
       (refresh_analytics (T0 + 120000) example_db) "V1").
Proof.
  apply (getVehiclePerformance_health_agrees (T0 + 180000)
           (refresh_analytics (T0 + 120000) example_db) "V1").
  intros row Hrow.
  remember (AnalyticsService.select_performance
              (refresh_analytics (T0 + 120000) example_db) "V1")
    as rows eqn:Hrows.
  vm_compute in Hrows. subst rows.
  apply list_elem_of_singleton in Hrow as ->. by eexists.
Defined.

(** X26.  [formatPerformanceData] on a row whose [efficiency_ratio] does
    not read as a number ([NULL], or text that is not numeric): the ratio
    is reported as 0, and the health check contradicts itself, with the
    status [warning] next to the message of normal operation, because
    both comparisons with [NaN] are false. *)
Theorem formatPerformanceData_unreadable_ratio
    (data : AnalyticsService.performance_data) :
  parseFloat (AnalyticsService.efficiency_ratio data) = NaN ->
  let v := AnalyticsService.formatPerformanceData data in
  AnalyticsService.efficiencyRatio (AnalyticsService.view_performance v)
  = Fin 0
  /\ AnalyticsService.view_healthCheck v
     = {| AnalyticsService.status := "warning";
          AnalyticsService.message := "Normal operation" |}
  /\ ~ health_agrees v.
Proof.
  intros Hnan v. subst v.
  unfold health_agrees, AnalyticsService.formatPerformanceData.
  cbn [AnalyticsService.view_performance AnalyticsService.efficiencyRatio
       AnalyticsService.view_healthCheck].
  rewrite Hnan. cbn [js_or number_truthy js_ge js_lt].
  split; [done|]. split; [done|].
  intros (x & _ & [[_ H] | [_ H]]); discriminate.
Qed.

Lemma formatPerformanceData_unreadable_ratio_witness :
  let v :=
    AnalyticsService.formatPerformanceData
      {| AnalyticsService.vehicle_id := "V1";
         AnalyticsService.total_dc_delivered := DNumeric 5;
         AnalyticsService.total_ac_consumed := DNumeric 6;
         AnalyticsService.efficiency_ratio := DNull;
         AnalyticsService.avg_battery_temp := DNumeric 25;
         AnalyticsService.vehicle_readings := DNumeric 1;
         AnalyticsService.meter_readings := DNumeric 1;
         AnalyticsService.first_reading := None;
         AnalyticsService.last_reading := None;
         AnalyticsService.computed_at := T0 |} in
  AnalyticsService.efficiencyRatio (AnalyticsService.view_performance v)
  = Fin 0
  /\ AnalyticsService.view_healthCheck v
     = {| AnalyticsService.status := "warning";
          AnalyticsService.message := "Normal operation" |}
  /\ ~ health_agrees v.
Proof.
  apply (formatPerformanceData_unreadable_ratio
           {| AnalyticsService.vehicle_id := "V1";
              AnalyticsService.total_dc_delivered := DNumeric 5;
              AnalyticsService.total_ac_consumed := DNumeric 6;
              AnalyticsService.efficiency_ratio := DNull;
              AnalyticsService.avg_battery_temp := DNumeric 25;
              AnalyticsService.vehicle_readings := DNumeric 1;
              AnalyticsService.meter_readings := DNumeric 1;
              AnalyticsService.first_reading := None;
              AnalyticsService.last_reading := None;
              AnalyticsService.computed_at := T0 |}).
  reflexivity.
Defined.

(** X27.  A vehicle nobody has heard of in the last 24 hours is not an
    error.  When the view has no row for the identifier and the vehicle
    history holds no reading of it in the window, [getVehiclePerformance]
    answers with no energy delivered, a ratio of 0, no readings, no first
    or last reading, and a warning; and the handler answers 200 with it,
    never 404, unless the identifier is empty, which it answers with
    400. *)
Theorem vehicle_without_readings (now : Z) (d : db) (vehicleId : string) :
  AnalyticsService.select_performance d vehicleId = [] ->
  (forall r, r ∈ vehicle_telemetry_history d -> vh_vehicle_id r = vehicleId ->
             vh_recorded_at r < now - day_ms) ->
  let v := AnalyticsService.getVehiclePerformance now d vehicleId in
  AnalyticsService.totalEnergyDeliveredDc (AnalyticsService.view_performance v)
  = Fin 0
  /\ AnalyticsService.efficiencyRatio (AnalyticsService.view_performance v)
     = Fin 0
  /\ AnalyticsService.averageBatteryTemp (AnalyticsService.view_performance v)
     = Fin 0
  /\ AnalyticsService.vehicleReadings (AnalyticsService.view_metadata v)
     = Fin 0
  /\ AnalyticsService.firstReading (AnalyticsService.view_metadata v) = None
  /\ AnalyticsService.lastReading (AnalyticsService.view_metadata v) = None
  /\ AnalyticsService.view_healthCheck v
     = {| AnalyticsService.status := "warning";
          AnalyticsService.message :=
            "Efficiency below 85% - investigate for hardware fault or energy leakage" |}
  /\ AnalyticsController.getVehiclePerformance now d vehicleId
     = if String.eqb vehicleId "" then Failure 400 "vehicleId is required"
       else Reply 200 v.
Proof.
  intros Hrow Hold v. subst v.
  unfold AnalyticsController.getVehiclePerformance,
    AnalyticsService.getVehiclePerformance.
  rewrite Hrow.
  unfold AnalyticsService.computePerformanceOnDemand,
    AnalyticsService.computePerformanceOnDemand_with,
    AnalyticsService.percent_toFixed, vehicle_aggregates,
    meter_aggregates.
  rewrite (filter_none (fun r => vh_vehicle_id r = vehicleId
                                 /\ now - day_ms <= vh_recorded_at r)).
  2: { apply Forall_forall. intros r Hr [Hid Hwin].
       specialize (Hold r Hr Hid). lia. }
  set (mgroup := filter _ (meter_telemetry_history d)).
  cbn [fmap list_fmap SUM AVG COUNT MIN MAX length numeric_datum parseFloat
       js_or number_truthy].
  destruct (parseFloat_numeric_or_zero (SUM (mh_kwh_consumed_ac <$> mgroup)))
    as (ac & Hac).
  cbn [numeric_datum parseFloat] in Hac. rewrite Hac.
  assert (Hratio : forall q : Q,
             js_or (parseFloat
                      (if js_gt (Fin ac) (Fin 0)
                       then toFixed (js_mul (js_div (Fin 0) (Fin ac)) (Fin 100)) 2
                       else DNumber (Fin 0))) (Fin 0) = Fin 0
             /\ js_ge (parseFloat
                         (if js_gt (Fin ac) (Fin 0)
                          then toFixed (js_mul (js_div (Fin 0) (Fin ac))
                                               (Fin 100)) 2
                          else DNumber (Fin 0))) (Fin 85) = false
             /\ js_lt (parseFloat
                         (if js_gt (Fin ac) (Fin 0)
                          then toFixed (js_mul (js_div (Fin 0) (Fin ac))
                                               (Fin 100)) 2
                          else DNumber (Fin 0))) (Fin 85) = true).
  { intros _. destruct (js_gt (Fin ac) (Fin 0)) eqn:Hgt; [|done].
    unfold js_gt, js_lt in Hgt. apply Qlt_bool_iff in Hgt.
    unfold js_div.
    assert (Hne : Qeq_bool ac 0 = false).
    { destruct (Qeq_bool ac 0) eqn:Heq; [|done].
      apply Qeq_bool_eq in Heq. rewrite Heq in Hgt.
      by apply Qlt_irrefl in Hgt. }
    rewrite Hne. cbn [js_mul toFixed parseFloat].
    assert (Hz : toFixed_units 2 (0 / ac * 100) = 0).
    { rewrite (toFixed_units_wd 2 (0 / ac * 100) 0); [done|].
      field. intros Hz. rewrite Hz in Hgt. by apply Qlt_irrefl in Hgt. }
    rewrite Hz. done. }
  destruct (Hratio 0%Q) as (Hr1 & Hr2 & Hr3).
  unfold AnalyticsService.formatPerformanceData.
  cbn [AnalyticsService.view_performance AnalyticsService.view_metadata
       AnalyticsService.view_healthCheck
       AnalyticsService.totalEnergyDeliveredDc
       AnalyticsService.efficiencyRatio AnalyticsService.averageBatteryTemp
       AnalyticsService.vehicleReadings AnalyticsService.firstReading
       AnalyticsService.lastReading
       AnalyticsService.total_dc_delivered AnalyticsService.efficiency_ratio
       AnalyticsService.avg_battery_temp AnalyticsService.vehicle_readings
       AnalyticsService.first_reading AnalyticsService.last_reading].
  rewrite Hr1, Hr2, Hr3.
  repeat split; try done.
Qed.

Lemma vehicle_without_readings_witness :
  let v := AnalyticsService.getVehiclePerformance (T0 + 120000) example_db
             "V9" in
  AnalyticsService.totalEnergyDeliveredDc (AnalyticsService.view_performance v)
  = Fin 0
  /\ AnalyticsService.efficiencyRatio (AnalyticsService.view_performance v)
     = Fin 0
  /\ AnalyticsService.averageBatteryTemp (AnalyticsService.view_performance v)
     = Fin 0
  /\ AnalyticsService.vehicleReadings (AnalyticsService.view_metadata v)
     = Fin 0
  /\ AnalyticsService.firstReading (AnalyticsService.view_metadata v) = None
  /\ AnalyticsService.lastReading (AnalyticsService.view_metadata v) = None
  /\ AnalyticsService.view_healthCheck v
     = {| AnalyticsService.status := "warning";
          AnalyticsService.message :=
            "Efficiency below 85% - investigate for hardware fault or energy leakage" |}
  /\ AnalyticsController.getVehiclePerformance (T0 + 120000) example_db "V9"
     = if String.eqb "V9" "" then Failure 400 "vehicleId is required"
       else Reply 200 v.
Proof.
  apply (vehicle_without_readings (T0 + 120000) example_db "V9").
  - reflexivity.
  - intros r Hr Hid. vm_compute in Hr.
    repeat (apply elem_of_cons in Hr as [-> | Hr]; [discriminate Hid|]).
    by apply not_elem_of_nil in Hr.
Defined.

Lemma refreshed_row_selected (now : Z) (d : db) (row : performance_row) :
  row ∈ vehicle_24h_performance_def now d ->
  AnalyticsService.select_performance (refresh_analytics now d)
    (perf_vehicle_id row) = [row].
Proof.
  intros Hrow.
  assert (Hin : row ∈ AnalyticsService.select_performance
                        (refresh_analytics now d) (perf_vehicle_id row))
    by (by apply list_elem_of_filter).
  revert Hin. rewrite select_performance_refreshed. cbv zeta.
  destruct (filter _ (vehicle_telemetry_history d)).
  - intros Hin. by apply not_elem_of_nil in Hin.
  - intros Hin. apply list_elem_of_singleton in Hin. by rewrite <- Hin.
Qed.

(** X28.  An alert and the performance summary of the same vehicle tell
    the same story.  With a view that a refresh has computed, every alert
    that [getEfficiencyAlerts] returns for a threshold of 85 or less
    names a vehicle for which [getVehiclePerformance] reports the very
    same efficiency ratio and a health check with the status [warning]. *)
Theorem alert_means_warning (now refreshed_at : Z) (d d0 : db) (t : Q)
    (a : AnalyticsService.alert_view) :
  vehicle_24h_performance d = vehicle_24h_performance_def refreshed_at d0 ->
  (t <= 85)%Q ->
  a ∈ AnalyticsService.getEfficiencyAlerts d (Some (Fin t)) ->
  let v := AnalyticsService.getVehiclePerformance now d
             (AnalyticsService.alert_vehicleId a) in
  AnalyticsService.efficiencyRatio (AnalyticsService.view_performance v)
  = AnalyticsService.alert_efficiencyRatio a
  /\ AnalyticsService.status (AnalyticsService.view_healthCheck v)
     = "warning".
Proof.
  intros Hview Ht Ha v. subst v.
  unfold AnalyticsService.getEfficiencyAlerts in Ha. simpl in Ha.
  apply list_elem_of_fmap in Ha as (row & -> & Hrow).
  rewrite merge_sort_Permutation in Hrow.
  apply list_elem_of_filter in Hrow as [Hcond Hrow].
  apply alert_condition_between in Hcond as (x & Hx & Hpos & Hlt).
  rewrite Hview in Hrow.
  unfold AnalyticsService.getVehiclePerformance.
  assert (Hsel : AnalyticsService.select_performance d
                   (perf_vehicle_id row) = [row]).
  { rewrite <- (refreshed_row_selected refreshed_at d0 row Hrow).
    unfold AnalyticsService.select_performance. by rewrite Hview. }
  cbn [AnalyticsService.alert_of_row AnalyticsService.alert_vehicleId
       AnalyticsService.alert_efficiencyRatio].
  rewrite Hsel.
  unfold AnalyticsService.formatPerformanceData, AnalyticsService.row_data.
  cbn [AnalyticsService.view_performance AnalyticsService.efficiencyRatio
       AnalyticsService.view_healthCheck AnalyticsService.status
       AnalyticsService.efficiency_ratio].
  rewrite Hx. cbn [numeric_datum parseFloat].
  split.
  - unfold js_or. cbn [number_truthy].
    destruct (Qeq_bool x 0) eqn:Hz; [|done].
    apply Qeq_bool_eq in Hz. rewrite Hz in Hpos.
    by apply Qlt_irrefl in Hpos.
  - unfold js_ge, js_lt.
    assert (Hlt85 : Qlt_bool x 85 = true).
    { apply Qlt_bool_iff. by eapply Qlt_le_trans. }
    by rewrite Hlt85.
Qed.

Lemma alert_means_warning_witness :
  AnalyticsService.getEfficiencyAlerts leaking_db (Some (Fin 85)) <> []
  /\ Forall
       (fun a =>
          let v := AnalyticsService.getVehiclePerformance (T0 + 180000)
                     leaking_db (AnalyticsService.alert_vehicleId a) in
          AnalyticsService.efficiencyRatio
            (AnalyticsService.view_performance v)
          = AnalyticsService.alert_efficiencyRatio a
          /\ AnalyticsService.status (AnalyticsService.view_healthCheck v)
             = "warning")
       (AnalyticsService.getEfficiencyAlerts leaking_db (Some (Fin 85))).
Proof.
  split; [vm_compute; discriminate|].
  apply Forall_forall. intros a Ha.
  apply (alert_means_warning (T0 + 180000) (T0 + 120000) leaking_db
           leaking_history 85 a).
  - reflexivity.
  - vm_compute. discriminate.
  - exact Ha.
Defined.

Lemma statement_within_view (E : driver) (q : stmt) :
  data_statement q -> statement_within E view_kept q.
Proof.
  intros Hq. split; [done|]. intros now w w' r Hexec.
  by apply exec_grows in Hexec as (_ & _ & _ & _ & Hview).
Qed.

Lemma view_kept_trans (d1 d2 d3 : db) :
  view_kept d1 d2 -> view_kept d2 d3 -> view_kept d1 d3.
Proof. unfold view_kept. congruence. Qed.

Lemma ingestTelemetry_keeps_view (E : driver) (telemetryData : jsval)
    (s : server) :
  view_kept (committed s)
    (committed (IngestionController.ingestTelemetry E telemetryData s).2).
Proof.
  unfold IngestionController.ingestTelemetry.
  destruct (negb (truthy telemetryData) || _); [done|].
  destruct (identifyTelemetryType telemetryData) as [e|[| |]]; try done.
  - pose proof (meter_ingest_within E view_kept (fun _ => eq_refl)
                  view_kept_trans telemetryData s) as H.
    destruct (MeterService.ingest E telemetryData s) as [[e|r] s'];
      apply H; intros q Hq; apply statement_within_view; by destruct q.
  - pose proof (vehicle_ingest_within E view_kept (fun _ => eq_refl)
                  view_kept_trans telemetryData s) as H.
    destruct (VehicleService.ingest E telemetryData s) as [[e|r] s'];
      apply H; intros q Hq; apply statement_within_view; by destruct q.
Qed.

Lemma ingestBatch_keeps_view (E : driver) (batchData : jsval) (s : server) :
  view_kept (committed s)
    (committed (IngestionController.ingestBatch E batchData s).2).
Proof.
  unfold IngestionController.ingestBatch.
  destruct batchData as [| | | | |[|item items]|]; try done.
  destruct (IngestionController.separate (item :: items))
    as [e|[meterBatch vehicleBatch]]; [done|].
  assert (Hm : forall q, meter_statement q -> statement_within E view_kept q).
  { intros q Hq. apply statement_within_view. by destruct q. }
  assert (Hv : forall q, vehicle_statement q -> statement_within E view_kept q).
  { intros q Hq. apply statement_within_view. by destruct q. }
  set (m := match meterBatch with
            | [] => (inr 0%nat, s)
            | _ => MeterService.ingestBatch E (JArr meterBatch) s
            end).
  assert (H1 : view_kept (committed s) (committed m.2)).
  { subst m. destruct meterBatch; [done|].
    by apply meter_batch_within; [| apply view_kept_trans |]. }
  destruct m as [meterResult s1]. simpl in H1.
  set (v := match vehicleBatch with
            | [] => (inr 0%nat, s1)
            | _ => VehicleService.ingestBatch E (JArr vehicleBatch) s1
            end).
  assert (H2 : view_kept (committed s1) (committed v.2)).
  { subst v. destruct vehicleBatch; [done|].
    by apply vehicle_batch_within; [| apply view_kept_trans |]. }
  destruct v as [vehicleResult s2]. simpl in *. by eapply view_kept_trans.
Qed.

(** X29.  The summary is stale until the next refresh.  Whatever
    [POST /v1/ingest] or [POST /v1/ingest/batch] has stored, the alerts
    are what they were, and for every vehicle the view has a row for,
    [getVehiclePerformance] answers what it answered before, at whatever
    time it is asked: the new readings show only after
    [refresh_analytics], or for vehicles the view has no row for. *)
Theorem summary_is_stale_until_refresh (E : driver) (body : jsval)
    (s : server) (now now' : Z) :
  forall s',
    s' = (IngestionController.ingestTelemetry E body s).2
    \/ s' = (IngestionController.ingestBatch E body s).2 ->
    (forall threshold,
       AnalyticsService.getEfficiencyAlerts (committed s') threshold
       = AnalyticsService.getEfficiencyAlerts (committed s) threshold)
    /\ forall vehicleId,
         AnalyticsService.select_performance (committed s) vehicleId <> [] ->
         AnalyticsService.getVehiclePerformance now' (committed s') vehicleId
         = AnalyticsService.getVehiclePerformance now (committed s) vehicleId.
Proof.
  intros s' Hs'.
  assert (Hview : view_kept (committed s) (committed s')).
  { destruct Hs' as [-> | ->];
      [apply ingestTelemetry_keeps_view | apply ingestBatch_keeps_view]. }
  unfold view_kept in Hview. split.
  - intros threshold. unfold AnalyticsService.getEfficiencyAlerts.
    by rewrite Hview.
  - intros vehicleId Hrow.
    unfold AnalyticsService.getVehiclePerformance,
      AnalyticsService.select_performance in *.
    rewrite Hview.
    by destruct (filter _ (vehicle_24h_performance (committed s))).
Qed.

Lemma summary_is_stale_until_refresh_witness :
  AnalyticsService.getVehiclePerformance (T0 + 300000)
    (committed
       (IngestionController.ingestTelemetry example_driver
          (vehicle_payload "V1" 55 8 27 "2024-01-01T00:01:00Z")
          (with_committed example_server leaking_db)).2) "V1"
  = AnalyticsService.getVehiclePerformance (T0 + 180000)
      (committed (with_committed example_server leaking_db)) "V1".
Proof.
  apply (summary_is_stale_until_refresh example_driver
           (vehicle_payload "V1" 55 8 27 "2024-01-01T00:01:00Z")
           (with_committed example_server leaking_db)
           (T0 + 180000) (T0 + 300000)).
  - left. reflexivity.
  - vm_compute. discriminate.
Defined.

(** ** [POST /v1/ingest/batch] *)

Lemma identifyTelemetryType_not_null (data : jsval) :
  is_null data = false -> exists t, identifyTelemetryType data = inr t.
Proof.
  intros Hdata. unfold identifyTelemetryType, all_defined.
  destruct data; try discriminate; cbn [prop];
    repeat match goal with
           | |- context [if ?b then _ else _] => destruct b
           end; by eexists.
Qed.

Lemma separate_not_null (items : list jsval) :
  Forall (fun item => is_null item = false) items ->
  exists meterBatch vehicleBatch,
    IngestionController.separate items = inr (meterBatch, vehicleBatch).
Proof.
  induction 1 as [|item items Hitem _ IH]; simpl.
  - by exists [], [].
  - destruct (identifyTelemetryType_not_null item Hitem) as (t & ->).
    destruct IH as (mb & vb & ->). destruct t; by eexists _, _.
Qed.

Lemma meter_group_outcome (E : driver) (meterBatch : list jsval) (s : server) :
  let m := match meterBatch with
           | [] => (inr 0%nat, s)
           | _ => MeterService.ingestBatch E (JArr meterBatch) s
           end in
  vehicle_telemetry_history (committed m.2)
  = vehicle_telemetry_history (committed s)
  /\ match m.1 with
     | inr n =>
         n = length meterBatch
         /\ length (meter_telemetry_history (committed m.2))
            = (length (meter_telemetry_history (committed s)) + n)%nat
     | inl _ =>
         meterBatch <> []
         /\ meter_telemetry_history (committed m.2)
            = meter_telemetry_history (committed s)
     end.
Proof.
  destruct meterBatch as [|item rest]; [simpl; split; [done | split; [done | lia]]|].
  cbv zeta. set (items := item :: rest). split.
  - by apply (meter_batch_within E vehicle_tables_kept);
      [| apply vehicle_tables_kept_trans
       | apply statement_within_vehicle_tables].
  - destruct (MeterService.ingestBatch E (JArr items) s) as [[e|n] s1]
      eqn:Hrun; simpl.
    + split; [done|].
      apply meter_batch_failure in Hrun as [_ ->]; done.
    + apply meter_batch_state in Hrun
        as (ps & rows & Hps & Hrows & -> & -> & _); [|done].
      split; [done|]. rewrite length_app.
      apply traverse_length in Hps, Hrows. lia.
Qed.

Lemma vehicle_group_outcome (E : driver) (vehicleBatch : list jsval)
    (s : server) :
  let v := match vehicleBatch with
           | [] => (inr 0%nat, s)
           | _ => VehicleService.ingestBatch E (JArr vehicleBatch) s
           end in
  meter_telemetry_history (committed v.2)
  = meter_telemetry_history (committed s)
  /\ match v.1 with
     | inr n =>
         n = length vehicleBatch
         /\ length (vehicle_telemetry_history (committed v.2))
            = (length (vehicle_telemetry_history (committed s)) + n)%nat
     | inl _ =>
         vehicleBatch <> []
         /\ vehicle_telemetry_history (committed v.2)
            = vehicle_telemetry_history (committed s)
     end.
Proof.
  destruct vehicleBatch as [|item rest];
    [simpl; split; [done | split; [done | lia]]|].
  cbv zeta. set (items := item :: rest). split.
  - by apply (vehicle_batch_within E meter_tables_kept);
      [| apply meter_tables_kept_trans
       | apply statement_within_meter_tables].
  - destruct (VehicleService.ingestBatch E (JArr items) s) as [[e|n] s1]
      eqn:Hrun; simpl.
    + split; [done|].
      apply vehicle_batch_failure in Hrun as [_ ->]; done.
    + apply vehicle_batch_state in Hrun
        as (ps & rows & Hps & Hrows & -> & -> & _); [|done].
      split; [done|]. rewrite length_app.
      apply traverse_length in Hps, Hrows. lia.
Qed.

(** X30.  [POST /v1/ingest/batch] reports what it has stored.  For a
    non-empty array without [null] items the answer is always 201, also
    when a group, or both, failed in the store; [total] is the sum of
    [meters] and [vehicles]; each of the two counts is exactly the number
    of rows its history table has gained, the whole group or nothing; and
    [errors] is empty exactly when both groups were stored in full.  So
    one group can be committed while the other one is rolled back. *)
Theorem ingestBatch_reports_what_it_stored (E : driver) (items : list jsval)
    (s : server) :
  items <> [] ->
  Forall (fun item => is_null item = false) items ->
  exists meterBatch vehicleBatch summary s',
    IngestionController.separate items = inr (meterBatch, vehicleBatch)
    /\ IngestionController.ingestBatch E (JArr items) s
       = (Reply 201 summary, s')
    /\ IngestionController.total summary
       = (IngestionController.meters summary
          + IngestionController.vehicles summary)%nat
    /\ length (meter_telemetry_history (committed s'))
       = (length (meter_telemetry_history (committed s))
          + IngestionController.meters summary)%nat
    /\ length (vehicle_telemetry_history (committed s'))
       = (length (vehicle_telemetry_history (committed s))
          + IngestionController.vehicles summary)%nat
    /\ (IngestionController.meters summary = length meterBatch
        \/ IngestionController.meters summary = 0%nat)
    /\ (IngestionController.vehicles summary = length vehicleBatch
        \/ IngestionController.vehicles summary = 0%nat)
    /\ (IngestionController.errors summary = []
        <-> IngestionController.meters summary = length meterBatch
            /\ IngestionController.vehicles summary = length vehicleBatch).
Proof.
  intros Hitems Hnull.
  destruct (separate_not_null items Hnull) as (mb & vb & Hsep).
  exists mb, vb. unfold IngestionController.ingestBatch.
  destruct items as [|item rest]; [done|]. rewrite Hsep.
  pose proof (meter_group_outcome E mb s) as Hm. cbv zeta in Hm.
  destruct (match mb with
            | [] => (inr 0%nat, s)
            | _ => MeterService.ingestBatch E (JArr mb) s
            end) as [r1 s1].
  pose proof (vehicle_group_outcome E vb s1) as Hv. cbv zeta in Hv.
  destruct (match vb with
            | [] => (inr 0%nat, s1)
            | _ => VehicleService.ingestBatch E (JArr vb) s1
            end) as [r2 s2].
  simpl in Hm, Hv. destruct Hm as [Hm1 Hm2], Hv as [Hv1 Hv2].
  eexists _, _. split; [done|]. split; [reflexivity|].
  cbn [IngestionController.total IngestionController.meters
       IngestionController.vehicles IngestionController.errors].
  split; [done|].
  destruct r1 as [e1|n1], r2 as [e2|n2];
    destruct Hm2 as [Hm2 Hm3], Hv2 as [Hv2 Hv3]; subst;
    rewrite ?Hv1, ?Hv3, ?Hm1, ?Hm3;
    (split; [lia|]); (split; [lia|]);
    (split; [auto|]); (split; [auto|]); simpl.
  - split; [done|]. intros [H _]. by destruct mb.
  - split; [done|]. intros [H _]. by destruct mb.
  - split; [done|]. intros [_ H]. by destruct vb.
  - done.
Qed.

Lemma ingestBatch_reports_what_it_stored_witness :
  let items := [meter_payload "M1" 5 230 "2024-01-01T00:00:00Z";
                vehicle_payload "V1" 40 5 2500 "2024-01-01T00:00:00Z"] in
  exists meterBatch vehicleBatch summary s',
    IngestionController.separate items = inr (meterBatch, vehicleBatch)
    /\ IngestionController.ingestBatch example_driver (JArr items)
         example_server
       = (Reply 201 summary, s')
    /\ IngestionController.total summary
       = (IngestionController.meters summary
          + IngestionController.vehicles summary)%nat
    /\ length (meter_telemetry_history (committed s'))
       = (length (meter_telemetry_history (committed example_server))
          + IngestionController.meters summary)%nat
    /\ length (vehicle_telemetry_history (committed s'))
       = (length (vehicle_telemetry_history (committed example_server))
          + IngestionController.vehicles summary)%nat
    /\ (IngestionController.meters summary = length meterBatch
        \/ IngestionController.meters summary = 0%nat)
    /\ (IngestionController.vehicles summary = length vehicleBatch
        \/ IngestionController.vehicles summary = 0%nat)
    /\ (IngestionController.errors summary = []
        <-> IngestionController.meters summary = length meterBatch
            /\ IngestionController.vehicles summary = length vehicleBatch).
Proof.
  apply (ingestBatch_reports_what_it_stored example_driver
           [meter_payload "M1" 5 230 "2024-01-01T00:00:00Z";
            vehicle_payload "V1" 40 5 2500 "2024-01-01T00:00:00Z"]
           example_server).
  - discriminate.
  - repeat constructor.
Defined.
